(** * modhost-bridge: a shallow embedding of the bridge daemon

    The development follows the layout of [src/audio-engine/modhost-bridge/src]:
    the C++ standard-library pieces the code relies on ([std::string],
    [std::istringstream], [std::stoi], [std::to_string]), the JSON values of
    jsoncpp, then [utils/types], [utils/parser], [plugins/plugin_validator],
    [plugins/plugin_search_engine], [plugins/plugin_manager],
    [core/feedback_reader] and [command_service].  Definitions come first, the
    theorems about them follow. *)

From Stdlib Require Import ZArith Ascii String List Bool Lia.
From stdpp Require Import base option gmap strings list fin_maps sorting.

Set Warnings "-register-all".
Local Open Scope Z_scope.

(* ===================================================================== *)
(** ** C++ characters and strings *)
(* ===================================================================== *)

Module Cxx.

(** [isspace] in the "C" locale: space, and the controls \t \n \v \f \r. *)
Definition isspace (c : ascii) : bool :=
  let n := nat_of_ascii c in
  Nat.eqb n 32 || (Nat.leb 9 n && Nat.leb n 13).

Definition isdigit (c : ascii) : bool :=
  let n := nat_of_ascii c in Nat.leb 48 n && Nat.leb n 57.

Definition digit_value (c : ascii) : Z := Z.of_nat (nat_of_ascii c) - 48.

Definition digit_char (d : Z) : ascii := ascii_of_nat (48 + Z.to_nat d).

(** [::tolower] on the ASCII range: only 'A'..'Z' move. *)
Definition tolower (c : ascii) : ascii :=
  let n := nat_of_ascii c in
  if Nat.leb 65 n && Nat.leb n 90 then ascii_of_nat (n + 32) else c.

Definition NUL : ascii := ascii_of_nat 0.
Definition LF : ascii := ascii_of_nat 10.
Definition SP : ascii := ascii_of_nat 32.

Definition empty (s : string) : bool :=
  match s with EmptyString => true | String _ _ => false end.

(** The characters of a C string: everything before the first NUL.  This is
    what [strlen], [std::string(const char* )] and
    [operator+(const std::string&, const char* )] see of a character array. *)
Fixpoint c_str_chars (s : string) : string :=
  match s with
  | EmptyString => EmptyString
  | String c r => if Ascii.eqb c NUL then EmptyString else String c (c_str_chars r)
  end.

(** [lhs + rhs] where [rhs] is a [const char*] pointing at the array [arr]. *)
Definition append_c_str (lhs arr : string) : string := lhs +:+ c_str_chars arr.

(** The array a string literal denotes: its characters and the terminator
    the compiler adds. *)
Definition literal (chars : string) : string := chars +:+ String NUL EmptyString.

(** [hay.compare(0, n, needle)]: is [needle] a prefix of [hay]. *)
Fixpoint starts_with (needle hay : string) : bool :=
  match needle, hay with
  | EmptyString, _ => true
  | String a n', String b h' => Ascii.eqb a b && starts_with n' h'
  | String _ _, EmptyString => false
  end.

(** [hay.find(needle)]: offset of the first occurrence, [None] for [npos]. *)
Fixpoint find (needle hay : string) : option nat :=
  if starts_with needle hay then Some O
  else match hay with
       | EmptyString => None
       | String _ h' => S <$> find needle h'
       end.

(** [s.substr(pos)] for [pos <= s.size()]. *)
Fixpoint substr (pos : nat) (s : string) : string :=
  match pos, s with
  | O, _ => s
  | S p, String _ r => substr p r
  | S _, EmptyString => EmptyString
  end.

Fixpoint toLower (s : string) : string :=
  match s with
  | EmptyString => EmptyString
  | String c r => String (tolower c) (toLower r)
  end.

(** Decimal digits of a non-negative integer, most significant first. *)
Fixpoint decimal_fuel (fuel : nat) (n : Z) : string :=
  match fuel with
  | O => String (digit_char (n mod 10)) EmptyString
  | S f =>
      if n <? 10 then String (digit_char n) EmptyString
      else decimal_fuel f (n / 10) +:+ String (digit_char (n mod 10)) EmptyString
  end.

Definition decimal (n : Z) : string :=
  decimal_fuel (Z.to_nat (Z.log2_up (n + 1))) n.

(** [std::to_string(int)]. *)
Definition to_string (n : Z) : string :=
  if n <? 0 then String "-" (decimal (- n)) else decimal n.

Fixpoint skipws (s : string) : string :=
  match s with
  | EmptyString => EmptyString
  | String c r => if isspace c then skipws r else s
  end.

(** An optional sign in front of a number: [(negative, rest)]. *)
Definition read_sign (s : string) : bool * string :=
  match s with
  | String "-" r => (true, r)
  | String "+" r => (false, r)
  | _ => (false, s)
  end.

(** The run of decimal digits at the head of [s], accumulated left to right
    as the library does: [(value, some digit seen, rest)]. *)
Fixpoint scan_digits (s : string) (acc : Z) (seen : bool) : Z * bool * string :=
  match s with
  | EmptyString => (acc, seen, s)
  | String c r =>
      if isdigit c then scan_digits r (acc * 10 + digit_value c) true
      else (acc, seen, s)
  end.

Definition INT_MAX : Z := 2147483647.
Definition INT_MIN : Z := -2147483648.
Definition UINT32_MAX : Z := 4294967295.
Definition LONG_MAX : Z := 9223372036854775807.
Definition LONG_MIN : Z := -9223372036854775808.

Inductive stoi_result :=
  | stoi_value (n : Z)
  | invalid_argument
  | out_of_range.

(** [std::stoi(s)]: [strtol] in base 10 (leading white space, optional sign,
    digits; what follows is ignored), then the range check of [int]. *)
Definition stoi (s : string) : stoi_result :=
  let '(neg, r) := read_sign (skipws s) in
  let '(v, seen, _) := scan_digits r 0 false in
  if negb seen then invalid_argument
  else
    let n := if neg then - v else v in
    if (n <? INT_MIN) || (INT_MAX <? n) then out_of_range else stoi_value n.

End Cxx.

(* ===================================================================== *)
(** ** JSON values (jsoncpp's [Json::Value]) *)
(* ===================================================================== *)

(** Objects are keyed maps, so two objects with the same members are equal
    whatever the order of the assignments that built them. *)
Inductive Json (double : Type) : Type :=
  | JNull
  | JBool (b : bool)
  | JInt (n : Z)
  | JUInt (n : Z)
  | JReal (d : double)
  | JString (s : string)
  | JArray (items : list (Json double))
  | JObject (members : gmap string (Json double)).

Arguments JNull {double}.
Arguments JBool {double} b.
Arguments JInt {double} n.
Arguments JUInt {double} n.
Arguments JReal {double} d.
Arguments JString {double} s.
Arguments JArray {double} items.
Arguments JObject {double} members.

(** [root[key] = v]: a null value turns into an object on first use. *)
Definition json_set {double} (key : string) (v : Json double) (root : Json double)
  : Json double :=
  match root with
  | JNull => JObject {[ key := v ]}
  | JObject m => JObject (<[ key := v ]> m)
  | other => other
  end.

(** [root[key]] read on a constant value: null when absent. *)
Definition json_get {double} (key : string) (root : Json double) : Json double :=
  match root with
  | JObject m => default JNull (m !! key)
  | _ => JNull
  end.

(** [root.isMember(key)]: [None] stands for the [Json::LogicError] thrown on
    a value that is neither an object nor null. *)
Definition isMember {double} (key : string) (root : Json double) : option bool :=
  match root with
  | JObject m => Some (bool_decide (is_Some (m !! key)))
  | JNull => Some false
  | _ => None
  end.

(** Members of an object are kept in the order of their keys, compared
    byte by byte. *)
Definition key_le {A} (a b : string * A) : Prop := String.leb (fst a) (fst b) = true.

#[global] Instance key_le_dec {A} (a b : string * A) : Decision (key_le a b).
Proof. unfold key_le. apply _. Defined.

(** The values a range-based [for] over a [Json::Value] visits: the items of
    an array, the member values of an object by key, nothing otherwise. *)
Definition json_elements {double} (v : Json double) : list (Json double) :=
  match v with
  | JArray items => items
  | JObject m => map snd (merge_sort key_le (map_to_list m))
  | _ => []
  end.

(** The parts of the platform the repository does not contain: the [double]
    type with the text conversions of the C++ library, and jsoncpp's reader
    and writer. *)
Class Platform (double : Type) := {
  (** the value [0.0] *)
  double_zero : double;
  (** [a > b] *)
  double_gt : double -> double -> bool;
  (** [std::to_string(double)] *)
  double_to_string : double -> string;
  (** [num_get] for [double] on the characters after the white space:
      the value stored, whether the conversion succeeded, the unread rest *)
  num_get_double : string -> double * bool * string;
  (** [Json::Reader().parse(text, root)]: the flag returned and the value
      left in [root]; [None] when the reader throws (its nesting limit) *)
  Reader_parse : string -> option (bool * Json double);
  (** [Json::writeString(Json::StreamWriterBuilder(), value)] *)
  writeString : Json double -> string;
  (** jsoncpp's [valueToString(double)], used by [asString] on reals *)
  valueToString : double -> string
}.

(** [value.asString()]: [None] stands for the [Json::LogicError] thrown on
    arrays and objects. *)
Definition asString `{Platform double} (v : Json double) : option string :=
  match v with
  | JNull => Some EmptyString
  | JString s => Some s
  | JBool b => Some (if b then "true" else "false")
  | JInt n => Some (Cxx.to_string n)
  | JUInt n => Some (Cxx.to_string n)
  | JReal d => Some (valueToString d)
  | JArray _ | JObject _ => None
  end.

(* ===================================================================== *)
(** ** [std::istringstream] *)
(* ===================================================================== *)

Module IStream.
Import Cxx.

(** The unread characters and the fail state.  Every extraction below that
    runs into the end of the text leaves [buf] empty, which is when the
    library has set [eofbit]: the next sentry then fails. *)
Record istringstream := mk_iss { buf : string; failbit : bool }.

Definition open (text : string) : istringstream := mk_iss text false.

(** The sentry of a formatted input function: fails on a stream that is not
    good, else skips white space and fails when nothing is left. *)
Definition sentry (iss : istringstream) : option string :=
  if failbit iss then None
  else match skipws (buf iss) with
       | EmptyString => None
       | r => Some r
       end.

(** The stream after a failed sentry. *)
Definition sentry_failed (iss : istringstream) : istringstream :=
  if failbit iss then iss else mk_iss EmptyString true.

Fixpoint read_token (s : string) : string * string :=
  match s with
  | EmptyString => (EmptyString, EmptyString)
  | String c r =>
      if isspace c then (EmptyString, s)
      else let '(tok, rest) := read_token r in (String c tok, rest)
  end.

(** [iss >> str] for a [std::string]: [old] is what the variable held. *)
Definition extract_string (old : string) (iss : istringstream)
  : string * istringstream :=
  match sentry iss with
  | None => (old, sentry_failed iss)
  | Some r => let '(tok, rest) := read_token r in (tok, mk_iss rest false)
  end.

(** [num_get] for an unsigned 32-bit integer: no digit stores 0 and fails,
    a magnitude above the maximum stores the maximum and fails, a minus sign
    negates modulo 2^32. *)
Definition num_get_uint32 (r : string) : Z * bool * string :=
  let '(neg, r1) := read_sign r in
  let '(v, seen, rest) := scan_digits r1 0 false in
  if negb seen then (0, false, rest)
  else if UINT32_MAX <? v then (UINT32_MAX, false, rest)
  else ((if neg then (- v) mod 2 ^ 32 else v), true, rest).

(** [iss >> n] for a [uint32_t]. *)
Definition extract_uint32 (old : Z) (iss : istringstream) : Z * istringstream :=
  match sentry iss with
  | None => (old, sentry_failed iss)
  | Some r => let '(v, ok, rest) := num_get_uint32 r in (v, mk_iss rest (negb ok))
  end.

(** [num_get] for [long]. *)
Definition num_get_long (r : string) : Z * bool * string :=
  let '(neg, r1) := read_sign r in
  let '(v, seen, rest) := scan_digits r1 0 false in
  if negb seen then (0, false, rest)
  else
    let n := if neg then - v else v in
    if n <? LONG_MIN then (LONG_MIN, false, rest)
    else if LONG_MAX <? n then (LONG_MAX, false, rest)
    else (n, true, rest).

(** [iss >> b] for a [bool] without [boolalpha]: read as a [long], 0 and 1
    are the two values, anything else stores [true] and fails. *)
Definition extract_bool (old : bool) (iss : istringstream) : bool * istringstream :=
  match sentry iss with
  | None => (old, sentry_failed iss)
  | Some r =>
      let '(l, ok, rest) := num_get_long r in
      if l =? 0 then (false, mk_iss rest (negb ok))
      else if l =? 1 then (true, mk_iss rest (negb ok))
      else (true, mk_iss rest true)
  end.

(** [iss >> d] for a [double]. *)
Definition extract_double `{Platform double} (old : double) (iss : istringstream)
  : double * istringstream :=
  match sentry iss with
  | None => (old, sentry_failed iss)
  | Some r => let '(v, ok, rest) := num_get_double r in (v, mk_iss rest (negb ok))
  end.

(** The characters up to the first line feed, which is consumed. *)
Fixpoint read_line (s : string) : string * string :=
  match s with
  | EmptyString => (EmptyString, EmptyString)
  | String c r =>
      if Ascii.eqb c LF then (EmptyString, r)
      else let '(l, rest) := read_line r in (String c l, rest)
  end.

(** [std::getline(iss, str)]: an unformatted input function, so no white
    space is skipped; on a stream that is not good [str] is left alone. *)
Definition getline (old : string) (iss : istringstream) : string * istringstream :=
  if failbit iss then (old, iss)
  else match buf iss with
       | EmptyString => (old, mk_iss EmptyString true)
       | text => let '(l, rest) := read_line text in (l, mk_iss rest false)
       end.

End IStream.

(* ===================================================================== *)
(** ** [utils/types]: health state and feedback messages *)
(* ===================================================================== *)

Module Types.

Inductive HealthStatus := Starting | Healthy | Degraded | Unhealthy.

(** [static_cast<int>(status)], the form the log lines print. *)
Definition status_code (s : HealthStatus) : Z :=
  match s with Starting => 0 | Healthy => 1 | Degraded => 2 | Unhealthy => 3 end.

Definition HealthStatus_eqb (a b : HealthStatus) : bool :=
  status_code a =? status_code b.

(** [last_health_log] is a [steady_clock] instant, in nanoseconds. *)
Record HealthState := mk_health {
  status : HealthStatus;
  command_connected : bool;
  feedback_connected : bool;
  last_health_log : Z
}.

(** What [update_overall_status] writes to the log. *)
Inductive HealthLog :=
  | StatusChanged (old new : HealthStatus)
  | Heartbeat (st : HealthStatus) (command feedback : bool).

(** [HealthState::HealthState()] with the member initialisers of the struct. *)
Definition HealthState_new (now : Z) : HealthState :=
  mk_health Starting false false now.

Definition update_overall_status (now : Z) (h : HealthState)
  : HealthState * list HealthLog :=
  let new_status :=
    if command_connected h && feedback_connected h then Healthy
    else if command_connected h then Degraded
    else Unhealthy in
  if negb (HealthStatus_eqb new_status (status h)) then
    (mk_health new_status (command_connected h) (feedback_connected h) now,
     [StatusChanged (status h) new_status])
  else
    let elapsed := Z.quot (now - last_health_log h) 1000000000 in
    if 30 <=? elapsed then
      (mk_health (status h) (command_connected h) (feedback_connected h) now,
       [Heartbeat (status h) (command_connected h) (feedback_connected h)])
    else (h, []).

Definition update_command_connection (now : Z) (connected : bool) (h : HealthState)
  : HealthState * list HealthLog :=
  update_overall_status now
    (mk_health (status h) connected (feedback_connected h) (last_health_log h)).

Definition update_feedback_connection (now : Z) (connected : bool) (h : HealthState)
  : HealthState * list HealthLog :=
  update_overall_status now
    (mk_health (status h) (command_connected h) connected (last_health_log h)).

(** The two mutators as one alphabet, to run sequences of them. *)
Inductive HealthUpdate :=
  | mark_command (now : Z) (connected : bool)
  | mark_feedback (now : Z) (connected : bool).

Definition apply_update (h : HealthState) (u : HealthUpdate) : HealthState :=
  match u with
  | mark_command now c => fst (update_command_connection now c h)
  | mark_feedback now c => fst (update_feedback_connection now c h)
  end.

Definition run_updates (h : HealthState) (us : list HealthUpdate) : HealthState :=
  fold_left apply_update us h.

Section Feedback.
Context {double : Type}.

(** The alternatives of [FeedbackMessage]; the [type] member of each struct
    is the constant given by [type_of]. *)
Inductive FeedbackMessage :=
  | ParamSet (effect_id : Z) (symbol : string) (value : double)
  | AudioMonitor (index : Z) (value : double)
  | OutputSet (effect_id : Z) (symbol : string) (value : double)
  | MidiMapped (effect_id : Z) (symbol : string) (channel controller : Z)
  | MidiControlChange (channel control value : Z)
  | MidiProgramChange (program channel : Z)
  | Transport (rolling : bool) (bpb bpm : double)
  | PatchSet (instance : Z) (symbol : string) (value : Json double)
  | Log (level : Z) (message : string)
  | CpuLoad (load max_load : double) (xruns : Z)
  | DataFinish
  | CcMap (raw : string)
  | UnknownFeedback (raw : string).

Definition type_of (m : FeedbackMessage) : string :=
  match m with
  | ParamSet _ _ _ => "param_set"
  | AudioMonitor _ _ => "audio_monitor"
  | OutputSet _ _ _ => "output_set"
  | MidiMapped _ _ _ _ => "midi_mapped"
  | MidiControlChange _ _ _ => "midi_control_change"
  | MidiProgramChange _ _ => "midi_program_change"
  | Transport _ _ _ => "transport"
  | PatchSet _ _ _ => "patch_set"
  | Log _ _ => "log"
  | CpuLoad _ _ _ => "cpu_load"
  | DataFinish => "data_finish"
  | CcMap _ => "cc_map"
  | UnknownFeedback _ => "unknown"
  end.

(** [to_json(const FeedbackMessage&)]. *)
Definition to_json_feedback (message : FeedbackMessage) : Json double :=
  let root := json_set "type" (JString (type_of message)) JNull in
  match message with
  | ParamSet effect_id symbol value
  | OutputSet effect_id symbol value =>
      json_set "value" (JReal value)
        (json_set "symbol" (JString symbol)
           (json_set "effect_id" (JUInt effect_id) root))
  | AudioMonitor index value =>
      json_set "value" (JReal value) (json_set "index" (JUInt index) root)
  | MidiMapped effect_id symbol channel controller =>
      json_set "controller" (JUInt controller)
        (json_set "channel" (JUInt channel)
           (json_set "symbol" (JString symbol)
              (json_set "effect_id" (JUInt effect_id) root)))
  | MidiControlChange channel control value =>
      json_set "value" (JUInt value)
        (json_set "control" (JUInt control)
           (json_set "channel" (JUInt channel) root))
  | MidiProgramChange program channel =>
      json_set "channel" (JUInt channel) (json_set "program" (JUInt program) root)
  | Transport rolling bpb bpm =>
      json_set "bpm" (JReal bpm)
        (json_set "bpb" (JReal bpb) (json_set "rolling" (JBool rolling) root))
  | PatchSet instance symbol value =>
      json_set "value" value
        (json_set "symbol" (JString symbol)
           (json_set "instance" (JUInt instance) root))
  | Log level message =>
      json_set "message" (JString message) (json_set "level" (JUInt level) root)
  | CpuLoad load max_load xruns =>
      json_set "xruns" (JUInt xruns)
        (json_set "max_load" (JReal max_load) (json_set "load" (JReal load) root))
  | DataFinish => root
  | CcMap raw => json_set "raw" (JString raw) root
  | UnknownFeedback raw => json_set "raw" (JString raw) root
  end.

Definition is_unknown (m : FeedbackMessage) : bool :=
  match m with UnknownFeedback _ => true | _ => false end.

End Feedback.
Arguments FeedbackMessage double : clear implicits.

End Types.

(* ===================================================================== *)
(** ** [utils/parser]: [parse_feedback_line] *)
(* ===================================================================== *)

Module Parser.
Import Cxx IStream Types.

Section WithPlatform.
Context {double : Type} `{!Platform double}.

(** The contents of the locals the parser declares without initialising
    them, numbered in the order of their declaration inside a branch.  An
    extraction whose sentry fails leaves such a local as it was. *)
Record Indeterminate := mk_indet {
  indet_uint32 : nat -> Z;
  indet_double : nat -> double;
  indet_bool : nat -> bool
}.

(** [if (!s.empty() && s[0] == ' ') s = s.substr(1);] *)
Definition drop_leading_space (s : string) : string :=
  match s with
  | String c r => if Ascii.eqb c SP then r else s
  | EmptyString => s
  end.

(** No stream operation of the [try] block throws; the one call that can is
    the JSON reader of the [patch_set] branch, whose exception the [catch]
    turns into [UnknownFeedback]. *)
Definition parse_feedback_line (u : Indeterminate) (line : string)
  : option (FeedbackMessage double) :=
  let iss := IStream.open line in
  let '(type, iss) := extract_string EmptyString iss in
  if String.eqb type "param_set" then
    let '(effect_id, iss) := extract_uint32 (indet_uint32 u 0) iss in
    let '(symbol, iss) := extract_string EmptyString iss in
    let '(value, iss) := extract_double (indet_double u 0) iss in
    Some (ParamSet effect_id symbol value)
  else if String.eqb type "audio_monitor" then
    let '(index, iss) := extract_uint32 (indet_uint32 u 0) iss in
    let '(value, iss) := extract_double (indet_double u 0) iss in
    Some (AudioMonitor index value)
  else if String.eqb type "output_set" then
    let '(effect_id, iss) := extract_uint32 (indet_uint32 u 0) iss in
    let '(symbol, iss) := extract_string EmptyString iss in
    let '(value, iss) := extract_double (indet_double u 0) iss in
    Some (OutputSet effect_id symbol value)
  else if String.eqb type "midi_mapped" then
    let '(effect_id, iss) := extract_uint32 (indet_uint32 u 0) iss in
    let '(symbol, iss) := extract_string EmptyString iss in
    let '(channel, iss) := extract_uint32 (indet_uint32 u 1) iss in
    let '(controller, iss) := extract_uint32 (indet_uint32 u 2) iss in
    Some (MidiMapped effect_id symbol channel controller)
  else if String.eqb type "midi_control_change" then
    let '(channel, iss) := extract_uint32 (indet_uint32 u 0) iss in
    let '(control, iss) := extract_uint32 (indet_uint32 u 1) iss in
    let '(value, iss) := extract_uint32 (indet_uint32 u 2) iss in
    Some (MidiControlChange channel control value)
  else if String.eqb type "midi_program_change" then
    let '(program, iss) := extract_uint32 (indet_uint32 u 0) iss in
    let '(channel, iss) := extract_uint32 (indet_uint32 u 1) iss in
    Some (MidiProgramChange program channel)
  else if String.eqb type "transport" then
    let '(rolling, iss) := extract_bool (indet_bool u 0) iss in
    let '(bpb, iss) := extract_double (indet_double u 0) iss in
    let '(bpm, iss) := extract_double (indet_double u 1) iss in
    Some (Transport rolling bpb bpm)
  else if String.eqb type "patch_set" then
    let '(instance, iss) := extract_uint32 (indet_uint32 u 0) iss in
    let '(symbol, iss) := extract_string EmptyString iss in
    let '(remaining, iss) := getline EmptyString iss in
    let remaining := drop_leading_space remaining in
    match Reader_parse remaining with
    | Some (_, value) => Some (PatchSet instance symbol value)
    | None => Some (UnknownFeedback line)
    end
  else if String.eqb type "log" then
    let '(level, iss) := extract_uint32 (indet_uint32 u 0) iss in
    let '(message, iss) := getline EmptyString iss in
    let message := drop_leading_space message in
    Some (Log level message)
  else if String.eqb type "cpu_load" then
    let '(load, iss) := extract_double (indet_double u 0) iss in
    let '(max_load, iss) := extract_double (indet_double u 1) iss in
    let '(xruns, iss) := extract_uint32 (indet_uint32 u 0) iss in
    Some (CpuLoad load max_load xruns)
  else if String.eqb type "data_finish" then
    Some DataFinish
  else if String.eqb type "cc_map" then
    let '(raw, iss) := getline EmptyString iss in
    let raw := drop_leading_space raw in
    Some (CcMap raw)
  else
    Some (UnknownFeedback line).

(** The keywords the chain of comparisons accepts. *)
Definition recognized_types : list string :=
  [ "param_set"; "audio_monitor"; "output_set"; "midi_mapped";
    "midi_control_change"; "midi_program_change"; "transport"; "patch_set";
    "log"; "cpu_load"; "data_finish"; "cc_map" ].

(** The first white-space delimited token of a line, as [iss >> type] reads
    it: empty when the line holds no token. *)
Definition leading_token (line : string) : string :=
  fst (extract_string EmptyString (IStream.open line)).

End WithPlatform.
Arguments Indeterminate double : clear implicits.

End Parser.

(* ===================================================================== *)
(** ** [utils/types]: plugins, instances, requests and responses *)
(* ===================================================================== *)

Module PluginTypes.

Record PluginAuthor := mk_author {
  author_name : string;
  homepage : string;
  email : string
}.

Record PluginUnits := mk_units { units_label : string; units_symbol : string }.

Record PluginPreset := mk_preset {
  preset_uri : string;
  preset_label : string;
  preset_path : string
}.

Record ValidationResult := mk_validation {
  is_valid : bool;
  error_message : string
}.

(** Unset bounds are the [-1] of the member initialisers. *)
Record PluginSearchCriteria := mk_criteria {
  category : string;
  author : string;
  min_audio_inputs : Z;
  min_audio_outputs : Z;
  max_audio_inputs : Z;
  max_audio_outputs : Z;
  requires_realtime : bool;
  has_parameter : string;
  required_features : list string
}.

(** [PluginSearchCriteria criteria;] *)
Definition default_criteria : PluginSearchCriteria :=
  mk_criteria EmptyString EmptyString (-1) (-1) (-1) (-1) false EmptyString [].

Section WithDouble.
Context {double : Type}.

Record PluginScalePoint := mk_scale_point {
  sp_value : double;
  sp_label : string
}.

Record PluginPort := mk_port {
  index : Z;
  port_name : string;
  symbol : string;
  short_name : string;
  port_comment : string;
  designation : string;
  min_value : double;
  max_value : double;
  default_value : double;
  units : PluginUnits;
  properties : list string;
  scale_points : list PluginScalePoint
}.

Record PluginPorts := mk_ports {
  audio_inputs : list PluginPort;
  audio_outputs : list PluginPort;
  control_inputs : list PluginPort;
  control_outputs : list PluginPort;
  cv_inputs : list PluginPort;
  cv_outputs : list PluginPort;
  midi_inputs : list PluginPort;
  midi_outputs : list PluginPort
}.

Record PluginInfo := mk_info {
  uri : string;
  name : string;
  brand : string;
  label : string;
  comment : string;
  build_environment : string;
  version : string;
  license : string;
  info_category : list string;
  info_author : PluginAuthor;
  ports : PluginPorts;
  presets : list PluginPreset
}.

(** [host_instance] is the optional member [process_load_plugin] assigns and
    [to_json] reads; [created_at] is a [system_clock] instant. *)
Record PluginInstance := mk_instance {
  inst_uri : string;
  instance_id : string;
  inst_name : string;
  inst_brand : string;
  inst_version : string;
  parameters : gmap string double;
  inst_ports : PluginPorts;
  x : double;
  y : double;
  enabled : bool;
  preset : string;
  created_at : Z;
  host_instance : option Z
}.

(** [instance.parameters[parameter] = value] *)
Definition set_parameter_value (parameter : string) (value : double)
  (instance : PluginInstance) : PluginInstance :=
  mk_instance (inst_uri instance) (instance_id instance) (inst_name instance)
    (inst_brand instance) (inst_version instance)
    (<[parameter := value]> (parameters instance))
    (inst_ports instance) (x instance) (y instance) (enabled instance)
    (preset instance) (created_at instance) (host_instance instance).

Record LoadPluginRequest := mk_load {
  load_uri : string;
  load_x : double;
  load_y : double;
  load_parameters : gmap string double
}.

Record SetParameterRequest := mk_set_parameter {
  sp_instance_id : string;
  sp_parameter : string;
  sp_requested : double
}.

Record SearchPluginsRequest := mk_search {
  query : string;
  criteria : option PluginSearchCriteria
}.

(** The alternatives of [PluginResponse] the operations below produce. *)
Inductive PluginResponse :=
  | LoadPluginResponse (instance_id : string) (plugin : PluginInstance)
  | UnloadPluginResponse (status : string) (instance_id : string)
  | SetParameterResponse (status : string) (value : double)
  | ListInstancesResponse (instances : gmap string PluginInstance)
  | ClearAllResponse (status : string)
  | SearchPluginsResponse (plugins : list PluginInfo)
  | RescanPluginsResponse (status : string) (plugins_added plugins_removed : Z).

End WithDouble.
Arguments PluginScalePoint double : clear implicits.
Arguments PluginPort double : clear implicits.
Arguments PluginPorts double : clear implicits.
Arguments PluginInfo double : clear implicits.
Arguments PluginInstance double : clear implicits.
Arguments LoadPluginRequest double : clear implicits.
Arguments SetParameterRequest double : clear implicits.
Arguments PluginResponse double : clear implicits.

End PluginTypes.

(* ===================================================================== *)
(** ** [plugins/plugin_validator] *)
(* ===================================================================== *)

Module PluginValidator.
Import Cxx PluginTypes.

Section WithPlatform.
Context {double : Type} `{!Platform double}.

(** The list of known incompatible plugins of [isKnownIncompatible]. *)
Definition incompatible_plugins : list string := [].

Definition isKnownIncompatible (uri : string) : bool :=
  existsb (String.eqb uri) incompatible_plugins.

(** Feature checks are stubs in the source: they return [true]. *)
Definition checkLv2Features (plugin : PluginInfo double) : bool := true.
Definition supportsRealTime (plugin : PluginInfo double) : bool := true.

Definition max_audio_ports : Z := 8.

(** Each check returns its verdict and what it appends to
    [validation_errors_]. *)
Definition checkAudioPorts (plugin : PluginInfo double) : bool * list string :=
  let n_in := Z.of_nat (length (audio_inputs (ports plugin))) in
  let n_out := Z.of_nat (length (audio_outputs (ports plugin))) in
  let e1 := if max_audio_ports <? n_in
            then ["Too many audio inputs: " +:+ to_string n_in +:+
                  " (max: " +:+ to_string max_audio_ports +:+ ")"] else [] in
  let e2 := if max_audio_ports <? n_out
            then ["Too many audio outputs: " +:+ to_string n_out +:+
                  " (max: " +:+ to_string max_audio_ports +:+ ")"] else [] in
  let e3 := if (n_in =? 0) && (n_out =? 0)
            then ["Plugin has no audio ports"] else [] in
  let errors := e1 ++ e2 ++ e3 in
  (match errors with [] => true | _ => false end, errors).

Definition range_errors (params : list (PluginPort double)) : list string :=
  flat_map (fun param =>
    if double_gt (min_value param) (max_value param)
    then ["Invalid parameter range for '" +:+ port_name param +:+ "': min > max"]
    else []) params.

Definition checkControlPorts (plugin : PluginInfo double) : bool * list string :=
  let errors := range_errors (control_inputs (ports plugin)) ++
                range_errors (control_outputs (ports plugin)) in
  (match errors with [] => true | _ => false end, errors).

Definition validatePlugin (plugin : PluginInfo double) : ValidationResult :=
  if isKnownIncompatible (uri plugin) then
    mk_validation false "Plugin is known to be incompatible with mod-host"
  else
    let features_ok := checkLv2Features plugin in
    let '(audio_ok, audio_errors) := checkAudioPorts plugin in
    let '(control_ok, control_errors) := checkControlPorts plugin in
    let validation_errors := audio_errors ++ control_errors in
    if features_ok && audio_ok && control_ok then mk_validation true EmptyString
    else mk_validation false
           ("Multiple validation errors: " +:+
            to_string (Z.of_nat (length validation_errors)) +:+ " issues found").

End WithPlatform.
End PluginValidator.

(* ===================================================================== *)
(** ** [plugins/plugin_search_engine] *)
(* ===================================================================== *)

Module PluginSearchEngine.
Import Cxx PluginTypes.

Section WithDouble.
Context {double : Type}.

(** [hay.find(needle) != std::string::npos] *)
Definition contains (hay needle : string) : bool :=
  bool_decide (is_Some (find needle hay)).

Definition matchesQuery (plugin : PluginInfo double) (query : string) : bool :=
  let searchable_text :=
    toLower (name plugin +:+ " " +:+ author_name (info_author plugin) +:+ " " +:+
             comment plugin +:+ " " +:+ uri plugin) in
  contains searchable_text query.

Definition matchesCriteria (plugin : PluginInfo double)
  (criteria : PluginSearchCriteria) : bool :=
  let n_in := Z.of_nat (length (audio_inputs (ports plugin))) in
  let n_out := Z.of_nat (length (audio_outputs (ports plugin))) in
  if negb (empty (category criteria)) &&
     negb (existsb (fun cat => contains (toLower cat) (toLower (category criteria)))
             (info_category plugin))
  then false
  else if negb (empty (author criteria)) &&
          negb (contains (toLower (author_name (info_author plugin)))
                  (toLower (author criteria)))
  then false
  else if (0 <? min_audio_inputs criteria) && (n_in <? min_audio_inputs criteria)
  then false
  else if (0 <? min_audio_outputs criteria) && (n_out <? min_audio_outputs criteria)
  then false
  else if (0 <=? max_audio_inputs criteria) && (max_audio_inputs criteria <? n_in)
  then false
  else if (0 <=? max_audio_outputs criteria) && (max_audio_outputs criteria <? n_out)
  then false
  else true.

(** The private helper the criteria filter does not call. *)
Definition hasParameter (plugin : PluginInfo double) (param_name : string) : bool :=
  let lower_param := toLower param_name in
  let hit param :=
    contains (toLower (port_name param)) lower_param ||
    contains (toLower (symbol param)) lower_param in
  existsb hit (control_inputs (ports plugin)) ||
  existsb hit (control_outputs (ports plugin)).

(** The loops run over the catalog in the iteration order of the map. *)
Definition filterPlugins (criteria : PluginSearchCriteria)
  (plugins : gmap string (PluginInfo double)) : list (PluginInfo double) :=
  List.filter (fun plugin => matchesCriteria plugin criteria)
    (map snd (map_to_list plugins)).

Definition searchByText (query : string)
  (plugins : gmap string (PluginInfo double)) : list (PluginInfo double) :=
  if empty query then map snd (map_to_list plugins)
  else
    let lower_query := toLower query in
    List.filter (fun plugin => matchesQuery plugin lower_query)
      (map snd (map_to_list plugins)).

End WithDouble.
End PluginSearchEngine.

(* ===================================================================== *)
(** ** The process: members, sockets, clocks, and C++ exceptions *)
(* ===================================================================== *)

Module Runtime.
Import Cxx Types PluginTypes.

(** How a statement ends: normally, or with a [std::exception] carrying
    [what()]. *)
Inductive outcome (A : Type) : Type :=
  | Return (a : A)
  | Throw (what : string).
Arguments Return {A} a.
Arguments Throw {A} what.

Section WithDouble.
Context {double : Type}.

(** What one fresh TCP connection to the engine command port runs into, in
    the order of the system calls of [send_to_modhost]. *)
Inductive Exchange :=
  | socket_fails
  | address_fails
  | connect_fails
  | send_fails
  | recv_data (bytes : string)   (* what [recv] returned, at most 4095 bytes *)
  | recv_closed
  | recv_error.

(** The plugin discovery adapter as the registry sees it: each call returns
    or throws. *)
Record Scanner := mk_scanner {
  scan_plugins : outcome (gmap string (PluginInfo double));
  get_plugin_info : string -> outcome (option (PluginInfo double))
}.

Record Bridge := mk_bridge {
  (** members of [PluginManager]; the smart pointers are kept as "is set" *)
  available_plugins_ : gmap string (PluginInfo double);
  instances_ : gmap string (PluginInstance double);
  plugin_scanner_ : option Scanner;
  plugin_validator_ : bool;
  search_engine_ : bool;
  pub_socket_ : bool;
  (** [static int next_instance] of [get_next_numeric_instance] *)
  next_instance : Z;
  (** the shared [HealthState] and what it logged *)
  health_state_ : HealthState;
  health_log : list HealthLog;
  (** [line_buffer] of the feedback reader *)
  line_buffer : string;
  (** the engine command port: what the coming connections meet, and the
      bytes written so far, one entry per connection *)
  engine : list Exchange;
  command_port : list string;
  (** documents sent on the PUB socket and on the REP socket, oldest first;
      each goes out as the text [writeString] makes of it *)
  pub_wire : list (Json double);
  rep_wire : list (Json double);
  (** [steady_clock] in nanoseconds, [system_clock] in milliseconds *)
  steady_clock : Z;
  system_clock : Z;
  (** the coming draws of [dis(gen)], each in 0..15 *)
  random_device : list Z
}.

Definition M (A : Type) : Type := Bridge -> outcome A * Bridge.

Definition ret {A} (a : A) : M A := fun st => (Return a, st).

Definition bind {A B} (m : M A) (k : A -> M B) : M B :=
  fun st =>
    match m st with
    | (Return a, st') => k a st'
    | (Throw what, st') => (Throw what, st')
    end.

Definition throw {A} (what : string) : M A := fun st => (Throw what, st).

(** [try { m } catch (const std::exception& e) { handler(e.what()) }] *)
Definition try_catch {A} (m : M A) (handler : string -> M A) : M A :=
  fun st =>
    match m st with
    | (Return a, st') => (Return a, st')
    | (Throw what, st') => handler what st'
    end.

Definition get : M Bridge := fun st => (Return st, st).
Definition modify (f : Bridge -> Bridge) : M unit := fun st => (Return tt, f st).

(** Lift a call that returns or throws without touching the process. *)
Definition lift {A} (o : outcome A) : M A := fun st => (o, st).

#[export] Instance M_ret : MRet M := fun A a => ret a.
#[export] Instance M_bind : MBind M := fun A B k m => bind m k.

Definition set_available_plugins (v : gmap string (PluginInfo double)) (st : Bridge) :=
  mk_bridge v (instances_ st) (plugin_scanner_ st) (plugin_validator_ st)
    (search_engine_ st) (pub_socket_ st) (next_instance st) (health_state_ st)
    (health_log st) (line_buffer st) (engine st) (command_port st) (pub_wire st)
    (rep_wire st) (steady_clock st) (system_clock st) (random_device st).

Definition set_instances (v : gmap string (PluginInstance double)) (st : Bridge) :=
  mk_bridge (available_plugins_ st) v (plugin_scanner_ st) (plugin_validator_ st)
    (search_engine_ st) (pub_socket_ st) (next_instance st) (health_state_ st)
    (health_log st) (line_buffer st) (engine st) (command_port st) (pub_wire st)
    (rep_wire st) (steady_clock st) (system_clock st) (random_device st).

Definition set_next_instance (v : Z) (st : Bridge) :=
  mk_bridge (available_plugins_ st) (instances_ st) (plugin_scanner_ st)
    (plugin_validator_ st) (search_engine_ st) (pub_socket_ st) v (health_state_ st)
    (health_log st) (line_buffer st) (engine st) (command_port st) (pub_wire st)
    (rep_wire st) (steady_clock st) (system_clock st) (random_device st).

Definition set_health (v : HealthState * list HealthLog) (st : Bridge) :=
  mk_bridge (available_plugins_ st) (instances_ st) (plugin_scanner_ st)
    (plugin_validator_ st) (search_engine_ st) (pub_socket_ st) (next_instance st)
    (fst v) (health_log st ++ snd v) (line_buffer st) (engine st) (command_port st)
    (pub_wire st) (rep_wire st) (steady_clock st) (system_clock st) (random_device st).

Definition set_line_buffer (v : string) (st : Bridge) :=
  mk_bridge (available_plugins_ st) (instances_ st) (plugin_scanner_ st)
    (plugin_validator_ st) (search_engine_ st) (pub_socket_ st) (next_instance st)
    (health_state_ st) (health_log st) v (engine st) (command_port st) (pub_wire st)
    (rep_wire st) (steady_clock st) (system_clock st) (random_device st).

Definition set_engine (v : list Exchange) (st : Bridge) :=
  mk_bridge (available_plugins_ st) (instances_ st) (plugin_scanner_ st)
    (plugin_validator_ st) (search_engine_ st) (pub_socket_ st) (next_instance st)
    (health_state_ st) (health_log st) (line_buffer st) v (command_port st)
    (pub_wire st) (rep_wire st) (steady_clock st) (system_clock st) (random_device st).

Definition set_command_port (v : list string) (st : Bridge) :=
  mk_bridge (available_plugins_ st) (instances_ st) (plugin_scanner_ st)
    (plugin_validator_ st) (search_engine_ st) (pub_socket_ st) (next_instance st)
    (health_state_ st) (health_log st) (line_buffer st) (engine st) v
    (pub_wire st) (rep_wire st) (steady_clock st) (system_clock st) (random_device st).

Definition set_pub_wire (v : list (Json double)) (st : Bridge) :=
  mk_bridge (available_plugins_ st) (instances_ st) (plugin_scanner_ st)
    (plugin_validator_ st) (search_engine_ st) (pub_socket_ st) (next_instance st)
    (health_state_ st) (health_log st) (line_buffer st) (engine st) (command_port st)
    v (rep_wire st) (steady_clock st) (system_clock st) (random_device st).

Definition set_rep_wire (v : list (Json double)) (st : Bridge) :=
  mk_bridge (available_plugins_ st) (instances_ st) (plugin_scanner_ st)
    (plugin_validator_ st) (search_engine_ st) (pub_socket_ st) (next_instance st)
    (health_state_ st) (health_log st) (line_buffer st) (engine st) (command_port st)
    (pub_wire st) v (steady_clock st) (system_clock st) (random_device st).

Definition set_random_device (v : list Z) (st : Bridge) :=
  mk_bridge (available_plugins_ st) (instances_ st) (plugin_scanner_ st)
    (plugin_validator_ st) (search_engine_ st) (pub_socket_ st) (next_instance st)
    (health_state_ st) (health_log st) (line_buffer st) (engine st) (command_port st)
    (pub_wire st) (rep_wire st) (steady_clock st) (system_clock st) v.

(** [health_state_->update_command_connection(connected)] *)
Definition mark_command_connection (connected : bool) : M unit :=
  modify (fun st =>
    set_health (update_command_connection (steady_clock st) connected (health_state_ st)) st).

(** [health_state_->update_feedback_connection(connected)] *)
Definition mark_feedback_connection (connected : bool) : M unit :=
  modify (fun st =>
    set_health (update_feedback_connection (steady_clock st) connected (health_state_ st)) st).

(** [s.c_str()]: the characters and the terminator behind them. *)
Definition c_str (s : string) : string := s +:+ String NUL EmptyString.

(** The first [len] bytes at [data]: what [send(sock, data, len, 0)] puts on
    the connection. *)
Fixpoint bytes_at (data : string) (len : nat) : string :=
  match len, data with
  | S n, String c r => String c (bytes_at r n)
  | _, _ => EmptyString
  end.

(** [response.back()] and [response.pop_back()] *)
Fixpoint back (s : string) : option ascii :=
  match s with
  | EmptyString => None
  | String c EmptyString => Some c
  | String _ r => back r
  end.

Fixpoint pop_back (s : string) : string :=
  match s with
  | EmptyString => EmptyString
  | String _ EmptyString => EmptyString
  | String c r => String c (pop_back r)
  end.

(** The string made of the bytes one [recv] returned:
    [buffer[bytes_read] = 0; std::string response(buffer);] and then the
    removal of a trailing NUL. *)
Definition read_response (bytes : string) : string :=
  let response := c_str_chars (c_str bytes) in
  if negb (empty response) && bool_decide (back response = Some NUL)
  then pop_back response
  else response.

(** The body shared by [CommandService::send_to_modhost] and
    [PluginManager::send_to_modhost], which differ only in how the host name
    is resolved ([inet_pton] alone, or [getaddrinfo] first): open a socket,
    connect, send the payload, read once, close. *)
Definition send_to_modhost (command : string) : M (option string) :=
  bind get (fun st =>
  let '(exchange, coming) :=
    match engine st with
    | [] => (connect_fails, [])
    | e :: es => (e, es)
    end in
  bind (modify (set_engine coming)) (fun _ =>
  match exchange with
  | socket_fails => ret None
  | address_fails => ret None
  | connect_fails => bind (mark_command_connection false) (fun _ => ret None)
  | _ =>
      bind (mark_command_connection true) (fun _ =>
      (* std::string payload = command + "\0"; *)
      let payload := append_c_str command (literal (String NUL EmptyString)) in
      match exchange with
      | send_fails => ret None
      | _ =>
          bind (modify (fun st =>
                  set_command_port
                    (command_port st ++
                     [bytes_at (c_str payload) (String.length payload)]) st))
            (fun _ =>
          match exchange with
          | recv_data bytes =>
              (* bytes_read > 0, else the peer has closed *)
              if empty bytes then ret None else ret (Some (read_response bytes))
          | _ => ret None
          end)
      end)
  end)).

End WithDouble.
Arguments Exchange : clear implicits.
Arguments Scanner double : clear implicits.
Arguments Bridge double : clear implicits.
Arguments M double A : clear implicits.

End Runtime.

(* ===================================================================== *)
(** ** [plugins/plugin_manager] *)
(* ===================================================================== *)

Module PluginManager.
Import Cxx Types PluginTypes Runtime.

Section WithPlatform.
Context {double : Type} `{!Platform double}.

Local Abbreviation M := (Runtime.M double).

(** [publish_event]: nothing without a PUB socket, else one envelope with
    type, timestamp and data. *)
Definition publish_event (event_type : string) (payload : Json double) : M unit :=
  st ← get;
  if negb (pub_socket_ st) then ret tt
  else
    let event :=
      json_set "data" payload
        (json_set "timestamp" (JInt (system_clock st))
           (json_set "type" (JString event_type) JNull)) in
    modify (set_pub_wire (pub_wire st ++ [event])).

Definition hex_digit (n : Z) : ascii :=
  if n <? 10 then digit_char n else ascii_of_nat (87 + Z.to_nat n).

(** One [dis(gen)]. *)
Definition draw : M Z :=
  st ← get;
  match random_device st with
  | [] => ret 0
  | d :: ds => modify (set_random_device ds) ;; ret d
  end.

Fixpoint draw_hex (n : nat) : M string :=
  match n with
  | O => ret EmptyString
  | S n' => d ← draw; rest ← draw_hex n'; ret (String (hex_digit d) rest)
  end.

(** "plugin_" + the number of instances + "_" + eight random hex digits. *)
Definition generate_instance_id : M string :=
  st ← get;
  suffix ← draw_hex 8;
  ret ("plugin_" +:+ to_string (Z.of_nat (size (instances_ st))) +:+ "_" +:+ suffix).

(** [return next_instance++;] *)
Definition get_next_numeric_instance : M Z :=
  st ← get;
  modify (set_next_instance (next_instance st + 1)) ;;
  ret (next_instance st).

(** The inner [try] of [process_load_plugin]: drop everything up to and
    including the first "resp ", read an [int], refuse a negative one; any
    exception leaves as "Failed to parse mod-host response". *)
Definition parse_returned_instance (result : string) : outcome Z :=
  let resp :=
    match find "resp " result with
    | Some pos => substr (pos + 5) result
    | None => result
    end in
  let attempt :=
    match stoi resp with
    | stoi_value returned_instance =>
        if returned_instance <? 0
        then Throw ("mod-host returned error code: " +:+ to_string returned_instance)
        else Return returned_instance
    | invalid_argument => Throw "stoi"
    | out_of_range => Throw "stoi"
    end in
  match attempt with
  | Return n => Return n
  | Throw _ => Throw "Failed to parse mod-host response"
  end.

(** The loop that sends the initial parameters; the replies are dropped. *)
Fixpoint send_initial_parameters (instance_id : string)
  (params : list (string * double)) : M unit :=
  match params with
  | [] => ret tt
  | (param, value) :: rest =>
      send_to_modhost ("param_set " +:+ instance_id +:+ " " +:+ param +:+ " " +:+
                            double_to_string value) ;;
      send_initial_parameters instance_id rest
  end.

Definition process_load_plugin (req : LoadPluginRequest double)
  : M (PluginResponse double) :=
  st ← get;
  match available_plugins_ st !! load_uri req with
  | None => throw ("Plugin not found: " +:+ load_uri req)
  | Some plugin_info =>
      instance_id ← generate_instance_id;
      numeric_instance ← get_next_numeric_instance;
      let command := "add " +:+ load_uri req +:+ " " +:+ to_string numeric_instance in
      result ← send_to_modhost command;
      match result with
      | None => throw "Failed to add plugin to mod-host"
      | Some reply =>
          returned_instance ← lift (parse_returned_instance reply);
          st ← get;
          let instance :=
            mk_instance (load_uri req) instance_id (name plugin_info)
              (brand plugin_info) (version plugin_info) (load_parameters req)
              (ports plugin_info) (load_x req) (load_y req) true EmptyString
              (system_clock st) (Some returned_instance) in
          send_initial_parameters instance_id (map_to_list (load_parameters req)) ;;
          modify (fun st => set_instances (<[instance_id := instance]> (instances_ st)) st) ;;
          publish_event "plugin_loaded"
                 (json_set "name" (JString (inst_name instance))
                    (json_set "uri" (JString (load_uri req))
                       (json_set "instance_id" (JString instance_id) JNull))) ;;
          ret (LoadPluginResponse instance_id instance)
      end
  end.

Definition process_set_parameter (req : SetParameterRequest double)
  : M (PluginResponse double) :=
  st ← get;
  match instances_ st !! sp_instance_id req with
  | None => throw ("Plugin instance not found: " +:+ sp_instance_id req)
  | Some _ =>
      let command := "param_set " +:+ sp_instance_id req +:+ " " +:+ sp_parameter req +:+
                     " " +:+ double_to_string (sp_requested req) in
      result ← send_to_modhost command;
      match result with
      | None => throw "Failed to set parameter in mod-host"
      | Some _ =>
          modify (fun st =>
            set_instances
              (alter (set_parameter_value (sp_parameter req) (sp_requested req))
                 (sp_instance_id req) (instances_ st)) st) ;;
          publish_event "parameter_changed"
                 (json_set "value" (JReal (sp_requested req))
                    (json_set "parameter" (JString (sp_parameter req))
                       (json_set "instance_id" (JString (sp_instance_id req)) JNull))) ;;
          ret (SetParameterResponse "ok" (sp_requested req))
      end
  end.

Definition process_list_instances : M (PluginResponse double) :=
  st ← get; ret (ListInstancesResponse (instances_ st)).

Definition process_search_plugins (req : SearchPluginsRequest)
  : M (PluginResponse double) :=
  st ← get;
  if negb (search_engine_ st) then throw "Plugin search engine not initialized"
  else
    let results :=
      match criteria req with
      | Some c => PluginSearchEngine.filterPlugins c (available_plugins_ st)
      | None =>
          if negb (empty (query req))
          then PluginSearchEngine.searchByText (query req) (available_plugins_ st)
          else map snd (map_to_list (available_plugins_ st))
      end in
    ret (SearchPluginsResponse results).

(** First loop of [rescan_plugins]: detailed info for every scanned URI. *)
Fixpoint fetch_detailed (scanner : Scanner double) (uris : list string)
  (new_plugins : gmap string (PluginInfo double))
  : outcome (gmap string (PluginInfo double)) :=
  match uris with
  | [] => Return new_plugins
  | uri :: rest =>
      match get_plugin_info scanner uri with
      | Throw what => Throw what
      | Return (Some detailed_plugin) =>
          fetch_detailed scanner rest (<[uri := detailed_plugin]> new_plugins)
      | Return None => fetch_detailed scanner rest new_plugins
      end
  end.

(** Second loop: keep what the validator accepts, everything without one. *)
Definition validate_all (has_validator : bool)
  (new_plugins : gmap string (PluginInfo double))
  : gmap string (PluginInfo double) :=
  if has_validator
  then filter (fun kv => is_valid (PluginValidator.validatePlugin kv.2) = true) new_plugins
  else new_plugins.

(** The [try] block of [rescan_plugins] up to the assignment of the
    catalog. *)
Definition rescan_pipeline (scanner : Scanner double) (has_validator : bool)
  : outcome (gmap string (PluginInfo double)) :=
  match scan_plugins scanner with
  | Throw what => Throw what
  | Return mini_plugins =>
      match fetch_detailed scanner (map fst (map_to_list mini_plugins)) ∅ with
      | Throw what => Throw what
      | Return new_plugins => Return (validate_all has_validator new_plugins)
      end
  end.

Definition rescan_plugins : M unit :=
  st ← get;
  match plugin_scanner_ st with
  | None => ret tt
  | Some scanner =>
      try_catch
        (validated_plugins ← lift (rescan_pipeline scanner (plugin_validator_ st));
         modify (set_available_plugins validated_plugins) ;;
         publish_event "plugins_rescanned"
           (json_set "plugin_count" (JInt (Z.of_nat (size validated_plugins))) JNull))
        (fun _ => ret tt)
  end.

Definition process_rescan_plugins : M (PluginResponse double) :=
  st ← get;
  let old_count := Z.of_nat (size (available_plugins_ st)) in
  rescan_plugins ;;
  st ← get;
  let new_count := Z.of_nat (size (available_plugins_ st)) in
  let added := new_count - old_count in
  let removed := old_count - new_count in
  ret (RescanPluginsResponse "ok" added removed).

End WithPlatform.
End PluginManager.

(* ===================================================================== *)
(** ** [core/feedback_reader] *)
(* ===================================================================== *)

Module FeedbackReader.
Import Cxx Types Runtime Parser.

Section WithPlatform.
Context {double : Type} `{!Platform double}.

Local Abbreviation M := (Runtime.M double).

(** One complete record: parse it, serialise the message, send it on the
    PUB socket.  Nothing else of the process is within reach of the reader:
    its members are the socket, the host and port, and the health state. *)
Definition publish_record (u : Indeterminate double) (line : string) : M unit :=
  match parse_feedback_line u line with
  | Some message =>
      modify (fun st => set_pub_wire (pub_wire st ++ [to_json_feedback message]) st)
  | None => ret tt
  end.

(** The [for] loop over the bytes one [recv] returned. *)
Fixpoint process_received (u : Indeterminate double) (bytes : string) : M unit :=
  match bytes with
  | EmptyString => ret tt
  | String c rest =>
      (if Ascii.eqb c NUL then
         st ← get;
         if negb (empty (line_buffer st)) then
           publish_record u (line_buffer st) ;;
           modify (set_line_buffer EmptyString)
         else ret tt
       else
         modify (fun st => set_line_buffer (line_buffer st +:+ String c EmptyString) st)) ;;
      process_received u rest
  end.

Fixpoint process_chunks (u : Indeterminate double) (chunks : list string) : M unit :=
  match chunks with
  | [] => ret tt
  | bytes :: rest => process_received u bytes ;; process_chunks u rest
  end.

(** One pass of [reader_loop] with a successful connect: the health flag
    goes up, the chunks the engine sends are processed with a fresh line
    buffer, and when the peer closes the flag goes down. *)
Definition connection (u : Indeterminate double) (chunks : list string) : M unit :=
  mark_feedback_connection true ;;
  modify (set_line_buffer EmptyString) ;;
  process_chunks u chunks ;;
  mark_feedback_connection false.

End WithPlatform.
End FeedbackReader.

(* ===================================================================== *)
(** ** [command_service] *)
(* ===================================================================== *)

Module CommandService.
Import Cxx Types Runtime.

Inductive CommandRequest :=
  | RawCommand (command : string)
  | StructuredCommand (name : string) (args : list string).

Inductive CommandResponse :=
  | CommandSuccess (status raw : string)
  | CommandError (error : string).

Section WithPlatform.
Context {double : Type} `{!Platform double}.

Local Abbreviation M := (Runtime.M double).

(** [to_json(const CommandResponse&)] *)
Definition to_json_command (response : CommandResponse) : Json double :=
  match response with
  | CommandSuccess status raw =>
      json_set "raw" (JString raw) (json_set "status" (JString status) JNull)
  | CommandError error => json_set "error" (JString error) JNull
  end.

Definition command_text (request : CommandRequest) : string :=
  match request with
  | RawCommand command => command
  | StructuredCommand name args =>
      fold_left (fun command arg => command +:+ " " +:+ arg) args name
  end.

Definition process_command (request : CommandRequest) : M (Json double) :=
  let command := command_text request in
  result ← send_to_modhost command;
  match result with
  | Some body => ret (to_json_command (CommandSuccess body body))
  | None => ret (to_json_command (CommandError "Failed to communicate with mod-host"))
  end.

(** jsoncpp calls that may throw [Json::LogicError]. *)
Definition isMember_ (key : string) (v : Json double) : M bool :=
  match isMember key v with
  | Some b => ret b
  | None => throw "in Json::Value::find: requires objectValue or nullValue"
  end.

Definition asString_ (v : Json double) : M string :=
  match asString v with
  | Some s => ret s
  | None => throw "Type is not convertible to string"
  end.

Fixpoint collect_args (items : list (Json double)) : M (list string) :=
  match items with
  | [] => ret []
  | arg :: rest => s ← asString_ arg; more ← collect_args rest; ret (s :: more)
  end.

(** The plugin path is the caller of the registry; it is taken as given. *)
Variable process_plugin_command : Json double -> M (Json double).

(** The inner [try] block of [service_loop] from the declaration of
    [json_resp] to the value handed to the writer.  The plugin branch
    assigns [json_resp]; the legacy branch declares a [json_resp] of its own
    inside the [else] block and initialises that one. *)
Definition route_request (json_req : Json double) : M (Json double) :=
  let json_resp : Json double := JNull in
  has_action ← isMember_ "action" json_req;
  is_plugin ←
    (if (has_action : bool)
     then action ← asString_ (json_get "action" json_req);
          ret (String.eqb action "plugin")
     else ret false);
  if (is_plugin : bool) then
    json_resp ← process_plugin_command json_req;
    ret json_resp
  else
    has_command ← isMember_ "command" json_req;
    cmd_req ←
      (if (has_command : bool)
       then command ← asString_ (json_get "command" json_req);
            ret (RawCommand command)
       else
         has_name ← isMember_ "name" json_req;
         has_args ← (if (has_name : bool) then isMember_ "args" json_req else ret false);
         if has_name && has_args then
           args ← collect_args (json_elements (json_get "args" json_req));
           name ← asString_ (json_get "name" json_req);
           ret (StructuredCommand name args)
         else throw "Invalid command format");
    json_resp_of_else_block ← process_command cmd_req;
    ret json_resp.

(** [rep_socket_->send] of the text of a document. *)
Definition rep_send (document : Json double) : M unit :=
  modify (fun st => set_rep_wire (rep_wire st ++ [document]) st).

(** The inner [try] block after the request has been parsed: route it and
    send the response. *)
Definition answer_request (json_req : Json double) : M unit :=
  json_resp ← route_request json_req;
  rep_send json_resp.

(** One received message of [service_loop]. *)
Definition service_loop_message (json_str : string) : M unit :=
  try_catch
    (json_req ←
       (match Reader_parse json_str with
        | Some (true, root) => ret root
        | Some (false, _) => throw "Invalid JSON format"
        | None => throw "Exceeded stackLimit in readValue()"
        end);
     answer_request json_req)
    (fun _ => rep_send (json_set "error" (JString "Invalid request format") JNull)).

End WithPlatform.
End CommandService.

(* ===================================================================== *)
(** ** A small platform to run the model on concrete inputs *)
(* ===================================================================== *)

(** Numbers are decimal fixed point with six fractional digits, held as the
    count of millionths; the JSON reader knows the three literals. *)
Module Decimal6.
Import Cxx.

Definition double : Type := Z.

(** Up to six fractional digits count, further ones are read and dropped. *)
Fixpoint scan_fraction (s : string) (acc scale : Z) : Z * string :=
  match s with
  | EmptyString => (acc, s)
  | String c r =>
      if isdigit c then scan_fraction r (acc + digit_value c * scale) (scale / 10)
      else (acc, s)
  end.

Definition num_get (r : string) : double * bool * string :=
  let '(neg, r1) := read_sign r in
  let '(whole, seen, r2) := scan_digits r1 0 false in
  let '(frac, r3) :=
    match r2 with
    | String "." r' => scan_fraction r' 0 100000
    | _ => (0, r2)
    end in
  if negb seen then (0, false, r3)
  else
    let v := whole * 1000000 + frac in
    ((if neg then - v else v), true, r3).

(** Six digits, with leading zeros. *)
Definition fraction_digits (f : Z) : string :=
  String (digit_char (f / 100000 mod 10))
    (String (digit_char (f / 10000 mod 10))
       (String (digit_char (f / 1000 mod 10))
          (String (digit_char (f / 100 mod 10))
             (String (digit_char (f / 10 mod 10))
                (String (digit_char (f mod 10)) EmptyString))))).

Definition show (d : double) : string :=
  let a := Z.abs d in
  (if d <? 0 then "-" else EmptyString) +:+
  decimal (a / 1000000) +:+ "." +:+ fraction_digits (a mod 1000000).

Definition read_json (text : string) : option (bool * Json double) :=
  if String.eqb text "null" then Some (true, JNull)
  else if String.eqb text "true" then Some (true, JBool true)
  else if String.eqb text "false" then Some (true, JBool false)
  else Some (false, JNull).

Definition quote : ascii := ascii_of_nat 34.

Definition write_json (v : Json double) : string :=
  match v with
  | JNull => "null"
  | JBool true => "true"
  | JBool false => "false"
  | JInt n | JUInt n => to_string n
  | JReal d => show d
  | JString s => String quote (s +:+ String quote EmptyString)
  | JArray _ => "[...]"
  | JObject _ => "{...}"
  end.

#[global] Instance platform : Platform double := {|
  double_zero := 0;
  double_gt := Z.gtb;
  double_to_string := show;
  num_get_double := num_get;
  Reader_parse := read_json;
  writeString := write_json;
  valueToString := show
|}.

End Decimal6.

(* ===================================================================== *)
(** ** The specification's side of the comparisons *)
(* ===================================================================== *)

Module Spec.
Import Cxx Types PluginTypes Runtime.

(** The status derivation table of the health state. *)
Definition status_table (command feedback : bool) : HealthStatus :=
  match command, feedback with
  | false, _ => Unhealthy
  | true, false => Degraded
  | true, true => Healthy
  end.

(** [needle] occurs in [hay]. *)
Definition substring (needle hay : string) : Prop :=
  exists pre post, hay = pre +:+ needle +:+ post.

(** Case-insensitive substring. *)
Definition ci_substring (needle hay : string) : Prop :=
  substring (toLower needle) (toLower hay).

Fixpoint no_space (s : string) : bool :=
  match s with
  | EmptyString => true
  | String c r => negb (isspace c) && no_space r
  end.

Fixpoint one_line (s : string) : bool :=
  match s with
  | EmptyString => true
  | String c r => negb (Ascii.eqb c LF) && one_line r
  end.

(** A white-space separated token. *)
Definition token (s : string) : Prop := s <> EmptyString /\ no_space s = true.

Definition u32 (n : Z) : Prop := 0 <= n <= UINT32_MAX.

(** What may follow a field on a wire line: the end, or the space in front
    of the next field. *)
Definition field_end (rest : string) : Prop :=
  rest = EmptyString \/ exists r, rest = String SP r.

(** One field of a wire line: a single space, then the text. *)
Definition field (text : string) : string := String SP text.

Section Catalog.
Context {double : Type}.

(** Every set field of the criteria holds of the plugin: the three
    substring fields when non-empty, the four bounds when not negative. *)
Definition satisfies_criteria (plugin : PluginInfo double)
  (c : PluginSearchCriteria) : Prop :=
  let n_in := Z.of_nat (length (audio_inputs (ports plugin))) in
  let n_out := Z.of_nat (length (audio_outputs (ports plugin))) in
  (category c <> EmptyString ->
     exists cat, In cat (info_category plugin) /\ ci_substring (category c) cat) /\
  (author c <> EmptyString ->
     ci_substring (author c) (author_name (info_author plugin))) /\
  (has_parameter c <> EmptyString ->
     exists port,
       In port (control_inputs (ports plugin) ++ control_outputs (ports plugin)) /\
       ci_substring (has_parameter c) (symbol port)) /\
  (0 <= min_audio_inputs c -> min_audio_inputs c <= n_in) /\
  (0 <= min_audio_outputs c -> min_audio_outputs c <= n_out) /\
  (0 <= max_audio_inputs c -> n_in <= max_audio_inputs c) /\
  (0 <= max_audio_outputs c -> n_out <= max_audio_outputs c).

(** The same without the required-parameter field. *)
Definition satisfies_checked_criteria (plugin : PluginInfo double)
  (c : PluginSearchCriteria) : Prop :=
  let n_in := Z.of_nat (length (audio_inputs (ports plugin))) in
  let n_out := Z.of_nat (length (audio_outputs (ports plugin))) in
  (category c <> EmptyString ->
     exists cat, In cat (info_category plugin) /\ ci_substring (category c) cat) /\
  (author c <> EmptyString ->
     ci_substring (author c) (author_name (info_author plugin))) /\
  (0 <= min_audio_inputs c -> min_audio_inputs c <= n_in) /\
  (0 <= min_audio_outputs c -> min_audio_outputs c <= n_out) /\
  (0 <= max_audio_inputs c -> n_in <= max_audio_inputs c) /\
  (0 <= max_audio_outputs c -> n_out <= max_audio_outputs c).

(** URIs of the new catalog that the old one lacks, and the converse. *)
Definition added_count (old new : gmap string (PluginInfo double)) : Z :=
  Z.of_nat (size (dom new ∖ dom old)).

Definition removed_count (old new : gmap string (PluginInfo double)) : Z :=
  Z.of_nat (size (dom old ∖ dom new)).

(** The scan throws, or the info fetch throws for one of the scanned URIs. *)
Definition adapter_throws (scanner : Scanner double) : Prop :=
  (exists what, scan_plugins scanner = Throw what) \/
  (exists mini uri what,
     scan_plugins scanner = Return mini /\ is_Some (mini !! uri) /\
     get_plugin_info scanner uri = Throw what).

(** The value an instance stores for a parameter. *)
Definition stored_parameter (st : Bridge double) (instance_id parameter : string)
  : option double :=
  instance ← instances_ st !! instance_id; parameters instance !! parameter.

End Catalog.

(** The text of an engine reply after its first "resp ", the whole reply
    when it has none. *)
Definition after_resp (reply : string) : string :=
  match find "resp " reply with
  | Some pos => substr (pos + 5) reply
  | None => reply
  end.

(** The claim's malformed reply: no integer can be read behind a "resp ",
    which is also the case of a reply that holds no "resp " at all. *)
Definition no_integer_after_resp (reply : string) : Prop :=
  forall pos n,
    find "resp " reply = Some pos -> stoi (substr (pos + 5) reply) <> stoi_value n.

(** The amended malformed reply, with the prefix optional: no integer can be
    read behind the first "resp ", nor, in a reply without "resp ", at its
    start. *)
Definition malformed_reply (reply : string) : Prop :=
  forall n, stoi (after_resp reply) <> stoi_value n.

(** The integer read there is negative. *)
Definition negative_reply (reply : string) : Prop :=
  exists n, stoi (after_resp reply) = stoi_value n /\ n < 0.

Section Wire.
Context {double : Type} `{!Platform double}.

(** The engine's formatters for the two field kinds whose text the bridge
    only ever reads. *)
Variable show_double : double -> string.
Variable show_json : Json double -> string.

Definition show_bool (b : bool) : string := if b then "1" else "0".

(** The wire line of a message: the type keyword, then the fields of the
    grammar table in order, each after one space. *)
Definition wire_line (m : FeedbackMessage double) : string :=
  match m with
  | ParamSet effect_id symbol value =>
      "param_set" +:+ field (decimal effect_id) +:+ field symbol +:+
      field (show_double value)
  | AudioMonitor index value =>
      "audio_monitor" +:+ field (decimal index) +:+ field (show_double value)
  | OutputSet effect_id symbol value =>
      "output_set" +:+ field (decimal effect_id) +:+ field symbol +:+
      field (show_double value)
  | MidiMapped effect_id symbol channel controller =>
      "midi_mapped" +:+ field (decimal effect_id) +:+ field symbol +:+
      field (decimal channel) +:+ field (decimal controller)
  | MidiControlChange channel control value =>
      "midi_control_change" +:+ field (decimal channel) +:+ field (decimal control) +:+
      field (decimal value)
  | MidiProgramChange program channel =>
      "midi_program_change" +:+ field (decimal program) +:+ field (decimal channel)
  | Transport rolling bpb bpm =>
      "transport" +:+ field (show_bool rolling) +:+ field (show_double bpb) +:+
      field (show_double bpm)
  | PatchSet instance symbol value =>
      "patch_set" +:+ field (decimal instance) +:+ field symbol +:+
      field (show_json value)
  | Log level message =>
      "log" +:+ field (decimal level) +:+ field message
  | CpuLoad load max_load xruns =>
      "cpu_load" +:+ field (show_double load) +:+ field (show_double max_load) +:+
      field (decimal xruns)
  | DataFinish => "data_finish"
  | CcMap raw => "cc_map" +:+ field raw
  | UnknownFeedback raw => raw
  end.

(** The text of a number starts with a visible character, and the library
    reads it back to the same value, stopping where the field ends. *)
Definition double_field (d : double) : Prop :=
  (exists c r, show_double d = String c r /\ isspace c = false) /\
  (forall rest, field_end rest ->
     num_get_double (show_double d +:+ rest) = (d, true, rest)).

(** The text of a JSON value stays on the line and reads back to it. *)
Definition json_field (v : Json double) : Prop :=
  one_line (show_json v) = true /\
  exists flag, Reader_parse (show_json v) = Some (flag, v).

(** The field tuples of the grammar table, by type. *)
Definition in_grammar (m : FeedbackMessage double) : Prop :=
  match m with
  | ParamSet effect_id symbol value
  | OutputSet effect_id symbol value =>
      u32 effect_id /\ token symbol /\ double_field value
  | AudioMonitor index value => u32 index /\ double_field value
  | MidiMapped effect_id symbol channel controller =>
      u32 effect_id /\ token symbol /\ u32 channel /\ u32 controller
  | MidiControlChange channel control value =>
      u32 channel /\ u32 control /\ u32 value
  | MidiProgramChange program channel => u32 program /\ u32 channel
  | Transport rolling bpb bpm => double_field bpb /\ double_field bpm
  | PatchSet instance symbol value =>
      u32 instance /\ token symbol /\ json_field value
  | Log level message => u32 level /\ one_line message = true
  | CpuLoad load max_load xruns =>
      double_field load /\ double_field max_load /\ u32 xruns
  | DataFinish => True
  | CcMap raw => one_line raw = true
  | UnknownFeedback _ => False
  end.

End Wire.
End Spec.

(* ===================================================================== *)
(** ** Concrete data for the examples *)
(* ===================================================================== *)

Module Samples.
Import Cxx Types PluginTypes Runtime Parser.

Abbreviation double := Decimal6.double.

Definition zeros : Indeterminate double :=
  mk_indet (fun _ => 0) (fun _ => 0) (fun _ => false).

Definition no_units : PluginUnits := mk_units EmptyString EmptyString.

Definition audio_port (index : Z) (symbol : string) : PluginPort double :=
  mk_port index symbol symbol EmptyString EmptyString EmptyString 0 0 0 no_units [] [].

Definition no_ports : PluginPorts double := mk_ports [] [] [] [] [] [] [] [].

(** One audio input, one audio output, no control port. *)
Definition mono_ports : PluginPorts double :=
  mk_ports [audio_port 0 "in"] [audio_port 1 "out"] [] [] [] [] [] [].

Definition plugin (uri name : string) (categories : list string) : PluginInfo double :=
  mk_info uri name EmptyString EmptyString EmptyString EmptyString "1.0" EmptyString
    categories (mk_author "someone" EmptyString EmptyString) mono_ports [].

Definition foo : PluginInfo double := plugin "urn:foo" "Foo" ["Reverb"].
Definition bar : PluginInfo double := plugin "urn:bar" "Bar" ["Delay"].

(** A process with the given catalog, instances and engine script, its
    helpers set up as [initialize] leaves them. *)
Definition process (catalog : gmap string (PluginInfo double))
  (instances : gmap string (PluginInstance double))
  (scanner : option (Scanner double)) (script : list Exchange) : Bridge double :=
  mk_bridge catalog instances scanner true true true 0
    (HealthState_new 0) [] EmptyString script [] [] [] 0 0 [].

(** A discovery adapter that finds [bar] alone. *)
Definition finds_bar : Scanner double :=
  mk_scanner (Return {[ "urn:bar" := bar ]})
    (fun uri => Return (if String.eqb uri "urn:bar" then Some bar else None)).

(** A discovery adapter whose info fetch throws. *)
Definition fetch_throws : Scanner double :=
  mk_scanner (Return {[ "urn:bar" := bar ]})
    (fun _ => Throw "Plugin scanner not initialized").

(** A loaded instance of [foo], engine instance 7, with gain 0.5. *)
Definition loaded : PluginInstance double :=
  mk_instance "urn:foo" "plugin_0_00000000" "Foo" EmptyString "1.0"
    {[ "gain" := 500000 ]} mono_ports 0 0 true EmptyString 0 (Some 7).

End Samples.

(* ===================================================================== *)
(** ** [utils/types]: the health snapshot *)
(* ===================================================================== *)

Module HealthSnapshot.
Import Types.

Record HealthResponse := mk_health_response {
  hr_status : HealthStatus;
  hr_message : string;
  hr_command_connected : bool;
  hr_feedback_connected : bool
}.

Definition get_health_response (h : HealthState) : HealthResponse :=
  let message :=
    match status h with
    | Starting => "Service is starting up, waiting for mod-host connections"
    | Healthy => "Service is healthy, all connections established"
    | Degraded =>
        "Service is degraded, command connection available but feedback connection lost"
    | Unhealthy => "Service is unhealthy, cannot connect to mod-host"
    end in
  mk_health_response (status h) message (command_connected h) (feedback_connected h).

(** [to_json(const HealthStatus&)], as the string it holds. *)
Definition status_name (s : HealthStatus) : string :=
  match s with
  | Starting => "starting"
  | Healthy => "healthy"
  | Degraded => "degraded"
  | Unhealthy => "unhealthy"
  end.

Section WithDouble.
Context {double : Type}.

(** [to_json(const HealthResponse&)] *)
Definition to_json_health (response : HealthResponse) : Json double :=
  json_set "feedback_connected" (JBool (hr_feedback_connected response))
    (json_set "command_connected" (JBool (hr_command_connected response))
       (json_set "message" (JString (hr_message response))
          (json_set "status" (JString (status_name (hr_status response))) JNull))).

End WithDouble.
End HealthSnapshot.

(* ===================================================================== *)
(** ** [core/health_monitor] *)
(* ===================================================================== *)

Module HealthMonitor.
Import Types HealthSnapshot.

Section WithPlatform.
Context {double : Type} `{!Platform double}.

(** The reply [monitor_loop] sends for one received message.  Whatever the
    inner [try] throws (the reader's failure, [isMember] on a value that is
    no object, [asString] on an array or object) ends in the [catch]. *)
Definition monitor_message (h : HealthState) (json_str : string) : Json double :=
  let invalid_json := json_set "error" (JString "Invalid JSON format") JNull in
  match Reader_parse json_str with
  | Some (true, json_req) =>
      match isMember "action" json_req with
      | None => invalid_json
      | Some has_action =>
          let is_health :=
            if has_action
            then (fun action => String.eqb action "health") <$>
                 asString (json_get "action" json_req)
            else Some false in
          match is_health with
          | None => invalid_json
          | Some true => to_json_health (get_health_response h)
          | Some false => json_set "error" (JString "Invalid health request format") JNull
          end
      end
  | _ => invalid_json
  end.

End WithPlatform.
End HealthMonitor.

(* ===================================================================== *)
(** ** [core/main]: waiting for the engine *)
(* ===================================================================== *)

Module Startup.
Import Types Runtime.

Section WithDouble.
Context {double : Type}.

(** [wait_for_modhost]: each element of [probes] is one round of the loop,
    holding what [test_connection] gives for the command port and for the
    feedback port (asked only when the command port answered); the list ends
    where [shutdown_requested] is found set. *)
Fixpoint wait_for_modhost (probes : list (bool * bool)) : M double bool :=
  match probes with
  | [] => ret false
  | (command_ok, feedback_ok) :: later =>
      if command_ok then
        mark_command_connection true ;;
        if feedback_ok then
          mark_feedback_connection true ;; ret true
        else
          mark_feedback_connection false ;; wait_for_modhost later
      else
        mark_command_connection false ;;
        mark_feedback_connection false ;;
        wait_for_modhost later
  end.

End WithDouble.
End Startup.

(* ===================================================================== *)
(** ** [core/feedback_reader]: the reconnect loop *)
(* ===================================================================== *)

Module ReaderLoop.
Import Types Runtime Parser.

Definition MIN_DELAY : Z := 100.
Definition MAX_DELAY : Z := 5000.

(** What one [connect_to_modhost] meets: no connection, or a connection on
    which the engine sends the chunks and then closes. *)
Inductive Attempt :=
  | refused
  | accepted (chunks : list string).

(** The delay after a sleep: doubled, capped. *)
Definition next_delay (current_delay : Z) : Z := Z.min (current_delay * 2) MAX_DELAY.

Section WithPlatform.
Context {double : Type} `{!Platform double}.

(** [reader_loop] over the attempts made while [running_] stays set; the
    result is the list of the sleeps, in milliseconds, one after each
    attempt. *)
Fixpoint reader_loop (u : Indeterminate double) (attempts : list Attempt)
  (current_delay : Z) : M double (list Z) :=
  match attempts with
  | [] => ret []
  | attempt :: later =>
      current_delay ←
        match attempt with
        | accepted chunks => FeedbackReader.connection u chunks ;; ret MIN_DELAY
        | refused => mark_feedback_connection false ;; ret current_delay
        end;
      sleeps ← reader_loop u later (next_delay current_delay);
      ret (current_delay :: sleeps)
  end.

End WithPlatform.
End ReaderLoop.

(* ===================================================================== *)
(** ** [plugins/plugin_manager]: unloading and queries *)
(* ===================================================================== *)

Module PluginManagerOps.
Import Cxx Types PluginTypes Runtime PluginManager.

Record UnloadPluginRequest := mk_unload { unload_instance_id : string }.

Record GetParameterRequest := mk_get_parameter {
  gp_instance_id : string;
  gp_parameter : string
}.

Record GetPluginInfoRequest := mk_get_info { gi_instance_id : string }.

Section WithPlatform.
Context {double : Type} `{!Platform double}.

Local Abbreviation M := (Runtime.M double).

(** Further alternatives of [PluginResponse]. *)
Inductive QueryResponse :=
  | GetParameterResponse (parameter : string) (value : double)
  | GetPluginInfoResponse (plugin : PluginInstance double).

(** [process_unload_plugin].  [instance] is a reference to the map element;
    the element is erased before [instance.uri] is read for the event, so
    what that read yields is not determined by the program: it is the
    argument [freed_uri]. *)
Definition process_unload_plugin (freed_uri : string) (req : UnloadPluginRequest)
  : M (PluginResponse double) :=
  st ← get;
  match instances_ st !! unload_instance_id req with
  | None => throw ("Plugin instance not found: " +:+ unload_instance_id req)
  | Some _ =>
      send_to_modhost ("remove " +:+ unload_instance_id req) ;;
      modify (fun st => set_instances (delete (unload_instance_id req) (instances_ st)) st) ;;
      publish_event "plugin_unloaded"
        (json_set "uri" (JString freed_uri)
           (json_set "instance_id" (JString (unload_instance_id req)) JNull)) ;;
      ret (UnloadPluginResponse "ok" (unload_instance_id req))
  end.

(** The second loop of [process_clear_all]: one unload per collected id, an
    exception of one is logged and the loop goes on. *)
Fixpoint unload_each (freed : string -> string) (instance_ids : list string) : M unit :=
  match instance_ids with
  | [] => ret tt
  | instance_id :: rest =>
      try_catch
        (process_unload_plugin (freed instance_id) (mk_unload instance_id) ;; ret tt)
        (fun _ => ret tt) ;;
      unload_each freed rest
  end.

(** The first loop of [process_clear_all]: the ids, in the iteration order
    of the map. *)
Definition collect_instance_ids (instances : gmap string (PluginInstance double))
  : list string :=
  map fst (map_to_list instances).

Definition process_clear_all (freed : string -> string) : M (PluginResponse double) :=
  st ← get;
  let instance_ids := collect_instance_ids (instances_ st) in
  unload_each freed instance_ids ;;
  ret (ClearAllResponse "ok").

(** [std::stod] on an engine reply: [None] when it throws. *)
Variable stod : string -> option double.

Definition process_get_parameter (req : GetParameterRequest) : M QueryResponse :=
  st ← get;
  match instances_ st !! gp_instance_id req with
  | None => throw ("Plugin instance not found: " +:+ gp_instance_id req)
  | Some instance =>
      let command := "param_get " +:+ gp_instance_id req +:+ " " +:+ gp_parameter req in
      result ← send_to_modhost command;
      let stored := default double_zero (parameters instance !! gp_parameter req) in
      let value :=
        match result with
        | Some body =>
            match stod body with
            | Some parsed => parsed
            | None => stored
            end
        | None => stored
        end in
      ret (GetParameterResponse (gp_parameter req) value)
  end.

Definition process_get_plugin_info (req : GetPluginInfoRequest) : M QueryResponse :=
  st ← get;
  match instances_ st !! gi_instance_id req with
  | None => throw ("Plugin instance not found: " +:+ gi_instance_id req)
  | Some instance => ret (GetPluginInfoResponse instance)
  end.

End WithPlatform.
End PluginManagerOps.

(* ===================================================================== *)
(** ** Vocabulary for the further properties *)
(* ===================================================================== *)

Module Props.
Import Cxx Types PluginTypes Runtime Parser.

Fixpoint no_nul (s : string) : bool :=
  match s with
  | EmptyString => true
  | String c r => negb (Ascii.eqb c NUL) && no_nul r
  end.

(** The records of a feedback stream: each line followed by its NUL. *)
Fixpoint records (lines : list string) : string :=
  match lines with
  | [] => EmptyString
  | line :: rest => line +:+ String NUL (records rest)
  end.

(** A digit as [std::hex] prints it: 0-9, a-f. *)
Definition is_lower_hex (c : ascii) : bool :=
  let n := nat_of_ascii c in
  isdigit c || (Nat.leb 97 n && Nat.leb n 102).

Fixpoint all_lower_hex (s : string) : bool :=
  match s with
  | EmptyString => true
  | String c r => is_lower_hex c && all_lower_hex r
  end.

(** No digit follows: where [strtol] stops reading. *)
Definition no_digit_ahead (rest : string) : bool :=
  match rest with
  | EmptyString => true
  | String c _ => negb (isdigit c)
  end.

(** The sleep after the [i]-th attempt in a row that follows a connection
    (or the start): 100 ms doubled [i] times, at most 5000 ms. *)
Definition backoff_delay (i : nat) : Z :=
  Z.min (ReaderLoop.MIN_DELAY * 2 ^ Z.of_nat i) ReaderLoop.MAX_DELAY.

Fixpoint concat_chunks (chunks : list string) : string :=
  match chunks with
  | [] => EmptyString
  | bytes :: rest => bytes +:+ concat_chunks rest
  end.

Section WithDouble.
Context {double : Type}.

(** Everything of the process that an exchange with the engine cannot
    touch: all but the engine script, the bytes written to the command port
    and the health state with its log. *)
Definition same_but_engine (st st' : Bridge double) : Prop :=
  available_plugins_ st' = available_plugins_ st /\
  instances_ st' = instances_ st /\
  plugin_scanner_ st' = plugin_scanner_ st /\
  plugin_validator_ st' = plugin_validator_ st /\
  search_engine_ st' = search_engine_ st /\
  pub_socket_ st' = pub_socket_ st /\
  next_instance st' = next_instance st /\
  line_buffer st' = line_buffer st /\
  pub_wire st' = pub_wire st /\
  rep_wire st' = rep_wire st /\
  steady_clock st' = steady_clock st /\
  system_clock st' = system_clock st /\
  random_device st' = random_device st.

(** What the coming exchange with the engine gives its caller: the reply
    when the engine sends data, nothing in every other case. *)
Definition engine_answers (st : Bridge double) : option string :=
  match engine st with
  | recv_data bytes :: _ => if empty bytes then None else Some (read_response bytes)
  | _ => None
  end.

(** The envelope [publish_event] builds. *)
Definition event (event_type : string) (timestamp : Z) (payload : Json double)
  : Json double :=
  JObject (<["data" := payload]>
             (<["timestamp" := JInt timestamp]> {["type" := JString event_type]})).

(** The events of a [clear_all], one per id. *)
Definition unloaded_events (freed : string -> string) (timestamp : Z)
  (ids : list string) : list (Json double) :=
  map (fun id => event "plugin_unloaded" timestamp
                   (JObject (<["uri" := JString (freed id)]>
                               {["instance_id" := JString id]}))) ids.

(** The health state as a pass of the reconnect loop leaves it: the
    feedback connection down, the status following from the command
    connection alone. *)
Definition between_connections (st : Bridge double) : Prop :=
  feedback_connected (health_state_ st) = false /\
  status (health_state_ st) =
  (if command_connected (health_state_ st) then Degraded else Unhealthy).

(** A computation that sends nothing on the REP socket. *)
Definition keeps_rep_wire {A} (m : M double A) : Prop :=
  forall st, rep_wire (snd (m st)) = rep_wire st.

(** What a process with or without PUB socket puts on the bus. *)
Definition on_bus (st : Bridge double) (documents : list (Json double))
  : list (Json double) :=
  if pub_socket_ st then documents else [].

(** The discovery adapter answers the scan with [mini] and every info fetch
    for a scanned URI without throwing. *)
Definition adapter_answers (scanner : Scanner double)
  (mini : gmap string (PluginInfo double)) : Prop :=
  scan_plugins scanner = Return mini /\
  forall uri, is_Some (mini !! uri) -> exists info, get_plugin_info scanner uri = Return info.

(** The text a free-text search looks into. *)
Definition searchable_text (plugin : PluginInfo double) : string :=
  toLower (name plugin +:+ " " +:+ author_name (info_author plugin) +:+ " " +:+
           comment plugin +:+ " " +:+ uri plugin).

Context `{!Platform double}.

(** The port counts and control ranges the validator accepts. *)
Definition acceptable (plugin : PluginInfo double) : Prop :=
  (length (audio_inputs (ports plugin)) <= 8)%nat /\
  (length (audio_outputs (ports plugin)) <= 8)%nat /\
  (0 < length (audio_inputs (ports plugin)) + length (audio_outputs (ports plugin)))%nat /\
  forall port,
    In port (control_inputs (ports plugin) ++ control_outputs (ports plugin)) ->
    double_gt (min_value port) (max_value port) = false.

(** What the reader publishes for one record: nothing for an empty one. *)
Definition record_documents (u : Indeterminate double) (line : string)
  : list (Json double) :=
  if empty line then []
  else match parse_feedback_line u line with
       | Some message => [to_json_feedback message]
       | None => []
       end.

End WithDouble.
End Props.

(* ===================================================================== *)
(** ** The sample platform with a reader that knows the health request *)
(* ===================================================================== *)

Module RequestReader.
Import Cxx.

(** The text of the request [{"action":"health"}]. *)
Definition health_request : string :=
  "{" +:+ String Decimal6.quote "action" +:+ String Decimal6.quote ":" +:+
  String Decimal6.quote "health" +:+ String Decimal6.quote "}".

Definition read_json (text : string) : option (bool * Json Decimal6.double) :=
  if String.eqb text health_request
  then Some (true, JObject {[ "action" := JString "health" ]})
  else Decimal6.read_json text.

Definition platform : Platform Decimal6.double := {|
  double_zero := 0;
  double_gt := Z.gtb;
  double_to_string := Decimal6.show;
  num_get_double := Decimal6.num_get;
  Reader_parse := read_json;
  writeString := Decimal6.write_json;
  valueToString := Decimal6.show
|}.

End RequestReader.

(* ===================================================================== *)
(** * Theorems *)
(* ===================================================================== *)

(** ** Health state *)

Module HealthFacts.
Import Types Spec.

Lemma update_overall_status_flags now h :
  command_connected (fst (update_overall_status now h)) = command_connected h /\
  feedback_connected (fst (update_overall_status now h)) = feedback_connected h.
Proof.
  unfold update_overall_status.
  destruct (negb _); [done|]. destruct (30 <=? _); done.
Qed.

Lemma update_overall_status_table now h :
  status (fst (update_overall_status now h)) =
  status_table (command_connected h) (feedback_connected h).
Proof.
  unfold update_overall_status, HealthStatus_eqb.
  destruct h as [s [] [] l]; destruct s; reflexivity || (cbn; destruct (30 <=? _); reflexivity).
Qed.

(** Whatever the state before, one update puts the status on the table. *)
Lemma apply_update_table h u :
  let h' := apply_update h u in
  status h' = status_table (command_connected h') (feedback_connected h').
Proof.
  destruct u as [now c|now c]; cbn -[update_overall_status];
    unfold update_command_connection, update_feedback_connection;
    rewrite update_overall_status_table;
    match goal with |- context [update_overall_status ?n ?x] =>
      destruct (update_overall_status_flags n x) as [-> ->] end; reflexivity.
Qed.

Lemma status_table_not_starting c f : status_table c f <> Starting.
Proof. destruct c, f; discriminate. Qed.

Lemma run_updates_snoc h us u :
  run_updates h (us ++ [u]) = apply_update (run_updates h us) u.
Proof. unfold run_updates. by rewrite fold_left_app. Qed.

(** C9: after any non-empty sequence of [update_command_connection] and
    [update_feedback_connection] calls on a fresh health state, the status is
    the value the derivation table gives for the two flags (unhealthy without
    the command connection, degraded with it but without feedback, healthy
    with both), and it is not [Starting]: that status is held only before the
    first update. *)
Theorem C9_status_is_table_after_first_update :
  forall (created : Z) (first : HealthUpdate) (later : list HealthUpdate),
    let h := run_updates (HealthState_new created) (first :: later) in
    status h = status_table (command_connected h) (feedback_connected h) /\
    status h <> Starting.
Proof.
  intros created first later.
  assert (G : forall us h0, us <> [] ->
            status (run_updates h0 us) =
            status_table (command_connected (run_updates h0 us))
                         (feedback_connected (run_updates h0 us))).
  { induction us as [|u us _] using rev_ind; [done|].
    intros h0 _. rewrite run_updates_snoc. apply apply_update_table. }
  cbv zeta. split.
  - by apply G.
  - rewrite G by done. apply status_table_not_starting.
Qed.

End HealthFacts.

(** ** The engine command client *)

Module CommandClientFacts.
Import Cxx Types Runtime.

Lemma append_nil (t : string) : EmptyString +:+ t = t.
Proof. reflexivity. Qed.

Lemma append_cons (c : ascii) (s t : string) : String c s +:+ t = String c (s +:+ t).
Proof. reflexivity. Qed.

Lemma append_empty (s : string) : s +:+ EmptyString = s.
Proof. induction s as [|c s IH]; [done|]. by rewrite append_cons, IH. Qed.

Lemma append_assoc (a b c : string) : (a +:+ b) +:+ c = a +:+ (b +:+ c).
Proof. induction a as [|x a IH]; [done|]. by rewrite !append_cons, IH. Qed.

Lemma length_append (a b : string) :
  String.length (a +:+ b) = (String.length a + String.length b)%nat.
Proof. induction a as [|x a IH]; [done|]. rewrite append_cons. cbn. by rewrite IH. Qed.

(** The literal of the payload is an empty C string: its first character is
    already the terminator. *)
Lemma payload_is_command (command : string) :
  append_c_str command (literal (String NUL EmptyString)) = command.
Proof.
  unfold append_c_str.
  change (c_str_chars (literal (String NUL EmptyString))) with EmptyString.
  apply append_empty.
Qed.

Lemma bytes_at_c_str (s : string) : bytes_at (c_str s) (String.length s) = s.
Proof.
  induction s as [|c s IH]; [done|].
  unfold c_str in *. rewrite append_cons. cbn. by rewrite IH.
Qed.

Lemma terminated_differs (s : string) : s <> s +:+ String NUL EmptyString.
Proof.
  intros E. apply (f_equal String.length) in E.
  rewrite length_append in E. cbn in E. lia.
Qed.

Section WithDouble.
Context {double : Type}.

(** What [send_to_modhost] puts on a connection that it could open and
    write to. *)
Lemma send_to_modhost_written (command : string) (e : Exchange)
  (coming : list Exchange) (st : Bridge double) :
  e = recv_closed \/ e = recv_error \/ (exists bytes, e = recv_data bytes) ->
  engine st = e :: coming ->
  command_port (snd (send_to_modhost command st)) = command_port st ++ [command].
Proof.
  intros He Hst. unfold send_to_modhost, bind, get, modify, ret.
  rewrite Hst. rewrite payload_is_command, bytes_at_c_str.
  destruct He as [->|[->|[bytes ->]]]; try reflexivity.
  unfold mark_command_connection, modify. cbn. by destruct (empty bytes).
Qed.

End WithDouble.

(** C2: on a connection that [send_to_modhost] opened and wrote to, the bytes
    on the wire are the characters of the command and nothing more: the
    terminator the request should end with is not among them. *)
Theorem C2_written_bytes_lack_terminator :
  forall (double : Type) (command bytes : string) (coming : list Exchange)
         (st : Bridge double),
    let st' := snd (send_to_modhost command (set_engine (recv_data bytes :: coming) st)) in
    command_port st' = command_port st ++ [command] /\
    command <> command +:+ String NUL EmptyString.
Proof.
  intros double command bytes coming st. cbv zeta. split.
  - rewrite (send_to_modhost_written command (recv_data bytes) coming); [done| |done].
    right; right; by exists bytes.
  - apply terminated_differs.
Qed.

End CommandClientFacts.

(** ** The request dispatcher *)

Module DispatcherFacts.
Import Cxx Types Runtime CommandService.

Section WithPlatform.
Context {double : Type} `{!Platform double}.
Variable process_plugin_command : Json double -> M double (Json double).

Lemma process_command_not_null (request : CommandRequest) (st : Bridge double) :
  fst (process_command request st) <> Return JNull.
Proof.
  unfold process_command, mbind, M_bind, bind.
  destruct (send_to_modhost _ st) as [[[body|]|what] st']; cbn; discriminate.
Qed.

(** On engine success the object carries the body as [raw], on failure it
    carries [error]. *)
Lemma process_command_object (request : CommandRequest) (st : Bridge double) :
  match fst (send_to_modhost (command_text request) st) with
  | Return (Some body) =>
      fst (process_command request st) =
      Return (JObject (<["raw" := JString body]> {["status" := JString body]}))
  | Return None =>
      fst (process_command request st) =
      Return (JObject {["error" := JString "Failed to communicate with mod-host"]})
  | Throw what => fst (process_command request st) = Throw what
  end.
Proof.
  unfold process_command, mbind, M_bind, bind.
  destruct (send_to_modhost _ st) as [[[body|]|what] st']; reflexivity.
Qed.

Lemma route_raw_command (command : string) (st : Bridge double) :
  route_request process_plugin_command (JObject {["command" := JString command]}) st =
  (Return JNull, snd (process_command (RawCommand command) st)).
Proof.
  unfold route_request, mbind, M_bind, bind, isMember_, isMember, json_get, asString_.
  rewrite lookup_singleton_ne by done.
  rewrite bool_decide_eq_false_2 by (intros [? ?]; done).
  cbn [ret]. rewrite lookup_singleton_eq.
  rewrite bool_decide_eq_true_2 by eauto.
  cbn.
  destruct (process_command (RawCommand command) st) as [[v|what] st'] eqn:E.
  - reflexivity.
  - exfalso. unfold process_command, mbind, M_bind, bind in E.
    destruct (send_to_modhost _ st) as [[[body|]|w] st2] eqn:E2; try discriminate.
    unfold send_to_modhost, bind, get, modify, ret, mark_command_connection in E2.
    destruct (engine st) as [|[] ?]; try discriminate.
    cbn in E2. destruct (empty bytes); discriminate.
Qed.

Lemma process_command_returns (request : CommandRequest) (st : Bridge double) :
  exists v, fst (process_command request st) = Return v.
Proof.
  unfold process_command, mbind, M_bind, bind.
  destruct (send_to_modhost _ st) as [[[body|]|w] st2] eqn:E2; cbn; eauto.
  unfold send_to_modhost, bind, get, modify, ret, mark_command_connection in E2.
  destruct (engine st) as [|[] ?]; try discriminate.
  cbn in E2. destruct (empty bytes); discriminate.
Qed.

Lemma collect_args_strings (args : list string) (st : Bridge double) :
  collect_args (map JString args) st = (Return args, st).
Proof.
  induction args as [|a args IH]; [done|].
  cbn. unfold mbind, M_bind, bind. cbn. by rewrite IH.
Qed.

Lemma route_structured_command (name : string) (args : list string) (st : Bridge double) :
  route_request process_plugin_command
    (JObject (<["args" := JArray (map JString args)]> {["name" := JString name]})) st =
  (Return JNull, snd (process_command (StructuredCommand name args) st)).
Proof.
  unfold route_request, mbind, M_bind, bind, isMember_, isMember, json_get, asString_.
  rewrite !lookup_insert_ne by done. rewrite !lookup_singleton_ne by done.
  rewrite !bool_decide_eq_false_2 by (intros [? ?]; done).
  cbn [ret]. rewrite lookup_singleton_eq, lookup_insert_eq.
  rewrite !bool_decide_eq_true_2 by eauto.
  cbn [andb default json_elements ret id asString]. rewrite collect_args_strings.
  cbn [ret].
  destruct (process_command_returns (StructuredCommand name args) st) as [v Hv].
  destruct (process_command (StructuredCommand name args) st) as [[v'|what] st'];
    [reflexivity|discriminate].
Qed.

Lemma process_command_rep_wire (request : CommandRequest) (st : Bridge double) :
  rep_wire (snd (process_command request st)) = rep_wire st.
Proof.
  unfold process_command, mbind, M_bind, bind.
  assert (H : rep_wire (snd (send_to_modhost (command_text request) st)) = rep_wire st).
  { unfold send_to_modhost, bind, get, modify, ret, mark_command_connection.
    destruct (engine st) as [|[] ?]; cbn; try destruct (empty _); done. }
  destruct (send_to_modhost _ st) as [[[body|]|w] st2]; exact H.
Qed.

(** What goes out on the REP socket for a request the router answers. *)
Lemma answer_request_sends (json_req v : Json double) (st st1 : Bridge double) :
  route_request process_plugin_command json_req st = (Return v, st1) ->
  rep_wire (snd (answer_request process_plugin_command json_req st)) = rep_wire st1 ++ [v].
Proof.
  intros E. unfold answer_request, mbind, M_bind, bind. rewrite E. reflexivity.
Qed.

End WithPlatform.

(** C1: for a legacy request, in either of its two shapes, the document sent
    back on the REP socket is the null value the outer [json_resp] was
    declared with, not the object [process_command] returned for the request
    (which is never null); the engine exchange of [process_command] itself
    takes place. *)
Theorem C1_legacy_reply_is_null_not_the_object :
  forall (double : Type) (P : Platform double)
         (process_plugin_command : Json double -> M double (Json double))
         (command name : string) (args : list string) (st : Bridge double),
    let raw := JObject {["command" := JString command]} in
    let structured :=
      JObject (<["args" := JArray (map JString args)]> {["name" := JString name]}) in
    (rep_wire (snd (answer_request process_plugin_command raw st)) =
       rep_wire st ++ [JNull] /\
     route_request process_plugin_command raw st =
       (Return JNull, snd (process_command (RawCommand command) st)) /\
     fst (process_command (RawCommand command) st) <> Return JNull) /\
    (rep_wire (snd (answer_request process_plugin_command structured st)) =
       rep_wire st ++ [JNull] /\
     route_request process_plugin_command structured st =
       (Return JNull, snd (process_command (StructuredCommand name args) st)) /\
     fst (process_command (StructuredCommand name args) st) <> Return JNull).
Proof.
  intros. subst raw structured. split; (split; [|split]).
  - rewrite (answer_request_sends _ _ _ _ _ (route_raw_command _ command st)).
    by rewrite process_command_rep_wire.
  - apply route_raw_command.
  - apply process_command_not_null.
  - rewrite (answer_request_sends _ _ _ _ _ (route_structured_command _ name args st)).
    by rewrite process_command_rep_wire.
  - apply route_structured_command.
  - apply process_command_not_null.
Qed.

End DispatcherFacts.

(** ** The feedback parser *)

Module ParserFacts.
Import Cxx IStream Types Parser Spec CommandClientFacts.

(** Evaluate the comparisons of two literal keywords in the goal. *)
Ltac eval_keyword_tests :=
  repeat match goal with
         | |- context [String.eqb ?a ?b] =>
             let v := eval vm_compute in (String.eqb a b) in
             change (String.eqb a b) with v
         end;
  cbv beta iota zeta.

Section WithPlatform.
Context {double : Type} `{!Platform double}.

(** C4: a line whose first token is a recognized type and whose fields do
    not parse still comes back as a message of that type, built from what the
    failed extractions left in the locals (0 for the number that did not
    convert, the previous contents for everything after it); it is not
    turned into [UnknownFeedback].  Nothing is thrown, so the [catch] that
    would produce [UnknownFeedback] is not reached. *)
Theorem C4_unparsed_fields_keep_the_type :
  forall u : Indeterminate double,
    parse_feedback_line u "log abc" = Some (Log 0 EmptyString) /\
    parse_feedback_line u "param_set abc gain 0.5" =
      Some (ParamSet 0 EmptyString (indet_double u 0)) /\
    parse_feedback_line u "midi_program_change 7" =
      Some (MidiProgramChange 7 (indet_uint32 u 1)).
Proof. intros u. repeat split; vm_compute; reflexivity. Qed.

(** Outside [patch_set], whose JSON reader may throw, a recognized type
    never yields [UnknownFeedback], whatever follows the keyword. *)
Lemma recognized_type_never_unknown (u : Indeterminate double) (line : string) :
  In (leading_token line) recognized_types ->
  leading_token line <> "patch_set" ->
  exists m, parse_feedback_line u line = Some m /\ is_unknown m = false.
Proof.
  unfold parse_feedback_line, leading_token, recognized_types.
  destruct (extract_string EmptyString (IStream.open line)) as [type iss].
  cbn [fst]. intros Hin Hne.
  repeat match goal with
         | |- context [String.eqb type ?kw] =>
             destruct (String.eqb type kw) eqn:?
         end;
  repeat match goal with
         | |- context [let '(_, _) := ?e in _] => destruct e
         end;
  try (eexists; split; [reflexivity|reflexivity]).
  - exfalso. apply Hne. by apply String.eqb_eq.
  - exfalso. cbn in Hin.
    repeat match goal with
           | H : String.eqb _ _ = false |- _ => apply String.eqb_neq in H
           end.
    intuition congruence.
Qed.

(** *** Characters and digit strings *)

Lemma digit_char_spec (d : Z) :
  0 <= d < 10 -> isdigit (digit_char d) = true /\ digit_value (digit_char d) = d.
Proof.
  intros Hd.
  assert (d = 0 \/ d = 1 \/ d = 2 \/ d = 3 \/ d = 4 \/ d = 5 \/ d = 6 \/ d = 7 \/
          d = 8 \/ d = 9) as Hc by lia.
  repeat (destruct Hc as [->|Hc]; [by vm_compute|]). subst d. by vm_compute.
Qed.

Lemma isdigit_not_space (c : ascii) : isdigit c = true -> isspace c = false.
Proof. destruct c as [[] [] [] [] [] [] [] []]; vm_compute; congruence. Qed.

Lemma isdigit_read_sign (c : ascii) (r : string) :
  isdigit c = true -> read_sign (String c r) = (false, String c r).
Proof. destruct c as [[] [] [] [] [] [] [] []]; vm_compute; congruence. Qed.

Lemma space_is_space : isspace SP = true.
Proof. reflexivity. Qed.

Lemma space_not_digit : isdigit SP = false.
Proof. reflexivity. Qed.

(** A field ends where no digit follows. *)
Lemma scan_digits_field_end (rest : string) (n : Z) :
  field_end rest -> scan_digits rest n true = (n, true, rest).
Proof. intros [->|[r ->]]; reflexivity. Qed.

Lemma decimal_fuel_scan (fuel : nat) :
  forall (n : Z) (rest : string) (seen : bool),
    0 <= n < 2 ^ Z.of_nat fuel ->
    scan_digits (decimal_fuel fuel n +:+ rest) 0 seen = scan_digits rest n true.
Proof.
  induction fuel as [|fuel IH]; intros n rest seen Hn.
  - assert (n = 0) as -> by (cbn in Hn; lia). reflexivity.
  - cbn [decimal_fuel]. destruct (n <? 10) eqn:E.
    + apply Z.ltb_lt in E. destruct (digit_char_spec n) as [Hd Hv]; [lia|].
      rewrite append_cons, append_nil. cbn [scan_digits]. rewrite Hd, Hv.
      f_equal.
    + apply Z.ltb_ge in E.
      rewrite append_assoc, append_cons, append_nil.
      rewrite IH.
      * destruct (digit_char_spec (n mod 10)) as [Hd Hv];
          [apply Z.mod_pos_bound; lia|].
        cbn [scan_digits]. rewrite Hd, Hv. f_equal.
        pose proof (Z.div_mod n 10). lia.
      * rewrite Nat2Z.inj_succ, Z.pow_succ_r in Hn by lia.
        split; [apply Z.div_pos; lia|].
        apply Z.div_lt_upper_bound; lia.
Qed.

Lemma decimal_fuel_head (fuel : nat) (n : Z) :
  0 <= n ->
  exists c r, decimal_fuel fuel n = String c r /\ isdigit c = true.
Proof.
  revert n. induction fuel as [|fuel IH]; intros n Hn.
  - cbn. eexists _, _. split; [reflexivity|].
    apply digit_char_spec, Z.mod_pos_bound. lia.
  - cbn [decimal_fuel]. destruct (n <? 10) eqn:E.
    + apply Z.ltb_lt in E. eexists _, _. split; [reflexivity|].
      apply digit_char_spec. lia.
    + destruct (IH (n / 10)) as (c & r & -> & Hc); [apply Z.div_pos; lia|].
      rewrite append_cons. eauto.
Qed.

Lemma decimal_bound (n : Z) : 0 <= n -> n < 2 ^ Z.of_nat (Z.to_nat (Z.log2_up (n + 1))).
Proof.
  intros Hn. rewrite Z2Nat.id by apply Z.log2_up_nonneg.
  destruct (Z.eq_dec n 0) as [->|Hne]; [reflexivity|].
  pose proof (Z.log2_up_spec (n + 1)). lia.
Qed.

Lemma decimal_scan (n : Z) (rest : string) (seen : bool) :
  0 <= n -> scan_digits (decimal n +:+ rest) 0 seen = scan_digits rest n true.
Proof.
  intros Hn. apply decimal_fuel_scan. split; [done|]. by apply decimal_bound.
Qed.

Lemma decimal_head (n : Z) :
  0 <= n -> exists c r, decimal n = String c r /\ isdigit c = true.
Proof. apply decimal_fuel_head. Qed.

(** *** Stream extractions on well-formed fields *)

Lemma no_space_skipws (s rest : string) :
  s <> EmptyString -> no_space s = true -> skipws (s +:+ rest) = s +:+ rest.
Proof.
  destruct s as [|c s]; [done|]. intros _ Hs. cbn in Hs.
  apply andb_true_iff in Hs as [Hc _]. apply negb_true_iff in Hc.
  rewrite append_cons. cbn. by rewrite Hc.
Qed.

Lemma read_token_field (s rest : string) :
  no_space s = true -> field_end rest -> read_token (s +:+ rest) = (s, rest).
Proof.
  intros Hs Hrest. induction s as [|c s IH].
  - rewrite append_nil. destruct Hrest as [->|[r ->]]; reflexivity.
  - cbn in Hs. apply andb_true_iff in Hs as [Hc Hs]. apply negb_true_iff in Hc.
    rewrite append_cons. cbn. rewrite Hc, IH by done. reflexivity.
Qed.

Lemma extract_string_token (old tok rest : string) :
  token tok -> field_end rest ->
  extract_string old (mk_iss (tok +:+ rest) false) = (tok, mk_iss rest false).
Proof.
  intros [Hne Hs] Hrest. unfold extract_string, sentry. cbn [failbit buf].
  rewrite no_space_skipws by done.
  destruct tok as [|c tok]; [done|]. rewrite append_cons.
  rewrite <- append_cons. by rewrite read_token_field.
Qed.

(** The space in front of a field is skipped by the sentry. *)
Lemma sentry_field (text : string) :
  sentry (mk_iss (String SP text) false) = sentry (mk_iss text false).
Proof. reflexivity. Qed.

Lemma extract_string_field (old tok rest : string) :
  token tok -> field_end rest ->
  extract_string old (mk_iss (field tok +:+ rest) false) = (tok, mk_iss rest false).
Proof.
  intros Ht Hrest. rewrite <- (extract_string_token old tok rest Ht Hrest).
  unfold field. rewrite append_cons. unfold extract_string.
  rewrite sentry_field. reflexivity.
Qed.

Lemma extract_uint32_field (old n : Z) (rest : string) :
  u32 n -> field_end rest ->
  extract_uint32 old (mk_iss (field (decimal n) +:+ rest) false) = (n, mk_iss rest false).
Proof.
  intros [Hlo Hhi] Hrest. unfold field. rewrite append_cons.
  unfold extract_uint32. rewrite sentry_field. unfold sentry. cbn [failbit buf].
  destruct (decimal_head n Hlo) as (c & r & Hd & Hc).
  assert (skipws (decimal n +:+ rest) = decimal n +:+ rest) as ->.
  { rewrite Hd, append_cons. cbn. by rewrite (isdigit_not_space c Hc). }
  assert (exists t, decimal n +:+ rest = String c t) as [t Ht].
  { rewrite Hd, append_cons. eauto. }
  rewrite Ht at 1. unfold num_get_uint32.
  rewrite <- Ht, Hd, append_cons, (isdigit_read_sign c _ Hc).
  rewrite <- append_cons, <- Hd, decimal_scan, scan_digits_field_end by done.
  cbn [negb]. destruct (UINT32_MAX <? n) eqn:E; [apply Z.ltb_lt in E; lia|].
  reflexivity.
Qed.

Lemma extract_bool_field (old b : bool) (rest : string) :
  field_end rest ->
  extract_bool old (mk_iss (field (show_bool b) +:+ rest) false) = (b, mk_iss rest false).
Proof. intros [->|[r ->]]; destruct b; reflexivity. Qed.

Section Formats.
Variable show_double : double -> string.
Variable show_json : Json double -> string.

Lemma extract_double_field (old d : double) (rest : string) :
  double_field show_double d -> field_end rest ->
  extract_double old (mk_iss (field (show_double d) +:+ rest) false) =
  (d, mk_iss rest false).
Proof.
  intros [(c & r & Hd & Hc) Hget] Hrest. unfold field. rewrite append_cons.
  unfold extract_double. rewrite sentry_field. unfold sentry. cbn [failbit buf].
  assert (skipws (show_double d +:+ rest) = show_double d +:+ rest) as ->.
  { rewrite Hd, append_cons. cbn. by rewrite Hc. }
  assert (exists t, show_double d +:+ rest = String c t) as [t Ht].
  { rewrite Hd, append_cons. eauto. }
  rewrite Ht at 1. rewrite <- Ht, Hget by done. reflexivity.
Qed.

Lemma read_line_one_line (s : string) :
  one_line s = true -> read_line s = (s, EmptyString).
Proof.
  induction s as [|c s IH]; [done|]. cbn. intros Hs.
  apply andb_true_iff in Hs as [Hc Hs]. apply negb_true_iff in Hc.
  change (ascii_of_nat 10) with LF. rewrite Hc, IH by done. reflexivity.
Qed.

(** The rest of the line, with the separating space dropped. *)
Lemma getline_field (old text : string) :
  one_line text = true ->
  drop_leading_space (fst (getline old (mk_iss (field text) false))) = text.
Proof.
  intros Hs. unfold getline, field. cbn [failbit buf].
  assert (read_line (String SP text) = (String SP text, EmptyString)) as ->.
  { apply read_line_one_line. cbn. by rewrite Hs. }
  reflexivity.
Qed.

Lemma field_end_field (text rest : string) : field_end (field text +:+ rest).
Proof. right. unfold field. rewrite append_cons. eauto. Qed.

Lemma field_end_last (text : string) : field_end (field text).
Proof. right. unfold field. eauto. Qed.

Lemma field_end_empty : field_end EmptyString.
Proof. by left. Qed.

Ltac field_side :=
  first [ assumption | apply field_end_field | apply field_end_last
        | apply field_end_empty | (split; [discriminate|reflexivity]) ].

(** Rewrite one extraction with its field lemma; a last field is first
    given an empty rest. *)
Ltac field_step L :=
  first
    [ rewrite L by field_side
    | match goal with
      | |- context [mk_iss (field ?t) false] =>
          rewrite <- (append_empty (field t)); rewrite L by field_side
      end ];
  cbv beta iota zeta.

Ltac keyword_step :=
  unfold parse_feedback_line, wire_line, IStream.open;
  rewrite extract_string_token by field_side;
  eval_keyword_tests.

Lemma parse_wire_line (u : Indeterminate double) (m : FeedbackMessage double) :
  in_grammar show_double show_json m ->
  parse_feedback_line u (wire_line show_double show_json m) = Some m.
Proof.
  destruct m; cbn [in_grammar]; intros Hm.
  - destruct Hm as (? & ? & ?). keyword_step.
    field_step extract_uint32_field. field_step extract_string_field.
    field_step extract_double_field. reflexivity.
  - destruct Hm as (? & ?). keyword_step.
    field_step extract_uint32_field. field_step extract_double_field. reflexivity.
  - destruct Hm as (? & ? & ?). keyword_step.
    field_step extract_uint32_field. field_step extract_string_field.
    field_step extract_double_field. reflexivity.
  - destruct Hm as (? & ? & ? & ?). keyword_step.
    field_step extract_uint32_field. field_step extract_string_field.
    field_step extract_uint32_field. field_step extract_uint32_field. reflexivity.
  - destruct Hm as (? & ? & ?). keyword_step.
    field_step extract_uint32_field. field_step extract_uint32_field.
    field_step extract_uint32_field. reflexivity.
  - destruct Hm as (? & ?). keyword_step.
    field_step extract_uint32_field. field_step extract_uint32_field. reflexivity.
  - destruct Hm as (? & ?). keyword_step.
    field_step extract_bool_field. field_step extract_double_field.
    field_step extract_double_field. reflexivity.
  - destruct Hm as (? & ? & Hline & flag & Hread). keyword_step.
    field_step extract_uint32_field. field_step extract_string_field.
    pose proof (getline_field EmptyString _ Hline) as Hget.
    destruct (getline EmptyString _) as [got iss]. cbn [fst] in Hget.
    rewrite Hget, Hread. reflexivity.
  - destruct Hm as (? & Hline). keyword_step.
    field_step extract_uint32_field.
    pose proof (getline_field EmptyString _ Hline) as Hget.
    destruct (getline EmptyString _) as [got iss]. cbn [fst] in Hget.
    by rewrite Hget.
  - destruct Hm as (? & ? & ?). keyword_step.
    field_step extract_double_field. field_step extract_double_field.
    field_step extract_uint32_field. reflexivity.
  - vm_compute. reflexivity.
  - keyword_step.
    pose proof (getline_field EmptyString _ Hm) as Hget.
    destruct (getline EmptyString _) as [got iss]. cbn [fst] in Hget.
    by rewrite Hget.
  - destruct Hm.
Qed.

End Formats.

(** The envelope published for a message carries its type keyword. *)
Lemma to_json_feedback_type (m : FeedbackMessage double) :
  json_get "type" (to_json_feedback m) = JString (type_of m).
Proof. destruct m; vm_compute; reflexivity. Qed.

(** A line whose first token is none of the keywords. *)
Lemma parse_unrecognized (u : Indeterminate double) (line : string) :
  ~ In (leading_token line) recognized_types ->
  parse_feedback_line u line = Some (UnknownFeedback line).
Proof.
  unfold parse_feedback_line, leading_token, recognized_types.
  destruct (extract_string EmptyString (IStream.open line)) as [type iss].
  cbn [fst]. intros Hnot.
  repeat match goal with
         | |- context [String.eqb type ?kw] =>
             destruct (String.eqb type kw) eqn:?
         end;
  try reflexivity;
  exfalso; apply Hnot;
  match goal with
  | H : String.eqb _ _ = true |- _ => apply String.eqb_eq in H; subst type
  end; cbn; tauto.
Qed.

End WithPlatform.

(** C8: for every message whose field tuple is in the grammar table (32-bit
    unsigned numbers, white-space free non-empty symbols, numbers and JSON
    values whose text the platform reads back, rest-of-line texts without a
    line feed), parsing the wire line built from the keyword and the fields
    gives back that message; and every line whose leading token is not one of
    the keywords parses to [UnknownFeedback] carrying the whole line. *)
Theorem C8_wire_line_roundtrip_and_unknown :
  forall (double : Type) (P : Platform double)
         (show_double : double -> string) (show_json : Json double -> string)
         (u : Indeterminate double),
    (forall m : FeedbackMessage double,
       in_grammar show_double show_json m ->
       parse_feedback_line u (wire_line show_double show_json m) = Some m) /\
    (forall line : string,
       ~ In (leading_token line) recognized_types ->
       parse_feedback_line u line = Some (UnknownFeedback line)).
Proof.
  intros. split.
  - intros m Hm. by apply parse_wire_line.
  - apply parse_unrecognized.
Qed.

(** The record "param_set 7 gain 0.250000" is in the grammar on the sample
    platform and parses back to its tuple. *)
Lemma C8_witness :
  let m := ParamSet 7 "gain" 250000 in
  in_grammar Decimal6.show Decimal6.write_json m /\
  parse_feedback_line Samples.zeros (wire_line Decimal6.show Decimal6.write_json m) =
  Some m.
Proof.
  assert (G : in_grammar Decimal6.show Decimal6.write_json
                (ParamSet 7 "gain" (250000 : Samples.double))).
  { split; [|split; [|split]].
    - vm_compute. split; discriminate.
    - split; [discriminate|reflexivity].
    - eexists _, _. split; vm_compute; reflexivity.
    - intros rest [->|[r ->]]; vm_compute; reflexivity. }
  split; [exact G|].
  exact (proj1 (C8_wire_line_roundtrip_and_unknown Samples.double Decimal6.platform
                  Decimal6.show Decimal6.write_json Samples.zeros) _ G).
Defined.

End ParserFacts.

(** ** The search engine *)

Module SearchFacts.
Import Cxx PluginTypes PluginSearchEngine Runtime Spec CommandClientFacts.

Lemma starts_with_spec (needle : string) :
  forall hay, starts_with needle hay = true <-> exists post, hay = needle +:+ post.
Proof.
  induction needle as [|a needle IH]; intros hay.
  - split; [intros _; by exists hay|by destruct hay].
  - destruct hay as [|b hay]; cbn [starts_with].
    + split; [done|]. intros [post E]. rewrite append_cons in E. discriminate.
    + rewrite andb_true_iff, IH, Ascii.eqb_eq. split.
      * intros [-> [post ->]]. exists post. by rewrite append_cons.
      * intros [post E]. rewrite append_cons in E. injection E as -> ->. eauto.
Qed.

Lemma find_unfold (needle hay : string) :
  find needle hay =
  if starts_with needle hay then Some O
  else match hay with
       | EmptyString => None
       | String _ h' => S <$> find needle h'
       end.
Proof. destruct hay; reflexivity. Qed.

Lemma find_spec (needle hay : string) :
  is_Some (find needle hay) <-> substring needle hay.
Proof.
  unfold substring. induction hay as [|c hay IH]; rewrite find_unfold.
  - destruct (starts_with needle EmptyString) eqn:E.
    + apply starts_with_spec in E as [post Ep]. split; [|by eauto].
      intros _. exists EmptyString, post. by rewrite append_nil.
    + split; [by intros [? ?]|]. intros (pre & post & E').
      destruct pre; [|rewrite append_cons in E'; discriminate].
      rewrite append_nil in E'.
      assert (starts_with needle EmptyString = true) by (apply starts_with_spec; eauto).
      congruence.
  - destruct (starts_with needle (String c hay)) eqn:E.
    + apply starts_with_spec in E as [post Ep]. split; [|by eauto].
      intros _. exists EmptyString, post. by rewrite append_nil.
    + rewrite fmap_is_Some, IH. split.
      * intros (pre & post & ->). exists (String c pre), post. by rewrite append_cons.
      * intros (pre & post & E'). destruct pre as [|c' pre].
        -- rewrite append_nil in E'.
           assert (starts_with needle (String c hay) = true)
             by (apply starts_with_spec; eauto).
           congruence.
        -- rewrite append_cons in E'. injection E' as -> ->. eauto.
Qed.

Lemma contains_spec (hay needle : string) :
  contains hay needle = true <-> substring needle hay.
Proof. unfold contains. rewrite bool_decide_eq_true. apply find_spec. Qed.

Lemma empty_spec (s : string) : empty s = true <-> s = EmptyString.
Proof. by destruct s. Qed.

Lemma string_guard (s : string) (hit : bool) :
  negb (empty s) && negb hit = false <-> (s <> EmptyString -> hit = true).
Proof.
  destruct s as [|c s], hit; cbn; split; try done.
  intros H. symmetry. by apply H.
Qed.

Lemma min_guard (bound n : Z) :
  0 <= n -> ((0 <? bound) && (n <? bound) = false <-> (0 <= bound -> bound <= n)).
Proof.
  intros Hn. rewrite andb_false_iff, !Z.ltb_ge. lia.
Qed.

Lemma max_guard (bound n : Z) :
  (0 <=? bound) && (bound <? n) = false <-> (0 <= bound -> n <= bound).
Proof. rewrite andb_false_iff, Z.leb_gt, Z.ltb_ge. lia. Qed.

Section WithDouble.
Context {double : Type}.

(** The filter accepts a plugin exactly when the category, author and the
    four port-count bounds hold. *)
Lemma matchesCriteria_spec (plugin : PluginInfo double) (c : PluginSearchCriteria) :
  matchesCriteria plugin c = true <-> satisfies_checked_criteria plugin c.
Proof.
  unfold matchesCriteria, satisfies_checked_criteria. cbv zeta.
  set (n_in := Z.of_nat (length (audio_inputs (ports plugin)))).
  set (n_out := Z.of_nat (length (audio_outputs (ports plugin)))).
  assert (0 <= n_in) by apply Nat2Z.is_nonneg.
  assert (0 <= n_out) by apply Nat2Z.is_nonneg.
  transitivity
    ((category c <> EmptyString ->
        existsb (fun cat => contains (toLower cat) (toLower (category c)))
          (info_category plugin) = true) /\
     (author c <> EmptyString ->
        contains (toLower (author_name (info_author plugin))) (toLower (author c)) = true) /\
     (0 <= min_audio_inputs c -> min_audio_inputs c <= n_in) /\
     (0 <= min_audio_outputs c -> min_audio_outputs c <= n_out) /\
     (0 <= max_audio_inputs c -> n_in <= max_audio_inputs c) /\
     (0 <= max_audio_outputs c -> n_out <= max_audio_outputs c)).
  - rewrite <- !string_guard.
    rewrite <- (min_guard (min_audio_inputs c) n_in) by done.
    rewrite <- (min_guard (min_audio_outputs c) n_out) by done.
    rewrite <- (max_guard (max_audio_inputs c) n_in).
    rewrite <- (max_guard (max_audio_outputs c) n_out).
    repeat match goal with
           | |- context [if ?g then false else _] => destruct g
           end; intuition congruence.
  - rewrite existsb_exists. unfold ci_substring.
    setoid_rewrite contains_spec. reflexivity.
Qed.

Lemma filterPlugins_spec (c : PluginSearchCriteria)
  (catalog : gmap string (PluginInfo double)) (plugin : PluginInfo double) :
  In plugin (filterPlugins c catalog) <->
  (exists uri, catalog !! uri = Some plugin) /\ satisfies_checked_criteria plugin c.
Proof.
  unfold filterPlugins. rewrite filter_In, in_map_iff, matchesCriteria_spec.
  split; intros [Hcat Hsat]; (split; [|done]).
  - destruct Hcat as ([uri p] & <- & Hin). exists uri.
    by apply elem_of_map_to_list, list_elem_of_In.
  - destruct Hcat as [uri Huri]. exists (uri, plugin). split; [done|].
    by apply list_elem_of_In, elem_of_map_to_list.
Qed.

End WithDouble.

(** C6 (amended): a search with criteria returns exactly the catalog entries
    that satisfy the category and author substrings (case-insensitive, when
    non-empty) and the audio port-count bounds (when not negative); the
    required-parameter field of the criteria takes no part. *)
Theorem C6_criteria_search_ignores_has_parameter :
  forall (double : Type) (st : Bridge double) (query : string)
         (c : PluginSearchCriteria),
    search_engine_ st = true ->
    exists results,
      PluginManager.process_search_plugins (mk_search query (Some c)) st =
      (Return (SearchPluginsResponse results), st) /\
      forall plugin,
        In plugin results <->
        (exists uri, available_plugins_ st !! uri = Some plugin) /\
        Spec.satisfies_checked_criteria plugin c.
Proof.
  intros double st query c Hengine.
  exists (PluginSearchEngine.filterPlugins c (available_plugins_ st)). split.
  - unfold PluginManager.process_search_plugins, mbind, M_bind, bind, get.
    rewrite Hengine. reflexivity.
  - apply filterPlugins_spec.
Qed.

(** A search for category "rev" with at least one audio input over the two
    sample plugins. *)
Lemma C6_witness :
  let st := Samples.process {[ "urn:foo" := Samples.foo; "urn:bar" := Samples.bar ]}
              ∅ None [] in
  let c := mk_criteria "rev" EmptyString 1 (-1) (-1) (-1) false EmptyString [] in
  search_engine_ st = true /\
  exists results,
    PluginManager.process_search_plugins (mk_search EmptyString (Some c)) st =
    (Return (SearchPluginsResponse results), st) /\
    forall plugin,
      In plugin results <->
      (exists uri, available_plugins_ st !! uri = Some plugin) /\
      Spec.satisfies_checked_criteria plugin c.
Proof.
  cbv zeta. split; [reflexivity|].
  apply (C6_criteria_search_ignores_has_parameter Samples.double). reflexivity.
Defined.

(** A search that requires a parameter matching "gain" returns the sample
    plugin, which has no control port at all. *)
Lemma C6_counterexample :
  let st := Samples.process {[ "urn:foo" := Samples.foo ]} ∅ None [] in
  let c := mk_criteria EmptyString EmptyString (-1) (-1) (-1) (-1) false "gain" [] in
  PluginManager.process_search_plugins (mk_search EmptyString (Some c)) st =
  (Return (SearchPluginsResponse [Samples.foo]), st) /\
  ~ Spec.satisfies_criteria Samples.foo c.
Proof.
  cbv zeta. split; [vm_compute; reflexivity|].
  intros (_ & _ & Hparam & _).
  destruct Hparam as (port & Hin & _); [discriminate|].
  cbn in Hin. exact Hin.
Qed.

End SearchFacts.

(** ** The plugin registry *)

Module RegistryFacts.
Import Cxx Types PluginTypes Runtime PluginManager Spec CommandClientFacts.

Section WithPlatform.
Context {double : Type} `{!Platform double}.

Local Abbreviation Bridge := (Runtime.Bridge double).

(** *** What one engine exchange does to the process *)

Lemma send_to_modhost_returns (command : string) (st : Bridge) :
  exists result, fst (send_to_modhost command st) = Return result.
Proof.
  unfold send_to_modhost, bind, get, modify, ret, mark_command_connection.
  destruct (engine st) as [|[] ?]; cbn; try destruct (empty _); eauto.
Qed.

(** The exchange leaves the registry and the PUB socket alone. *)
Lemma send_to_modhost_frame (command : string) (st : Bridge) :
  let st' := snd (send_to_modhost command st) in
  instances_ st' = instances_ st /\ pub_wire st' = pub_wire st /\
  available_plugins_ st' = available_plugins_ st /\ pub_socket_ st' = pub_socket_ st.
Proof.
  unfold send_to_modhost, bind, get, modify, ret, mark_command_connection.
  destruct (engine st) as [|[] ?]; cbn; try destruct (empty _); done.
Qed.

Lemma send_to_modhost_answer (command bytes : string) (coming : list Exchange)
  (st : Bridge) :
  engine st = recv_data bytes :: coming ->
  fst (send_to_modhost command st) =
  Return (if empty bytes then None else Some (read_response bytes)).
Proof.
  intros E. unfold send_to_modhost, bind, get, modify, ret, mark_command_connection.
  rewrite E. cbn. by destruct (empty bytes).
Qed.

(** Without data from the engine there is no result. *)
Lemma send_to_modhost_no_answer (command : string) (st : Bridge) :
  (forall bytes coming, engine st <> recv_data bytes :: coming) ->
  fst (send_to_modhost command st) = Return None.
Proof.
  intros E. unfold send_to_modhost, bind, get, modify, ret, mark_command_connection.
  destruct (engine st) as [|[] ?]; try reflexivity. by destruct (E bytes l).
Qed.

(** *** Rescan *)

Lemma fetch_detailed_throws (scanner : Scanner double) (uris : list string) :
  forall new_plugins,
    (exists uri what, In uri uris /\ get_plugin_info scanner uri = Throw what) ->
    exists what, fetch_detailed scanner uris new_plugins = Throw what.
Proof.
  induction uris as [|uri uris IH]; intros new_plugins (bad & what & Hin & Hbad).
  - destruct Hin.
  - cbn [fetch_detailed].
    destruct (get_plugin_info scanner uri) as [[detailed|]|what'] eqn:E; [| |eauto].
    + apply IH. destruct Hin as [->|Hin]; [congruence|eauto].
    + apply IH. destruct Hin as [->|Hin]; [congruence|eauto].
Qed.

Lemma rescan_pipeline_throws (scanner : Scanner double) (has_validator : bool) :
  adapter_throws scanner ->
  exists what, rescan_pipeline scanner has_validator = Throw what.
Proof.
  unfold rescan_pipeline.
  intros [[what ->]|(mini & uri & what & -> & [info Huri] & Hbad)]; [eauto|].
  destruct (fetch_detailed_throws scanner (map fst (map_to_list mini)) ∅)
    as [what' ->]; [|eauto].
  exists uri, what. split; [|done].
  apply in_map_iff. exists (uri, info). split; [done|].
  by apply list_elem_of_In, elem_of_map_to_list.
Qed.

(** The event a completed rescan publishes. *)
Lemma rescan_plugins_outcome (st : Bridge) (scanner : Scanner double) :
  plugin_scanner_ st = Some scanner ->
  match rescan_pipeline scanner (plugin_validator_ st) with
  | Throw _ => rescan_plugins st = (Return tt, st)
  | Return validated =>
      fst (rescan_plugins st) = Return tt /\
      available_plugins_ (snd (rescan_plugins st)) = validated /\
      instances_ (snd (rescan_plugins st)) = instances_ st /\
      pub_wire (snd (rescan_plugins st)) =
      pub_wire st ++
      (if pub_socket_ st
       then [json_set "data"
               (json_set "plugin_count" (JInt (Z.of_nat (size validated))) JNull)
               (json_set "timestamp" (JInt (system_clock st))
                  (json_set "type" (JString "plugins_rescanned") JNull))]
       else [])
  end.
Proof.
  intros Hs. unfold rescan_plugins, mbind, M_bind, bind, get, try_catch, lift.
  rewrite Hs.
  destruct (rescan_pipeline scanner (plugin_validator_ st)) as [validated|what];
    [|reflexivity].
  unfold publish_event, mbind, M_bind, bind, get, modify, ret. cbn.
  destruct (pub_socket_ st); cbn; rewrite ?app_nil_r; done.
Qed.

Lemma rescan_plugins_returns (st : Bridge) : fst (rescan_plugins st) = Return tt.
Proof.
  destruct (plugin_scanner_ st) as [scanner|] eqn:Hs.
  - pose proof (rescan_plugins_outcome st scanner Hs) as H.
    destruct (rescan_pipeline _ _); [by destruct H|by rewrite H].
  - unfold rescan_plugins, mbind, M_bind, bind, get. by rewrite Hs.
Qed.

(** The two numbers of the response are the difference of the catalog sizes
    and its opposite. *)
Lemma process_rescan_plugins_counts (st : Bridge) :
  let old_count := Z.of_nat (size (available_plugins_ st)) in
  let new_count := Z.of_nat (size (available_plugins_ (snd (rescan_plugins st)))) in
  process_rescan_plugins st =
  (Return (RescanPluginsResponse "ok" (new_count - old_count) (old_count - new_count)),
   snd (rescan_plugins st)).
Proof.
  unfold process_rescan_plugins, mbind, M_bind, bind, get.
  pose proof (rescan_plugins_returns st) as H.
  destruct (rescan_plugins st) as [[[]|what] st']; [reflexivity|discriminate].
Qed.

(** *** Loading a plugin *)

Lemma set_random_device_same (st : Bridge) : set_random_device (random_device st) st = st.
Proof. by destruct st. Qed.

Lemma draw_spec (st : Bridge) :
  exists d rd, draw st = (Return d, set_random_device rd st).
Proof.
  unfold draw. unfold mbind, M_bind, bind, get, modify, ret.
  destruct (random_device st) as [|d ds] eqn:E.
  - exists 0, []. by rewrite <- E, set_random_device_same.
  - eauto.
Qed.

Lemma draw_hex_spec (n : nat) :
  forall st : Bridge,
    exists digits rd, draw_hex n st = (Return digits, set_random_device rd st).
Proof.
  induction n as [|n IH]; intros st.
  - exists EmptyString, (random_device st). cbn. unfold ret.
    by rewrite set_random_device_same.
  - cbn [draw_hex]. unfold mbind, M_bind, bind.
    destruct (draw_spec st) as (d & rd & ->).
    destruct (IH (set_random_device rd st)) as (digits & rd' & ->).
    unfold ret. eauto.
Qed.

Lemma generate_instance_id_spec (st : Bridge) :
  exists id rd, generate_instance_id st = (Return id, set_random_device rd st).
Proof.
  unfold generate_instance_id, mbind, M_bind, bind, get.
  destruct (draw_hex_spec 8 st) as (digits & rd & ->). cbn. eauto.
Qed.

Lemma parse_rejected (reply : string) :
  malformed_reply reply \/ negative_reply reply ->
  parse_returned_instance reply = Throw "Failed to parse mod-host response".
Proof.
  unfold parse_returned_instance, malformed_reply, negative_reply.
  change (match find "resp " reply with
          | Some pos => substr (pos + 5) reply
          | None => reply
          end) with (after_resp reply).
  intros [Hbad|(n & Hn & Hneg)].
  - destruct (stoi (after_resp reply)) as [n| |]; [by destruct (Hbad n)|done|done].
  - rewrite Hn. apply Z.ltb_lt in Hneg. by rewrite Hneg.
Qed.

Lemma load_rejected (req : LoadPluginRequest double) (info : PluginInfo double)
  (bytes : string) (coming : list Exchange) (st : Bridge) :
  available_plugins_ st !! load_uri req = Some info ->
  engine st = recv_data bytes :: coming ->
  malformed_reply (read_response bytes) \/ negative_reply (read_response bytes) ->
  (exists what, fst (process_load_plugin req st) = Throw what) /\
  pub_wire (snd (process_load_plugin req st)) = pub_wire st /\
  instances_ (snd (process_load_plugin req st)) = instances_ st /\
  command_port (snd (process_load_plugin req st)) =
  command_port st ++ ["add " +:+ load_uri req +:+ " " +:+ to_string (next_instance st)].
Proof.
  intros Hcat Hengine Hbad.
  unfold process_load_plugin, mbind, M_bind, bind, get. rewrite Hcat.
  destruct (generate_instance_id_spec st) as (id & rd & ->).
  unfold get_next_numeric_instance, mbind, M_bind, bind, get, modify, ret.
  cbn [next_instance set_random_device].
  set (st2 := set_next_instance (next_instance st + 1) (set_random_device rd st)).
  set (command := "add " +:+ load_uri req +:+ " " +:+ to_string (next_instance st)).
  assert (E2 : engine st2 = recv_data bytes :: coming) by exact Hengine.
  pose proof (send_to_modhost_answer command bytes coming st2 E2) as Hans.
  pose proof (send_to_modhost_frame command st2) as (Hi & Hp & _).
  pose proof (send_to_modhost_written command (recv_data bytes) coming st2) as Hw.
  destruct (send_to_modhost command st2) as [result st3].
  cbn [fst snd] in Hans, Hi, Hp, Hw. subst result.
  assert (Hport : command_port st3 = command_port st ++ [command]).
  { rewrite Hw; [done| |done]. right; right; eauto. }
  destruct (empty bytes).
  - unfold throw. cbn [fst snd]. rewrite Hp, Hi, Hport. split; [eauto|done].
  - unfold lift. rewrite (parse_rejected _ Hbad). cbn [fst snd].
    rewrite Hp, Hi, Hport. split; [eauto|done].
Qed.

(** *** Parameters *)

Lemma publish_event_frame (event_type : string) (payload : Json double) (st : Bridge) :
  fst (publish_event event_type payload st) = Return tt /\
  instances_ (snd (publish_event event_type payload st)) = instances_ st.
Proof.
  unfold publish_event, mbind, M_bind, bind, get, modify, ret.
  by destruct (pub_socket_ st).
Qed.

Lemma set_parameter_outcome (req : SetParameterRequest double) (st : Bridge) :
  match fst (process_set_parameter req st) with
  | Throw _ =>
      instances_ (snd (process_set_parameter req st)) = instances_ st /\
      pub_wire (snd (process_set_parameter req st)) = pub_wire st
  | Return response =>
      response = SetParameterResponse "ok" (sp_requested req) /\
      is_Some (instances_ st !! sp_instance_id req) /\
      (exists bytes coming, engine st = recv_data bytes :: coming) /\
      instances_ (snd (process_set_parameter req st)) =
      alter (set_parameter_value (sp_parameter req) (sp_requested req))
        (sp_instance_id req) (instances_ st)
  end.
Proof.
  unfold process_set_parameter, mbind, M_bind, bind, get.
  destruct (instances_ st !! sp_instance_id req) as [instance|] eqn:Hinst;
    [|by cbn].
  set (command := _ +:+ _).
  pose proof (send_to_modhost_frame command st) as (Hi & Hp & _).
  assert (Hdata : forall body, fst (send_to_modhost command st) = Return (Some body) ->
                    exists bytes coming, engine st = recv_data bytes :: coming).
  { intros body Hres. destruct (engine st) as [|e coming] eqn:E.
    - rewrite send_to_modhost_no_answer in Hres; [done|]. intros ? ?. by rewrite E.
    - destruct e; try (rewrite send_to_modhost_no_answer in Hres;
                       [done|intros ? ?; rewrite E; congruence]).
      eauto. }
  destruct (send_to_modhost command st) as [[[body|]|what] st2];
    cbn [fst snd] in *; [|done|done].
  unfold modify. cbn [fst snd].
  match goal with |- context [publish_event ?t ?p ?s] =>
    pose proof (publish_event_frame t p s) as [Hr Hf];
    destruct (publish_event t p s) as [[[]|what] st3]
  end; cbn [fst snd] in *; [|discriminate].
  unfold ret. cbn [fst snd]. rewrite Hf. cbn [instances_ set_instances]. rewrite Hi.
  split; [done|]. split; [by eauto|]. split; [by eauto|done].
Qed.

Lemma stored_after_alter (st st' : Bridge) (id parameter : string) (value : double) :
  is_Some (instances_ st !! id) ->
  instances_ st' = alter (set_parameter_value parameter value) id (instances_ st) ->
  stored_parameter st' id parameter = Some value.
Proof.
  unfold stored_parameter. intros [instance Hinst] ->.
  rewrite lookup_alter_eq, Hinst. cbn. apply lookup_insert_eq.
Qed.

Lemma send_initial_parameters_frame (id : string) (params : list (string * double)) :
  forall st : Bridge,
    fst (send_initial_parameters id params st) = Return tt /\
    instances_ (snd (send_initial_parameters id params st)) = instances_ st.
Proof.
  induction params as [|[param value] params IH]; intros st; [done|].
  cbn [send_initial_parameters]. unfold mbind, M_bind, bind.
  match goal with |- context [send_to_modhost ?c st] =>
    destruct (send_to_modhost_returns c st) as [result Hres];
    pose proof (send_to_modhost_frame c st) as (Hi & _);
    destruct (send_to_modhost c st) as [o st1]
  end.
  cbn [fst snd] in *. subst o. destruct (IH st1) as [Hr Hf].
  by rewrite Hr, Hf, Hi.
Qed.

(** A successful load stores the instance with the parameter map of the
    request, whatever became of the initial [param_set] commands. *)
Lemma load_stores_request_parameters (req : LoadPluginRequest double) (st : Bridge)
  (id : string) (instance : PluginInstance double) :
  fst (process_load_plugin req st) = Return (LoadPluginResponse id instance) ->
  instances_ (snd (process_load_plugin req st)) !! id = Some instance /\
  parameters instance = load_parameters req.
Proof.
  unfold process_load_plugin, mbind, M_bind, bind, get.
  destruct (available_plugins_ st !! load_uri req) as [info|]; [|done].
  destruct (generate_instance_id_spec st) as (id0 & rd & ->).
  unfold get_next_numeric_instance, mbind, M_bind, bind, get, modify, ret.
  cbn [next_instance set_random_device].
  destruct (send_to_modhost _ _) as [[[reply|]|what] st3]; [|done|done].
  unfold lift. destruct (parse_returned_instance reply) as [n|what]; [|done].
  match goal with |- context [send_initial_parameters ?i ?ps st3] =>
    destruct (send_initial_parameters_frame i ps st3) as [Hr Hf];
    destruct (send_initial_parameters i ps st3) as [o st4]
  end.
  cbn [fst snd] in Hr, Hf. subst o.
  match goal with |- context [publish_event ?t ?p ?s] =>
    pose proof (publish_event_frame t p s) as [Hpr Hpf];
    destruct (publish_event t p s) as [[[]|what] st5]
  end; cbn [fst snd] in *; [|discriminate].
  intros [= <- <-]. rewrite Hpf. cbn [instances_ set_instances parameters].
  split; [apply lookup_insert_eq|reflexivity].
Qed.

(** *** The feedback reader and the registry *)

Lemma process_received_frame (u : Parser.Indeterminate double) (bytes : string) :
  forall st : Bridge,
    fst (FeedbackReader.process_received u bytes st) = Return tt /\
    instances_ (snd (FeedbackReader.process_received u bytes st)) = instances_ st.
Proof.
  induction bytes as [|c bytes IH]; intros st; [done|].
  cbn [FeedbackReader.process_received].
  unfold mbind, M_bind, bind, get, modify, ret, FeedbackReader.publish_record.
  destruct (Ascii.eqb c NUL).
  - destruct (negb (empty (line_buffer st))).
    + destruct (Parser.parse_feedback_line u (line_buffer st)) as [message|].
      * unfold modify. cbn [fst snd]. destruct (IH (set_line_buffer EmptyString
          (set_pub_wire (pub_wire st ++ [to_json_feedback message]) st))) as [-> ->].
        done.
      * unfold ret. cbn [fst snd].
        destruct (IH (set_line_buffer EmptyString st)) as [-> ->]. done.
    + destruct (IH st) as [-> ->]. done.
  - cbn [fst snd].
    destruct (IH (set_line_buffer (line_buffer st +:+ String c EmptyString) st))
      as [-> ->]. done.
Qed.

Lemma process_chunks_frame (u : Parser.Indeterminate double) (chunks : list string) :
  forall st : Bridge,
    fst (FeedbackReader.process_chunks u chunks st) = Return tt /\
    instances_ (snd (FeedbackReader.process_chunks u chunks st)) = instances_ st.
Proof.
  induction chunks as [|bytes chunks IH]; intros st; [done|].
  cbn [FeedbackReader.process_chunks]. unfold mbind, M_bind, bind.
  destruct (process_received_frame u bytes st) as [Hr Hf].
  destruct (FeedbackReader.process_received u bytes st) as [o st1].
  cbn [fst snd] in *. subst o. destruct (IH st1) as [-> ->]. done.
Qed.

(** Whatever the engine sends on the feedback port, the instances and their
    parameter maps are as before. *)
Lemma connection_frame (u : Parser.Indeterminate double) (chunks : list string)
  (st : Bridge) :
  instances_ (snd (FeedbackReader.connection u chunks st)) = instances_ st.
Proof.
  unfold FeedbackReader.connection, mbind, M_bind, bind, mark_feedback_connection, modify.
  match goal with |- context [FeedbackReader.process_chunks u chunks ?s] =>
    destruct (process_chunks_frame u chunks s) as [Hr Hf];
    destruct (FeedbackReader.process_chunks u chunks s) as [o st1]
  end.
  cbn [fst snd] in *. subst o. cbn [snd instances_ set_health]. by rewrite Hf.
Qed.

End WithPlatform.

(** C10: when the scan, or the info fetch for one of the scanned URIs,
    throws, [rescan_plugins] leaves the process as it was, so the catalog is
    the one from before and nothing is published, and the same holds for the
    [rescan_plugins] request; and whenever a rescan changes the catalog or
    publishes, the scan, fetch and validation pipeline ran to its end and the
    catalog is its result. *)
Theorem C10_failed_rescan_leaves_catalog_and_bus :
  forall (double : Type) (P : Platform double) (st : Runtime.Bridge double)
         (scanner : Scanner double),
    plugin_scanner_ st = Some scanner ->
    (adapter_throws scanner ->
       rescan_plugins st = (Return tt, st) /\
       available_plugins_ (snd (process_rescan_plugins st)) = available_plugins_ st /\
       pub_wire (snd (process_rescan_plugins st)) = pub_wire st) /\
    (available_plugins_ (snd (rescan_plugins st)) <> available_plugins_ st \/
     pub_wire (snd (rescan_plugins st)) <> pub_wire st ->
       exists validated,
         rescan_pipeline scanner (plugin_validator_ st) = Return validated /\
         available_plugins_ (snd (rescan_plugins st)) = validated).
Proof.
  intros double P st scanner Hs.
  pose proof (rescan_plugins_outcome st scanner Hs) as Hout. split.
  - intros Hthrow.
    destruct (rescan_pipeline_throws scanner (plugin_validator_ st) Hthrow) as [what Hw].
    rewrite Hw in Hout. split; [exact Hout|].
    rewrite process_rescan_plugins_counts. cbn [snd]. by rewrite Hout.
  - intros Hchanged.
    destruct (rescan_pipeline scanner (plugin_validator_ st)) as [validated|what].
    + exists validated. split; [done|]. by destruct Hout as (_ & -> & _).
    + rewrite Hout in Hchanged. cbn in Hchanged. by destruct Hchanged.
Qed.

(** The info fetch for the one scanned URI throws: the catalog and the bus
    stay as they were. *)
Lemma C10_witness :
  let st := Samples.process {[ "urn:foo" := Samples.foo ]} ∅
              (Some Samples.fetch_throws) [] in
  plugin_scanner_ st = Some Samples.fetch_throws /\
  adapter_throws Samples.fetch_throws /\
  rescan_plugins st = (Return tt, st) /\
  available_plugins_ (snd (process_rescan_plugins st)) = available_plugins_ st /\
  pub_wire (snd (process_rescan_plugins st)) = pub_wire st.
Proof.
  cbv zeta.
  assert (Ht : adapter_throws Samples.fetch_throws).
  { right. exists {[ "urn:bar" := Samples.bar ]}, "urn:bar", "Plugin scanner not initialized".
    split; [reflexivity|]. split; [|reflexivity]. exists Samples.bar. reflexivity. }
  split; [reflexivity|]. split; [exact Ht|].
  exact (proj1 (C10_failed_rescan_leaves_catalog_and_bus Samples.double Decimal6.platform
                  (Samples.process {[ "urn:foo" := Samples.foo ]} ∅
                     (Some Samples.fetch_throws) [])
                  Samples.fetch_throws eq_refl) Ht).
Defined.

(** C5: the two numbers [process_rescan_plugins] reports are the growth of
    the catalog size and its opposite, whatever the rescan found; on a catalog
    holding one plugin, a rescan that finds one other plugin instead reports
    0 added and 0 removed, where one URI was added and one removed. *)
Theorem C5_rescan_reports_size_difference :
  (forall (double : Type) (P : Platform double) (st : Runtime.Bridge double),
     exists (n : Z) (st' : Runtime.Bridge double),
       process_rescan_plugins st = (Return (RescanPluginsResponse "ok" n (- n)), st')) /\
  (let st := Samples.process {[ "urn:foo" := Samples.foo ]} ∅
               (Some Samples.finds_bar) [] in
   let st' := snd (process_rescan_plugins st) in
   fst (process_rescan_plugins st) = Return (RescanPluginsResponse "ok" 0 0) /\
   available_plugins_ st' = {[ "urn:bar" := Samples.bar ]} /\
   added_count (available_plugins_ st) (available_plugins_ st') = 1 /\
   removed_count (available_plugins_ st) (available_plugins_ st') = 1).
Proof.
  split.
  - intros double P st. eexists _, _. rewrite process_rescan_plugins_counts.
    cbv zeta. do 2 f_equal. f_equal. lia.
  - vm_compute. repeat split.
Qed.

(** C7 (amended): the reply to the [add] command is read with the "resp "
    prefix optional: behind the first "resp " when there is one, from the
    start of the reply otherwise.  When the plugin is in the catalog and no
    integer can be read there, or a negative one is read,
    [process_load_plugin] throws, nothing is published on the bus, and the
    instance map is the one from before; the command that went out is
    [add <uri> <n>] with the counter value.  For a reply that holds "resp "
    this is the malformed reply of the claim: no integer behind "resp ". *)
Theorem C7_rejected_add_leaves_registry_and_bus :
  forall (double : Type) (P : Platform double),
    (forall (req : LoadPluginRequest double) (info : PluginInfo double)
            (bytes : string) (coming : list Exchange) (st : Runtime.Bridge double),
       available_plugins_ st !! load_uri req = Some info ->
       engine st = recv_data bytes :: coming ->
       malformed_reply (read_response bytes) \/ negative_reply (read_response bytes) ->
       (exists what, fst (process_load_plugin req st) = Throw what) /\
       pub_wire (snd (process_load_plugin req st)) = pub_wire st /\
       instances_ (snd (process_load_plugin req st)) = instances_ st /\
       command_port (snd (process_load_plugin req st)) =
       command_port st ++
       ["add " +:+ load_uri req +:+ " " +:+ to_string (next_instance st)]) /\
    (forall reply : string,
       is_Some (find "resp " reply) ->
       (no_integer_after_resp reply <-> malformed_reply reply)).
Proof.
  intros double P. split.
  - intros req info bytes coming st Hcat Hengine Hbad.
    exact (load_rejected req info bytes coming st Hcat Hengine Hbad).
  - intros reply [pos Hpos]. unfold no_integer_after_resp, malformed_reply, after_resp.
    rewrite Hpos. split.
    + intros Hnone n. by apply Hnone.
    + intros Hnone pos' n [= <-]. apply Hnone.
Qed.

(** The engine answers "resp -3" to the load of the sample plugin. *)
Lemma C7_witness :
  let st := Samples.process {[ "urn:foo" := Samples.foo ]} ∅ None [recv_data "resp -3"] in
  let req := mk_load "urn:foo" 10 20 ∅ in
  available_plugins_ st !! load_uri req = Some Samples.foo /\
  engine st = [recv_data "resp -3"] /\
  negative_reply (read_response "resp -3") /\
  (exists what, fst (process_load_plugin req st) = Throw what) /\
  pub_wire (snd (process_load_plugin req st)) = pub_wire st /\
  instances_ (snd (process_load_plugin req st)) = instances_ st /\
  command_port (snd (process_load_plugin req st)) =
  command_port st ++ ["add " +:+ load_uri req +:+ " " +:+ to_string (next_instance st)].
Proof.
  cbv zeta.
  assert (Hneg : negative_reply (read_response "resp -3")).
  { exists (-3). split; [vm_compute; reflexivity|lia]. }
  split; [reflexivity|]. split; [reflexivity|]. split; [exact Hneg|].
  exact (proj1 (C7_rejected_add_leaves_registry_and_bus Samples.double Decimal6.platform)
           (mk_load "urn:foo" 10 20 ∅) Samples.foo "resp -3" []
           (Samples.process {[ "urn:foo" := Samples.foo ]} ∅ None [recv_data "resp -3"])
           eq_refl eq_refl (or_intror Hneg)).
Defined.

(** The engine answers "42", a reply with no "resp " and so with no integer
    behind one: the load does not fail, the instance is stored with engine
    instance 42, and [plugin_loaded] is published. *)
Lemma C7_counterexample :
  let st := Samples.process {[ "urn:foo" := Samples.foo ]} ∅ None [recv_data "42"] in
  let req : LoadPluginRequest Samples.double := mk_load "urn:foo" 10 20 ∅ in
  let st' := snd (process_load_plugin req st) in
  available_plugins_ st !! load_uri req = Some Samples.foo /\
  engine st = [recv_data "42"] /\
  no_integer_after_resp (read_response "42") /\
  ~ (exists what, fst (process_load_plugin req st) = Throw what) /\
  pub_wire st' <> pub_wire st /\
  instances_ st' <> instances_ st /\
  host_instance <$> instances_ st' !! "plugin_0_00000000" = Some (Some 42).
Proof.
  cbv zeta. split; [reflexivity|]. split; [reflexivity|]. split; [|split; [|split; [|split]]].
  - intros pos n Hpos. vm_compute in Hpos. discriminate.
  - intros [what Hwhat]. vm_compute in Hwhat. discriminate.
  - intros Hsame. apply (f_equal (@length _)) in Hsame. vm_compute in Hsame. discriminate.
  - intros Hsame. apply (f_equal (fun m => size m)) in Hsame. vm_compute in Hsame.
    discriminate.
  - vm_compute. reflexivity.
Qed.

(** The engine reports gain 0.25 for engine instance 7 on the feedback port:
    the record is published, and the instance with that engine instance still
    stores 0.5.  And a load whose initial [param_set] finds the engine gone
    (only the [add] command is written) stores the requested 0.5 all the
    same. *)
Lemma C3_counterexample :
  let st := Samples.process {[ "urn:foo" := Samples.foo ]}
              {[ "plugin_0_00000000" := Samples.loaded ]} None [] in
  let record := "param_set 7 gain 0.25" +:+ String NUL EmptyString in
  let st' := snd (FeedbackReader.connection Samples.zeros [record] st) in
  let st2 := Samples.process {[ "urn:foo" := Samples.foo ]} ∅ None
               [recv_data "resp 0"; connect_fails] in
  let req := mk_load "urn:foo" 0 0 {[ "gain" := 500000 ]} in
  let st2' := snd (process_load_plugin req st2) in
  (host_instance Samples.loaded = Some 7 /\
   pub_wire st' = [to_json_feedback (ParamSet 7 "gain" 250000)] /\
   stored_parameter st' "plugin_0_00000000" "gain" = Some 500000 /\
   (500000 : Samples.double) <> 250000) /\
  (command_port st2' = ["add urn:foo 0"] /\
   engine st2' = [] /\
   stored_parameter st2' "plugin_0_00000000" "gain" = Some 500000).
Proof. vm_compute. repeat split; discriminate. Qed.

End RegistryFacts.

(** ** The validator and the catalog a rescan builds *)

Module CatalogFacts.
Import Cxx Types PluginTypes Runtime PluginValidator PluginManager Spec Props.

Section WithPlatform.
Context {double : Type} `{!Platform double}.

Lemma checkAudioPorts_accepts (plugin : PluginInfo double) :
  fst (checkAudioPorts plugin) = true <->
  (length (audio_inputs (ports plugin)) <= 8)%nat /\
  (length (audio_outputs (ports plugin)) <= 8)%nat /\
  (0 < length (audio_inputs (ports plugin)) + length (audio_outputs (ports plugin)))%nat.
Proof.
  unfold checkAudioPorts, max_audio_ports. cbv zeta.
  destruct (8 <? Z.of_nat (length (audio_inputs (ports plugin)))) eqn:E1;
  destruct (8 <? Z.of_nat (length (audio_outputs (ports plugin)))) eqn:E2;
  destruct ((Z.of_nat (length (audio_inputs (ports plugin))) =? 0) &&
            (Z.of_nat (length (audio_outputs (ports plugin))) =? 0)) eqn:E3;
  cbn [fst app];
  rewrite ?Z.ltb_lt, ?Z.ltb_ge in E1, E2;
  rewrite ?andb_true_iff, ?andb_false_iff, ?Z.eqb_eq, ?Z.eqb_neq in E3;
  split; try discriminate; try lia.
Qed.

Lemma range_errors_none (params : list (PluginPort double)) :
  range_errors params = [] <->
  forall port, In port params -> double_gt (min_value port) (max_value port) = false.
Proof.
  unfold range_errors. induction params as [|param params IH]; cbn [flat_map].
  - split; [intros _ port []|done].
  - destruct (double_gt (min_value param) (max_value param)) eqn:E; cbn [app].
    + split; [discriminate|]. intros H. specialize (H param (or_introl eq_refl)).
      congruence.
    + rewrite IH. split.
      * intros H port [<-|Hin]; [done|by apply H].
      * intros H port Hin. apply H. by right.
Qed.

Lemma checkControlPorts_accepts (plugin : PluginInfo double) :
  fst (checkControlPorts plugin) = true <->
  forall port,
    In port (control_inputs (ports plugin) ++ control_outputs (ports plugin)) ->
    double_gt (min_value port) (max_value port) = false.
Proof.
  unfold checkControlPorts. cbv zeta. cbn [fst].
  transitivity (range_errors (control_inputs (ports plugin)) ++
                range_errors (control_outputs (ports plugin)) = []).
  - destruct (range_errors _ ++ range_errors _); split; done.
  - split.
    + intros [H1 H2]%app_eq_nil port [Hin|Hin]%in_app_iff;
        [by apply (proj1 (range_errors_none _) H1)|by apply (proj1 (range_errors_none _) H2)].
    + intros H.
      rewrite (proj2 (range_errors_none (control_inputs (ports plugin)))),
              (proj2 (range_errors_none (control_outputs (ports plugin)))); [done|..];
        intros port Hin; apply H, in_app_iff; [by right|by left].
Qed.

(** X1: the validator accepts a plugin exactly when it has at most eight
    audio inputs, at most eight audio outputs, at least one audio port, and
    no control port, input or output, whose minimum is above its maximum. *)
Theorem validatePlugin_accepts_exactly :
  forall plugin : PluginInfo double,
    is_valid (validatePlugin plugin) = true <-> acceptable plugin.
Proof.
  intros plugin. unfold validatePlugin, acceptable.
  change (isKnownIncompatible (uri plugin)) with false. cbv iota.
  rewrite <- checkControlPorts_accepts.
  pose proof (checkAudioPorts_accepts plugin) as Ha.
  destruct (checkAudioPorts plugin) as [audio_ok audio_errors].
  destruct (checkControlPorts plugin) as [control_ok control_errors].
  cbn [fst] in *. unfold checkLv2Features.
  destruct audio_ok, control_ok; cbn; split; try discriminate; tauto.
Qed.

(** *** What a completed rescan leaves in the catalog *)

Lemma fetch_detailed_lookup (scanner : Scanner double) (uris : list string) :
  forall acc fetched,
    fetch_detailed scanner uris acc = Return fetched ->
    forall uri,
      fetched !! uri =
      if decide (uri ∈ uris)
      then match get_plugin_info scanner uri with
           | Return (Some detailed) => Some detailed
           | _ => acc !! uri
           end
      else acc !! uri.
Proof.
  induction uris as [|uri0 uris IH]; intros acc fetched Hf uri.
  - cbn in Hf. injection Hf as <-. by rewrite decide_False by apply not_elem_of_nil.
  - cbn [fetch_detailed] in Hf.
    destruct (get_plugin_info scanner uri0) as [[detailed|]|what] eqn:E0; [| |done].
    + rewrite (IH _ _ Hf uri). destruct (decide (uri = uri0)) as [->|Hne].
      * rewrite (decide_True (P := uri0 ∈ uri0 :: uris)) by apply list_elem_of_here.
        rewrite E0, lookup_insert_eq. by destruct (decide (uri0 ∈ uris)).
      * rewrite lookup_insert_ne by done.
        destruct (decide (uri ∈ uris)) as [Hin|Hnin].
        -- by rewrite decide_True by (by apply list_elem_of_further).
        -- rewrite decide_False; [done|]. by intros [?|?]%elem_of_cons.
    + rewrite (IH _ _ Hf uri). destruct (decide (uri = uri0)) as [->|Hne].
      * rewrite (decide_True (P := uri0 ∈ uri0 :: uris)) by apply list_elem_of_here.
        rewrite E0. by destruct (decide (uri0 ∈ uris)).
      * destruct (decide (uri ∈ uris)) as [Hin|Hnin].
        -- by rewrite decide_True by (by apply list_elem_of_further).
        -- rewrite decide_False; [done|]. by intros [?|?]%elem_of_cons.
Qed.

Lemma fetch_detailed_returns (scanner : Scanner double) (uris : list string) :
  forall acc,
    (forall uri, uri ∈ uris -> exists info, get_plugin_info scanner uri = Return info) ->
    exists fetched, fetch_detailed scanner uris acc = Return fetched.
Proof.
  induction uris as [|uri0 uris IH]; intros acc Hall; [by eexists|].
  cbn [fetch_detailed].
  destruct (Hall uri0) as [info ->]; [apply list_elem_of_here|].
  destruct info as [detailed|]; apply IH; intros uri Hin;
    apply Hall; by apply list_elem_of_further.
Qed.

Lemma scanned_uris (mini : gmap string (PluginInfo double)) (uri : string) :
  uri ∈ map fst (map_to_list mini) <-> is_Some (mini !! uri).
Proof.
  rewrite list_elem_of_In, in_map_iff. split.
  - intros ([uri' info] & <- & Hin). exists info.
    by apply elem_of_map_to_list, list_elem_of_In.
  - intros [info Hinfo]. exists (uri, info). split; [done|].
    by apply list_elem_of_In, elem_of_map_to_list.
Qed.

Lemma rescan_pipeline_answers (scanner : Scanner double)
  (mini : gmap string (PluginInfo double)) :
  adapter_answers scanner mini ->
  exists fetched,
    fetch_detailed scanner (map fst (map_to_list mini)) ∅ = Return fetched /\
    rescan_pipeline scanner true = Return (validate_all true fetched).
Proof.
  intros [Hscan Hinfo].
  destruct (fetch_detailed_returns scanner (map fst (map_to_list mini)) ∅) as [fetched Hf].
  { intros uri Hin. by apply Hinfo, scanned_uris. }
  exists fetched. split; [done|]. unfold rescan_pipeline. by rewrite Hscan, Hf.
Qed.

(** X2: when the discovery adapter answers, the catalog after
    [rescan_plugins] maps a URI to a plugin exactly when the scan listed the
    URI, the info fetch for it returned that plugin, and the validator
    accepts the plugin; nothing of the catalog from before survives
    otherwise. *)
Theorem rescan_catalog_is_validated_scan :
  forall (st : Bridge double) (scanner : Scanner double)
         (mini : gmap string (PluginInfo double)),
    plugin_scanner_ st = Some scanner ->
    plugin_validator_ st = true ->
    adapter_answers scanner mini ->
    forall uri plugin,
      available_plugins_ (snd (rescan_plugins st)) !! uri = Some plugin <->
      is_Some (mini !! uri) /\
      get_plugin_info scanner uri = Return (Some plugin) /\
      is_valid (validatePlugin plugin) = true.
Proof.
  intros st scanner mini Hs Hv Hans uri plugin.
  destruct (rescan_pipeline_answers scanner mini Hans) as (fetched & Hf & Hp).
  pose proof (RegistryFacts.rescan_plugins_outcome st scanner Hs) as Hout.
  rewrite Hv, Hp in Hout. destruct Hout as (_ & -> & _).
  unfold validate_all. rewrite map_lookup_filter_Some. cbn [snd].
  rewrite (fetch_detailed_lookup _ _ _ _ Hf uri).
  rewrite lookup_empty. destruct (decide (uri ∈ map fst (map_to_list mini))) as [Hin|Hnin].
  - apply scanned_uris in Hin.
    destruct (get_plugin_info scanner uri) as [[detailed|]|what].
    + split; [by intros [[= ->] ?]|by intros (_ & [= ->] & ?)].
    + split; [by intros [[=] _]|by intros (_ & [=] & _)].
    + split; [by intros [[=] _]|by intros (_ & [=] & _)].
  - split; [by intros [[=] _]|]. intros (Hsome & _). by apply scanned_uris in Hsome.
Qed.

(** X3: such a rescan returns normally, leaves the loaded instances as they
    were, and puts exactly one [plugins_rescanned] event on the bus (none
    without a PUB socket) whose [plugin_count] is the size of the new
    catalog. *)
Theorem rescan_publishes_new_count :
  forall (st : Bridge double) (scanner : Scanner double)
         (mini : gmap string (PluginInfo double)),
    plugin_scanner_ st = Some scanner ->
    plugin_validator_ st = true ->
    adapter_answers scanner mini ->
    let st' := snd (rescan_plugins st) in
    fst (rescan_plugins st) = Return tt /\
    instances_ st' = instances_ st /\
    pub_wire st' =
    pub_wire st ++
    on_bus st [event "plugins_rescanned" (system_clock st)
                 (JObject {["plugin_count" := JInt (Z.of_nat (size (available_plugins_ st')))]})].
Proof.
  intros st scanner mini Hs Hv Hans.
  destruct (rescan_pipeline_answers scanner mini Hans) as (fetched & Hf & Hp).
  pose proof (RegistryFacts.rescan_plugins_outcome st scanner Hs) as Hout.
  rewrite Hv, Hp in Hout. destruct Hout as (Hr & Hc & Hi & Hw).
  cbv zeta. rewrite Hc. split; [done|]. split; [done|].
  rewrite Hw. unfold on_bus. by destruct (pub_socket_ st).
Qed.

End WithPlatform.

(** The sample adapter that finds [bar] alone, on a catalog holding [foo]. *)
Lemma rescan_catalog_witness :
  let st := Samples.process {[ "urn:foo" := Samples.foo ]} ∅ (Some Samples.finds_bar) [] in
  let mini : gmap string (PluginInfo Samples.double) := {[ "urn:bar" := Samples.bar ]} in
  plugin_scanner_ st = Some Samples.finds_bar /\
  plugin_validator_ st = true /\
  adapter_answers Samples.finds_bar mini /\
  forall uri plugin,
    available_plugins_ (snd (rescan_plugins st)) !! uri = Some plugin <->
    is_Some (mini !! uri) /\
    get_plugin_info Samples.finds_bar uri = Return (Some plugin) /\
    is_valid (validatePlugin plugin) = true.
Proof.
  cbv zeta.
  assert (Ha : adapter_answers Samples.finds_bar {[ "urn:bar" := Samples.bar ]}).
  { split; [reflexivity|]. intros uri _. eexists. reflexivity. }
  split; [reflexivity|]. split; [reflexivity|]. split; [exact Ha|].
  exact (rescan_catalog_is_validated_scan
           (Samples.process {[ "urn:foo" := Samples.foo ]} ∅ (Some Samples.finds_bar) [])
           Samples.finds_bar {[ "urn:bar" := Samples.bar ]} eq_refl eq_refl Ha).
Defined.

Lemma rescan_publishes_witness :
  let st := Samples.process {[ "urn:foo" := Samples.foo ]} ∅ (Some Samples.finds_bar) [] in
  let mini : gmap string (PluginInfo Samples.double) := {[ "urn:bar" := Samples.bar ]} in
  let st' := snd (rescan_plugins st) in
  plugin_scanner_ st = Some Samples.finds_bar /\
  plugin_validator_ st = true /\
  adapter_answers Samples.finds_bar mini /\
  fst (rescan_plugins st) = Return tt /\
  instances_ st' = instances_ st /\
  pub_wire st' =
  pub_wire st ++
  on_bus st [event "plugins_rescanned" (system_clock st)
               (JObject {["plugin_count" := JInt (Z.of_nat (size (available_plugins_ st')))]})].
Proof.
  cbv zeta.
  assert (Ha : adapter_answers Samples.finds_bar {[ "urn:bar" := Samples.bar ]}).
  { split; [reflexivity|]. intros uri _. eexists. reflexivity. }
  split; [reflexivity|]. split; [reflexivity|]. split; [exact Ha|].
  exact (rescan_publishes_new_count
           (Samples.process {[ "urn:foo" := Samples.foo ]} ∅ (Some Samples.finds_bar) [])
           Samples.finds_bar {[ "urn:bar" := Samples.bar ]} eq_refl eq_refl Ha).
Defined.

End CatalogFacts.

(** ** Engine replies *)

Module EngineFacts.
Import Cxx Types PluginTypes Runtime PluginManager Props CommandClientFacts.

Lemma c_str_chars_terminated (s : string) : c_str_chars (c_str s) = c_str_chars s.
Proof.
  unfold c_str. induction s as [|c s IH]; [reflexivity|].
  rewrite append_cons. cbn [c_str_chars]. by rewrite IH.
Qed.

Lemma c_str_chars_no_nul (s : string) : no_nul (c_str_chars s) = true.
Proof.
  induction s as [|c s IH]; [reflexivity|]. cbn [c_str_chars].
  destruct (Ascii.eqb c NUL) eqn:E; [reflexivity|]. cbn [no_nul]. by rewrite E.
Qed.

Lemma c_str_chars_id (s : string) : no_nul s = true -> c_str_chars s = s.
Proof.
  induction s as [|c s IH]; [reflexivity|]. cbn [no_nul c_str_chars].
  intros [Hc Hs]%andb_true_iff. apply negb_true_iff in Hc. rewrite Hc. by rewrite IH.
Qed.

Lemma back_no_nul (s : string) : no_nul s = true -> back s <> Some NUL.
Proof.
  induction s as [|c s IH]; [done|]. cbn [no_nul].
  intros [Hc Hs]%andb_true_iff. apply negb_true_iff, Ascii.eqb_neq in Hc.
  destruct s as [|c' s']; [cbn; congruence|]. by apply IH.
Qed.

(** X4: the reply handed to the callers is the received bytes up to their
    first NUL: bytes without a NUL come through unchanged, the result never
    holds a NUL, and the removal of a trailing NUL never applies. *)
Theorem read_response_cuts_at_nul :
  forall bytes : string,
    read_response bytes = c_str_chars bytes /\
    no_nul (read_response bytes) = true /\
    (no_nul bytes = true -> read_response bytes = bytes).
Proof.
  intros bytes.
  assert (E : read_response bytes = c_str_chars bytes).
  { unfold read_response. cbv zeta. rewrite c_str_chars_terminated.
    rewrite (bool_decide_eq_false_2 (back (c_str_chars bytes) = Some NUL))
      by apply back_no_nul, c_str_chars_no_nul.
    by rewrite andb_false_r. }
  rewrite E. split; [done|]. split; [apply c_str_chars_no_nul|apply c_str_chars_id].
Qed.

Section WithDouble.
Context {double : Type}.

Local Abbreviation Bridge := (Runtime.Bridge double).

Lemma same_refl (st : Bridge) : same_but_engine st st.
Proof. by repeat split. Qed.

Lemma same_trans (st1 st2 st3 : Bridge) :
  same_but_engine st1 st2 -> same_but_engine st2 st3 -> same_but_engine st1 st3.
Proof.
  unfold same_but_engine. intros H1 H2. destruct_and!. repeat split; congruence.
Qed.

(** An exchange with the engine touches the engine, the command port and the
    health state, nothing else. *)
Lemma send_to_modhost_same (command : string) (st : Bridge) :
  same_but_engine st (snd (send_to_modhost command st)).
Proof.
  unfold send_to_modhost, bind, get, modify, ret, mark_command_connection.
  destruct (engine st) as [|[] ?]; cbn; try destruct (empty _); by repeat split.
Qed.

End WithDouble.

Section WithPlatform.
Context {double : Type} `{!Platform double}.

Local Abbreviation Bridge := (Runtime.Bridge double).

Lemma send_initial_parameters_same (id : string) (params : list (string * double)) :
  forall st : Bridge, same_but_engine st (snd (send_initial_parameters id params st)).
Proof.
  induction params as [|[param value] params IH]; intros st; [apply same_refl|].
  cbn [send_initial_parameters]. unfold mbind, M_bind, bind.
  match goal with |- context [send_to_modhost ?c st] =>
    destruct (RegistryFacts.send_to_modhost_returns c st) as [result Hres];
    pose proof (send_to_modhost_same c st) as Hsame;
    destruct (send_to_modhost c st) as [o st1]
  end.
  cbn [fst snd] in *. subst o. eapply same_trans; [exact Hsame|apply IH].
Qed.

Lemma send_initial_parameters_port (id : string) (params : list (string * double)) :
  forall st : Bridge,
    exists later,
      command_port (snd (send_initial_parameters id params st)) = command_port st ++ later.
Proof.
  induction params as [|[param value] params IH]; intros st.
  - exists []. by rewrite app_nil_r.
  - cbn [send_initial_parameters]. unfold mbind, M_bind, bind.
    match goal with |- context [send_to_modhost ?c st] =>
      destruct (RegistryFacts.send_to_modhost_returns c st) as [result Hres];
      assert (Hport : exists sent,
                command_port (snd (send_to_modhost c st)) = command_port st ++ sent);
      [|destruct (send_to_modhost c st) as [o st1]]
    end.
    { unfold send_to_modhost, bind, get, modify, ret, mark_command_connection.
      destruct (engine st) as [|[] ?]; cbn; try destruct (empty _); cbn;
        try (exists []; by rewrite app_nil_r); eauto. }
    cbn [fst snd] in *. subst o. destruct Hport as [sent Hsent].
    destruct (IH st1) as [later Hlater]. exists (sent ++ later).
    by rewrite Hlater, Hsent, app_assoc.
Qed.

End WithPlatform.
End EngineFacts.

(** ** Loading a plugin *)

Module LoadFacts.
Import Cxx Types PluginTypes Runtime PluginManager Props CommandClientFacts EngineFacts.

Lemma scan_digits_stops (rest : string) (n : Z) :
  no_digit_ahead rest = true -> scan_digits rest n true = (n, true, rest).
Proof.
  destruct rest as [|c rest]; [reflexivity|]. cbn [no_digit_ahead scan_digits].
  intros Hc%negb_true_iff. by rewrite Hc.
Qed.

(** [std::stoi] reads back what [std::to_string] wrote. *)
Lemma stoi_to_string (n : Z) (rest : string) :
  INT_MIN <= n <= INT_MAX ->
  no_digit_ahead rest = true ->
  stoi (to_string n +:+ rest) = stoi_value n.
Proof.
  intros Hn Hrest. unfold stoi, to_string. destruct (n <? 0) eqn:Hneg.
  - apply Z.ltb_lt in Hneg. rewrite append_cons.
    change (skipws (String "-" ?r)) with (String "-" r). cbn [read_sign].
    rewrite ParserFacts.decimal_scan by lia. rewrite scan_digits_stops by done.
    cbn [negb]. rewrite Z.opp_involutive.
    destruct (n <? INT_MIN) eqn:E1; [apply Z.ltb_lt in E1; lia|].
    destruct (INT_MAX <? n) eqn:E2; [apply Z.ltb_lt in E2; lia|]. reflexivity.
  - apply Z.ltb_ge in Hneg.
    destruct (ParserFacts.decimal_head n Hneg) as (c & r & E & Hc).
    rewrite E, append_cons. cbn [skipws].
    rewrite (ParserFacts.isdigit_not_space c Hc), (ParserFacts.isdigit_read_sign c _ Hc).
    rewrite <- append_cons, <- E, ParserFacts.decimal_scan by done.
    rewrite scan_digits_stops by done. cbn [negb].
    destruct (n <? INT_MIN) eqn:E1; [apply Z.ltb_lt in E1; lia|].
    destruct (INT_MAX <? n) eqn:E2; [apply Z.ltb_lt in E2; lia|]. reflexivity.
Qed.

(** X5: a reply "resp " followed by the decimal text of an [int] and
    anything that does not start with a digit is read as that number when it
    is not negative, and refused as "Failed to parse mod-host response" when
    it is negative. *)
Theorem parse_returned_instance_reads_reply :
  forall (n : Z) (rest : string),
    INT_MIN <= n <= INT_MAX ->
    no_digit_ahead rest = true ->
    parse_returned_instance ("resp " +:+ to_string n +:+ rest) =
    if n <? 0 then Throw "Failed to parse mod-host response" else Return n.
Proof.
  intros n rest Hn Hrest. unfold parse_returned_instance.
  change (find "resp " ("resp " +:+ to_string n +:+ rest)) with (Some 0%nat).
  cbv zeta iota beta.
  change (substr (0 + 5) ("resp " +:+ to_string n +:+ rest)) with (to_string n +:+ rest).
  rewrite stoi_to_string by done. by destruct (n <? 0).
Qed.

Lemma parse_returned_instance_witness :
  (INT_MIN <= 12 <= INT_MAX) /\ no_digit_ahead (String LF EmptyString) = true /\
  parse_returned_instance ("resp " +:+ to_string 12 +:+ String LF EmptyString) =
  if 12 <? 0 then Throw "Failed to parse mod-host response" else Return 12.
Proof.
  assert (H1 : INT_MIN <= 12 <= INT_MAX) by (unfold INT_MIN, INT_MAX; lia).
  split; [exact H1|]. split; [reflexivity|].
  exact (parse_returned_instance_reads_reply 12 (String LF EmptyString) H1 eq_refl).
Defined.

Section WithPlatform.
Context {double : Type} `{!Platform double}.

Local Abbreviation Bridge := (Runtime.Bridge double).

Lemma publish_event_outcome (event_type : string) (payload : Json double) (st : Bridge) :
  publish_event event_type payload st =
  (Return tt,
   set_pub_wire (pub_wire st ++ on_bus st [event event_type (system_clock st) payload]) st).
Proof.
  unfold publish_event, on_bus, mbind, M_bind, bind, get, modify, ret.
  destruct st as [? ? ? ? ? [] ? ? ? ? ? ? ? ? ? ? ?]; cbn; [done|].
  by rewrite app_nil_r.
Qed.

(** X6: when the URI is in the catalog and the engine answers the [add]
    command with a reply that reads as the instance number [n], the load
    returns the new instance, built from the request and the catalog entry
    with [host_instance] set to [n], stores it under its id, leaves the
    catalog alone, publishes one [plugin_loaded] event, and the first
    command it wrote to the engine is "add <uri> <counter>". *)
Theorem load_accepted_registers_instance :
  forall (req : LoadPluginRequest double) (info : PluginInfo double)
         (bytes : string) (coming : list Exchange) (n : Z) (st : Bridge),
    available_plugins_ st !! load_uri req = Some info ->
    engine st = recv_data bytes :: coming ->
    empty bytes = false ->
    parse_returned_instance (read_response bytes) = Return n ->
    exists (id : string) (later : list string),
      let instance :=
        mk_instance (load_uri req) id (name info) (brand info) (version info)
          (load_parameters req) (ports info) (load_x req) (load_y req) true
          EmptyString (system_clock st) (Some n) in
      let st' := snd (process_load_plugin req st) in
      fst (process_load_plugin req st) = Return (LoadPluginResponse id instance) /\
      instances_ st' = <[id := instance]> (instances_ st) /\
      available_plugins_ st' = available_plugins_ st /\
      pub_wire st' =
      pub_wire st ++
      on_bus st [event "plugin_loaded" (system_clock st)
                   (JObject (<["name" := JString (name info)]>
                               (<["uri" := JString (load_uri req)]>
                                  {["instance_id" := JString id]})))] /\
      command_port st' =
      command_port st ++
      ("add " +:+ load_uri req +:+ " " +:+ to_string (next_instance st)) :: later.
Proof.
  intros req info bytes coming n st Hcat Hengine Hbytes Hparse.
  unfold process_load_plugin, mbind, M_bind, bind, get. rewrite Hcat.
  destruct (RegistryFacts.generate_instance_id_spec st) as (id & rd & ->).
  unfold get_next_numeric_instance, mbind, M_bind, bind, get, modify, ret.
  cbn [next_instance set_random_device].
  set (st2 := set_next_instance (next_instance st + 1) (set_random_device rd st)).
  set (command := "add " +:+ load_uri req +:+ " " +:+ to_string (next_instance st)).
  assert (E2 : engine st2 = recv_data bytes :: coming) by exact Hengine.
  pose proof (RegistryFacts.send_to_modhost_answer command bytes coming st2 E2) as Hans.
  pose proof (send_to_modhost_same command st2) as Hsame.
  pose proof (send_to_modhost_written command (recv_data bytes) coming st2) as Hw.
  destruct (send_to_modhost command st2) as [result st3].
  cbn [fst snd] in Hans, Hsame, Hw. subst result. rewrite Hbytes.
  assert (Hport : command_port st3 = command_port st ++ [command]).
  { rewrite Hw; [done| |done]. right; right; eauto. }
  unfold lift. rewrite Hparse.
  set (params := map_to_list (load_parameters req)).
  destruct (RegistryFacts.send_initial_parameters_frame id params st3) as [Hr _].
  pose proof (send_initial_parameters_same id params st3) as Hsame'.
  destruct (send_initial_parameters_port id params st3) as [later Hlater].
  destruct (send_initial_parameters id params st3) as [o st4].
  cbn [fst snd] in Hr, Hsame', Hlater. subst o.
  pose proof (same_trans _ _ _ Hsame Hsame') as Hall.
  unfold same_but_engine in Hsame, Hall. destruct_and!.
  rewrite publish_event_outcome. exists id, later. cbv zeta. cbn [fst snd].
  unfold on_bus.
  cbn [instances_ available_plugins_ pub_wire command_port system_clock pub_socket_
       set_pub_wire set_instances inst_name] in *.
  repeat match goal with
         | H : _ st4 = _ |- _ => rewrite H
         | H : _ st3 = _ |- _ => rewrite H
         end.
  subst st2.
  cbn [instances_ available_plugins_ pub_wire command_port system_clock pub_socket_
       set_next_instance set_random_device].
  rewrite <- app_assoc. done.
Qed.

(** X7: a load whose URI is in the catalog takes one number from the
    engine instance counter whether it then succeeds or throws; a load of an
    unknown URI takes none. *)
Theorem load_takes_one_instance_number :
  forall (req : LoadPluginRequest double) (st : Bridge),
    next_instance (snd (process_load_plugin req st)) =
    match available_plugins_ st !! load_uri req with
    | Some _ => next_instance st + 1
    | None => next_instance st
    end.
Proof.
  intros req st.
  unfold process_load_plugin, mbind, M_bind, bind, get.
  destruct (available_plugins_ st !! load_uri req) as [info|]; [|done].
  destruct (RegistryFacts.generate_instance_id_spec st) as (id & rd & ->).
  unfold get_next_numeric_instance, mbind, M_bind, bind, get, modify, ret.
  cbn [next_instance set_random_device].
  set (st2 := set_next_instance (next_instance st + 1) (set_random_device rd st)).
  match goal with |- context [send_to_modhost ?c st2] =>
    destruct (RegistryFacts.send_to_modhost_returns c st2) as [result Hres];
    pose proof (send_to_modhost_same c st2) as Hsame;
    destruct (send_to_modhost c st2) as [o st3]
  end.
  cbn [fst snd] in Hres, Hsame. subst o.
  assert (H3 : next_instance st3 = next_instance st + 1)
    by (unfold same_but_engine in Hsame; destruct_and!; done).
  destruct result as [reply|]; [|done].
  unfold lift. destruct (parse_returned_instance reply) as [n|what]; [|done].
  match goal with |- context [send_initial_parameters ?i ?ps st3] =>
    destruct (RegistryFacts.send_initial_parameters_frame i ps st3) as [Hr _];
    pose proof (send_initial_parameters_same i ps st3) as Hsame';
    destruct (send_initial_parameters i ps st3) as [o st4]
  end.
  cbn [fst snd] in Hr, Hsame'. subst o.
  assert (H4 : next_instance st4 = next_instance st3)
    by (unfold same_but_engine in Hsame'; destruct_and!; done).
  rewrite publish_event_outcome. cbn. by rewrite H4.
Qed.

End WithPlatform.

(** The sample catalog holds [foo]; the engine answers the [add] with
    "resp 0". *)
Lemma load_accepted_witness :
  let st := Samples.process {[ "urn:foo" := Samples.foo ]} ∅ None [recv_data "resp 0"] in
  let req : LoadPluginRequest Samples.double := mk_load "urn:foo" 0 0 ∅ in
  available_plugins_ st !! load_uri req = Some Samples.foo /\
  engine st = [recv_data "resp 0"] /\
  empty "resp 0" = false /\
  parse_returned_instance (read_response "resp 0") = Return 0 /\
  exists (id : string) (later : list string),
    let instance :=
      mk_instance (load_uri req) id (name Samples.foo) (brand Samples.foo)
        (version Samples.foo) (load_parameters req) (ports Samples.foo) (load_x req)
        (load_y req) true EmptyString (system_clock st) (Some 0) in
    let st' := snd (process_load_plugin req st) in
    fst (process_load_plugin req st) = Return (LoadPluginResponse id instance) /\
    instances_ st' = <[id := instance]> (instances_ st) /\
    available_plugins_ st' = available_plugins_ st /\
    pub_wire st' =
    pub_wire st ++
    on_bus st [event "plugin_loaded" (system_clock st)
                 (JObject (<["name" := JString (name Samples.foo)]>
                             (<["uri" := JString (load_uri req)]>
                                {["instance_id" := JString id]})))] /\
    command_port st' =
    command_port st ++
    ("add " +:+ load_uri req +:+ " " +:+ to_string (next_instance st)) :: later.
Proof.
  cbv zeta. split; [reflexivity|]. split; [reflexivity|]. split; [reflexivity|].
  split; [reflexivity|].
  exact (load_accepted_registers_instance
           (mk_load "urn:foo" 0 0 ∅) Samples.foo "resp 0" [] 0
           (Samples.process {[ "urn:foo" := Samples.foo ]} ∅ None [recv_data "resp 0"])
           eq_refl eq_refl eq_refl eq_refl).
Defined.

End LoadFacts.

(** ** Parameters, unloading and queries *)

Module InstanceFacts.
Import Cxx Types PluginTypes Runtime PluginManager PluginManagerOps Props.
Import CommandClientFacts EngineFacts.

Section WithPlatform.
Context {double : Type} `{!Platform double}.

Local Abbreviation Bridge := (Runtime.Bridge double).

Lemma send_to_modhost_result (command : string) (st : Bridge) :
  fst (send_to_modhost command st) = Return (engine_answers st).
Proof.
  unfold send_to_modhost, engine_answers, bind, get, modify, ret, mark_command_connection.
  destruct (engine st) as [|[] ?]; cbn; try destruct (empty _); done.
Qed.

Lemma send_to_modhost_port (command : string) (st : Bridge) :
  is_Some (engine_answers st) ->
  command_port (snd (send_to_modhost command st)) = command_port st ++ [command].
Proof.
  unfold engine_answers. intros Hans.
  destruct (engine st) as [|e coming] eqn:E; [by destruct Hans|].
  destruct e; try (by destruct Hans).
  rewrite (send_to_modhost_written command (recv_data bytes) coming st); [done| |done].
  right; right; eauto.
Qed.

Lemma alter_known {A} (f : A -> A) (m : gmap string A) (i : string) (x : A) :
  m !! i = Some x -> alter f i m = <[i := f x]> m.
Proof.
  intros Hx. rewrite <- (insert_id m i x Hx) at 1. apply alter_insert_eq.
Qed.

Lemma set_parameter_by_reply (req : SetParameterRequest double)
  (instance : PluginInstance double) (st : Bridge) :
    instances_ st !! sp_instance_id req = Some instance ->
    let st' := snd (process_set_parameter req st) in
    match engine_answers st with
    | Some _ =>
        fst (process_set_parameter req st) =
          Return (SetParameterResponse "ok" (sp_requested req)) /\
        instances_ st' =
          <[sp_instance_id req :=
              set_parameter_value (sp_parameter req) (sp_requested req) instance]>
            (instances_ st) /\
        pub_wire st' =
          pub_wire st ++
          on_bus st [event "parameter_changed" (system_clock st)
                       (JObject (<["value" := JReal (sp_requested req)]>
                                   (<["parameter" := JString (sp_parameter req)]>
                                      {["instance_id" := JString (sp_instance_id req)]})))] /\
        command_port st' =
          command_port st ++
          ["param_set " +:+ sp_instance_id req +:+ " " +:+ sp_parameter req +:+ " " +:+
           double_to_string (sp_requested req)]
    | None =>
        fst (process_set_parameter req st) = Throw "Failed to set parameter in mod-host" /\
        instances_ st' = instances_ st /\
        pub_wire st' = pub_wire st
    end.
Proof.
  intros Hinst. cbv zeta.
  unfold process_set_parameter, mbind, M_bind, bind, get. rewrite Hinst.
  set (command := _ +:+ _).
  pose proof (send_to_modhost_result command st) as Hres.
  pose proof (send_to_modhost_same command st) as Hsame.
  pose proof (send_to_modhost_port command st) as Hport.
  destruct (send_to_modhost command st) as [o st1]. cbn [fst snd] in *. subst o.
  unfold same_but_engine in Hsame. destruct_and!.
  destruct (engine_answers st) as [body|].
  - unfold modify, ret. rewrite LoadFacts.publish_event_outcome. cbn [fst snd].
    unfold on_bus.
    cbn [instances_ pub_wire command_port system_clock pub_socket_ set_pub_wire
         set_instances].
    repeat match goal with H : _ st1 = _ |- _ => rewrite H end.
    rewrite (alter_known _ _ _ _ Hinst), Hport by eauto. done.
  - unfold throw. cbn [fst snd]. done.
Qed.

(** X8: on a known instance, [set_parameter] goes by whether the engine
    sent any reply, not by what the reply says: with a reply it writes
    "param_set <id> <parameter> <value>" to the engine, records the value in
    that instance alone, publishes one [parameter_changed] event and returns
    "ok"; without one it throws "Failed to set parameter in mod-host" and
    neither the instances nor the bus change. *)
Theorem set_parameter_goes_by_reply_presence :
  forall (req : SetParameterRequest double) (instance : PluginInstance double)
         (st : Bridge),
    instances_ st !! sp_instance_id req = Some instance ->
    let st' := snd (process_set_parameter req st) in
    match engine_answers st with
    | Some _ =>
        fst (process_set_parameter req st) =
          Return (SetParameterResponse "ok" (sp_requested req)) /\
        instances_ st' =
          <[sp_instance_id req :=
              set_parameter_value (sp_parameter req) (sp_requested req) instance]>
            (instances_ st) /\
        pub_wire st' =
          pub_wire st ++
          on_bus st [event "parameter_changed" (system_clock st)
                       (JObject (<["value" := JReal (sp_requested req)]>
                                   (<["parameter" := JString (sp_parameter req)]>
                                      {["instance_id" := JString (sp_instance_id req)]})))] /\
        command_port st' =
          command_port st ++
          ["param_set " +:+ sp_instance_id req +:+ " " +:+ sp_parameter req +:+ " " +:+
           double_to_string (sp_requested req)]
    | None =>
        fst (process_set_parameter req st) = Throw "Failed to set parameter in mod-host" /\
        instances_ st' = instances_ st /\
        pub_wire st' = pub_wire st
    end.
Proof.
  intros req instance st Hinst.
  exact (set_parameter_by_reply req instance st Hinst).
Qed.

Lemma unload_outcome (freed_uri : string) (req : UnloadPluginRequest)
  (instance : PluginInstance double) (st : Bridge) :
  instances_ st !! unload_instance_id req = Some instance ->
  let st' := snd (process_unload_plugin freed_uri req st) in
  fst (process_unload_plugin freed_uri req st) =
    Return (UnloadPluginResponse "ok" (unload_instance_id req)) /\
  instances_ st' = delete (unload_instance_id req) (instances_ st) /\
  pub_wire st' =
    pub_wire st ++
    on_bus st [event "plugin_unloaded" (system_clock st)
                 (JObject (<["uri" := JString freed_uri]>
                             {["instance_id" := JString (unload_instance_id req)]}))] /\
  available_plugins_ st' = available_plugins_ st /\
  next_instance st' = next_instance st /\
  pub_socket_ st' = pub_socket_ st /\
  system_clock st' = system_clock st.
Proof.
  intros Hinst. cbv zeta.
  unfold process_unload_plugin, mbind, M_bind, bind, get. rewrite Hinst.
  set (command := _ +:+ _).
  pose proof (send_to_modhost_result command st) as Hres.
  pose proof (send_to_modhost_same command st) as Hsame.
  destruct (send_to_modhost command st) as [o st1]. cbn [fst snd] in *. subst o.
  unfold same_but_engine in Hsame. destruct_and!.
  unfold modify, ret. rewrite LoadFacts.publish_event_outcome. cbn [fst snd].
  unfold on_bus.
  cbn [instances_ pub_wire command_port system_clock pub_socket_ set_pub_wire
       set_instances available_plugins_ next_instance].
  repeat match goal with H : _ st1 = _ |- _ => rewrite H end. done.
Qed.

(** X9: unloading a known instance returns "ok" whatever the engine does
    with the [remove] command, even when it cannot be reached: the instance
    leaves the registry, the others stay, one [plugin_unloaded] event is
    published, and neither the catalog nor the engine instance counter
    changes. *)
Theorem unload_succeeds_without_engine :
  forall (freed_uri : string) (req : UnloadPluginRequest)
         (instance : PluginInstance double) (st : Bridge),
    instances_ st !! unload_instance_id req = Some instance ->
    let st' := snd (process_unload_plugin freed_uri req st) in
    fst (process_unload_plugin freed_uri req st) =
      Return (UnloadPluginResponse "ok" (unload_instance_id req)) /\
    instances_ st' = delete (unload_instance_id req) (instances_ st) /\
    pub_wire st' =
      pub_wire st ++
      on_bus st [event "plugin_unloaded" (system_clock st)
                   (JObject (<["uri" := JString freed_uri]>
                               {["instance_id" := JString (unload_instance_id req)]}))] /\
    available_plugins_ st' = available_plugins_ st /\
    next_instance st' = next_instance st.
Proof.
  intros freed_uri req instance st Hinst.
  destruct (unload_outcome freed_uri req instance st Hinst) as (? & ? & ? & ? & ? & _).
  done.
Qed.

Lemma unload_each_outcome (freed : string -> string) (ids : list string) :
  forall st : Bridge,
    NoDup ids ->
    (forall id, id ∈ ids -> is_Some (instances_ st !! id)) ->
    let st' := snd (unload_each freed ids st) in
    fst (unload_each freed ids st) = Return tt /\
    (forall k, instances_ st' !! k =
               if decide (k ∈ ids) then None else instances_ st !! k) /\
    pub_wire st' = pub_wire st ++ on_bus st (unloaded_events freed (system_clock st) ids) /\
    available_plugins_ st' = available_plugins_ st /\
    next_instance st' = next_instance st.
Proof.
  induction ids as [|id ids IH]; intros st Hnd Hall; cbv zeta.
  - cbn. unfold on_bus. destruct (pub_socket_ st); rewrite ?app_nil_r; repeat split; done.
  - apply NoDup_cons in Hnd as [Hfresh Hnd].
    destruct (Hall id) as [instance Hinst]; [apply list_elem_of_here|].
    cbn [unload_each]. unfold mbind, M_bind, bind, try_catch.
    destruct (unload_outcome (freed id) (mk_unload id) instance st Hinst)
      as (Hr & Hi & Hw & Hc & Hn & Hs & Ht).
    cbn [unload_instance_id] in *.
    destruct (process_unload_plugin (freed id) (mk_unload id) st) as [o st1].
    cbn [fst snd] in *. subst o. unfold ret.
    destruct (IH st1 Hnd) as (Hr' & Hi' & Hw' & Hc' & Hn').
    { intros k Hk. rewrite Hi, lookup_delete_ne; [apply Hall; by apply list_elem_of_further|].
      intros ->. done. }
    split; [done|]. split; [|split; [|split]].
    + intros k. rewrite Hi', Hi. destruct (decide (k = id)) as [->|Hne].
      * rewrite (decide_True (P := id ∈ id :: ids)) by apply list_elem_of_here.
        destruct (decide (id ∈ ids)); [done|apply lookup_delete_eq].
      * rewrite lookup_delete_ne by done.
        destruct (decide (k ∈ ids)) as [Hin|Hnin].
        -- by rewrite decide_True by (by apply list_elem_of_further).
        -- rewrite decide_False; [done|]. by intros [?|?]%elem_of_cons.
    + rewrite Hw', Hw, Ht. unfold on_bus. rewrite Hs.
      destruct (pub_socket_ st); rewrite <- app_assoc; done.
    + by rewrite Hc'.
    + by rewrite Hn'.
Qed.

Lemma collect_instance_ids_perm (instances : gmap string (PluginInstance double)) :
  collect_instance_ids instances ≡ₚ map fst (map_to_list instances).
Proof. reflexivity. Qed.

Lemma collect_instance_ids_spec (instances : gmap string (PluginInstance double))
  (id : string) :
  id ∈ collect_instance_ids instances <-> is_Some (instances !! id).
Proof.
  rewrite collect_instance_ids_perm, list_elem_of_fmap. split.
  - intros ([id' instance] & -> & Hin). exists instance. by apply elem_of_map_to_list.
  - intros [instance Hid]. exists (id, instance). split; [done|].
    by apply elem_of_map_to_list.
Qed.

(** X10: [clear_all] returns "ok" and leaves no instance in the registry,
    whatever the engine does with the [remove] commands; it publishes one
    [plugin_unloaded] event for each id that was in the registry, each id
    once, and leaves the catalog and the engine instance counter alone. *)
Theorem clear_all_empties_registry :
  forall (freed : string -> string) (st : Bridge),
    let st' := snd (process_clear_all freed st) in
    let ids := collect_instance_ids (instances_ st) in
    fst (process_clear_all freed st) = Return (ClearAllResponse "ok") /\
    instances_ st' = ∅ /\
    pub_wire st' =
      pub_wire st ++ on_bus st (unloaded_events freed (system_clock st) ids) /\
    NoDup ids /\
    (forall id, id ∈ ids <-> is_Some (instances_ st !! id)) /\
    available_plugins_ st' = available_plugins_ st /\
    next_instance st' = next_instance st.
Proof.
  intros freed st. cbv zeta.
  assert (Hnd : NoDup (collect_instance_ids (instances_ st)))
    by (rewrite collect_instance_ids_perm; apply NoDup_fst_map_to_list).
  pose proof (collect_instance_ids_spec (instances_ st)) as Hids.
  unfold process_clear_all, mbind, M_bind, bind, get.
  destruct (unload_each_outcome freed (collect_instance_ids (instances_ st)) st)
    as (Hr & Hi & Hw & Hc & Hn).
  { rewrite collect_instance_ids_perm. apply NoDup_fst_map_to_list. }
  { intros id Hid. by apply collect_instance_ids_spec. }
  destruct (unload_each freed _ st) as [o st1]. cbn [fst snd] in *. subst o.
  unfold ret. cbn [fst snd]. split; [done|]. split; [|done].
  clear Hids. apply map_eq. intros k. rewrite Hi, lookup_empty.
  destruct (decide (k ∈ collect_instance_ids (instances_ st))) as [Hin|Hnin]; [done|].
  destruct (instances_ st !! k) as [instance|] eqn:Hk; [|done].
  exfalso. apply Hnin. apply collect_instance_ids_spec. eauto.
Qed.

Lemma get_parameter_value (stod : string -> option double) (req : GetParameterRequest)
  (instance : PluginInstance double) (st : Bridge) :
    instances_ st !! gp_instance_id req = Some instance ->
    let stored := default double_zero (parameters instance !! gp_parameter req) in
    same_but_engine st (snd (process_get_parameter stod req st)) /\
    fst (process_get_parameter stod req st) =
    Return (GetParameterResponse (gp_parameter req)
              match engine_answers st with
              | Some body => default stored (stod body)
              | None => stored
              end).
Proof.
  intros Hinst. cbv zeta.
  unfold process_get_parameter, mbind, M_bind, bind, get. rewrite Hinst.
  set (command := _ +:+ _).
  pose proof (send_to_modhost_result command st) as Hres.
  pose proof (send_to_modhost_same command st) as Hsame.
  destruct (send_to_modhost command st) as [o st1]. cbn [fst snd] in *. subst o.
  unfold ret. cbn [fst snd]. split; [done|].
  destruct (engine_answers st) as [body|]; [|done]. by destruct (stod body).
Qed.

(** X11: reading a parameter of a known instance never throws and changes
    nothing of the registry, the catalog or the bus; the value returned is
    the number [std::stod] reads from the engine's reply, and the value the
    instance stores (0.0 when it stores none) when there is no reply or the
    reply does not read as a number. *)
Theorem get_parameter_falls_back_to_stored :
  forall (stod : string -> option double) (req : GetParameterRequest)
         (instance : PluginInstance double) (st : Bridge),
    instances_ st !! gp_instance_id req = Some instance ->
    let stored := default double_zero (parameters instance !! gp_parameter req) in
    same_but_engine st (snd (process_get_parameter stod req st)) /\
    fst (process_get_parameter stod req st) =
    Return (GetParameterResponse (gp_parameter req)
              match engine_answers st with
              | Some body => default stored (stod body)
              | None => stored
              end).
Proof.
  intros stod req instance st Hinst.
  exact (get_parameter_value stod req instance st Hinst).
Qed.

(** X12: a request that names a plugin URI the catalog lacks, or an
    instance id the registry lacks, throws "Plugin not found: <uri>" or
    "Plugin instance not found: <id>" and leaves the whole process as it was:
    nothing is sent to the engine, nothing is published, no instance number
    is taken. *)
Theorem unknown_names_are_refused :
  forall (stod : string -> option double) (st : Bridge),
    (forall req : LoadPluginRequest double,
       available_plugins_ st !! load_uri req = None ->
       process_load_plugin req st = (Throw ("Plugin not found: " +:+ load_uri req), st)) /\
    (forall req : SetParameterRequest double,
       instances_ st !! sp_instance_id req = None ->
       process_set_parameter req st =
       (Throw ("Plugin instance not found: " +:+ sp_instance_id req), st)) /\
    (forall (freed_uri : string) (req : UnloadPluginRequest),
       instances_ st !! unload_instance_id req = None ->
       process_unload_plugin freed_uri req st =
       (Throw ("Plugin instance not found: " +:+ unload_instance_id req), st)) /\
    (forall req : GetParameterRequest,
       instances_ st !! gp_instance_id req = None ->
       process_get_parameter stod req st =
       (Throw ("Plugin instance not found: " +:+ gp_instance_id req), st)) /\
    (forall req : GetPluginInfoRequest,
       instances_ st !! gi_instance_id req = None ->
       process_get_plugin_info req st =
       (Throw ("Plugin instance not found: " +:+ gi_instance_id req), st)).
Proof.
  intros stod st. repeat split; intros;
    unfold process_load_plugin, process_set_parameter, process_unload_plugin,
      process_get_parameter, process_get_plugin_info, mbind, M_bind, bind, get;
    match goal with H : _ !! _ = None |- _ => by rewrite H end.
Qed.

End WithPlatform.

(** Gain 0.75 on the loaded sample instance; the engine answers "resp -1",
    an error code. *)
Lemma set_parameter_witness :
  let st := Samples.process {[ "urn:foo" := Samples.foo ]}
              {[ "plugin_0_00000000" := Samples.loaded ]} None [recv_data "resp -1"] in
  let req : SetParameterRequest Samples.double :=
    mk_set_parameter "plugin_0_00000000" "gain" 750000 in
  instances_ st !! sp_instance_id req = Some Samples.loaded /\
  engine_answers st = Some "resp -1" /\
  fst (process_set_parameter req st) = Return (SetParameterResponse "ok" 750000) /\
  instances_ (snd (process_set_parameter req st)) =
    <[sp_instance_id req := set_parameter_value "gain" 750000 Samples.loaded]>
      (instances_ st).
Proof.
  cbv zeta. split; [reflexivity|]. split; [reflexivity|].
  pose proof (set_parameter_goes_by_reply_presence
                (mk_set_parameter "plugin_0_00000000" "gain" (750000 : Samples.double))
                Samples.loaded
                (Samples.process {[ "urn:foo" := Samples.foo ]}
                   {[ "plugin_0_00000000" := Samples.loaded ]} None
                   [recv_data "resp -1"]) eq_refl) as H.
  cbv zeta in H.
  change (engine_answers _) with (Some "resp -1" : option string) in H.
  destruct H as (Hr & Hi & _). split; [exact Hr|exact Hi].
Defined.

(** Unloading the loaded sample instance with the engine unreachable. *)
Lemma unload_witness :
  let st := Samples.process {[ "urn:foo" := Samples.foo ]}
              {[ "plugin_0_00000000" := Samples.loaded ]} None [connect_fails] in
  let req := mk_unload "plugin_0_00000000" in
  let st' := snd (process_unload_plugin "urn:foo" req st) in
  instances_ st !! unload_instance_id req = Some Samples.loaded /\
  fst (process_unload_plugin "urn:foo" req st) =
    Return (UnloadPluginResponse "ok" (unload_instance_id req)) /\
  instances_ st' = delete (unload_instance_id req) (instances_ st) /\
  pub_wire st' =
    pub_wire st ++
    on_bus st [event "plugin_unloaded" (system_clock st)
                 (JObject (<["uri" := JString "urn:foo"]>
                             {["instance_id" := JString (unload_instance_id req)]}))] /\
  available_plugins_ st' = available_plugins_ st /\
  next_instance st' = next_instance st.
Proof.
  cbv zeta. split; [reflexivity|].
  exact (unload_succeeds_without_engine "urn:foo" (mk_unload "plugin_0_00000000")
           Samples.loaded
           (Samples.process {[ "urn:foo" := Samples.foo ]}
              {[ "plugin_0_00000000" := Samples.loaded ]} None [connect_fails])
           eq_refl).
Defined.

(** Reading gain of the loaded sample instance: the engine answers
    "resp 0 0.25", which does not read as a number, so the stored 0.5 is
    returned. *)
Lemma get_parameter_witness :
  let st := Samples.process {[ "urn:foo" := Samples.foo ]}
              {[ "plugin_0_00000000" := Samples.loaded ]} None
              [recv_data "resp 0 0.25"] in
  let req := mk_get_parameter "plugin_0_00000000" "gain" in
  let stod : string -> option Samples.double := fun _ => None in
  instances_ st !! gp_instance_id req = Some Samples.loaded /\
  same_but_engine st (snd (process_get_parameter stod req st)) /\
  fst (process_get_parameter stod req st) =
  Return (GetParameterResponse "gain" (500000 : Samples.double)).
Proof.
  cbv zeta. split; [reflexivity|].
  exact (get_parameter_falls_back_to_stored (fun _ => None)
           (mk_get_parameter "plugin_0_00000000" "gain") Samples.loaded
           (Samples.process {[ "urn:foo" := Samples.foo ]}
              {[ "plugin_0_00000000" := Samples.loaded ]} None
              [recv_data "resp 0 0.25"])
           eq_refl).
Defined.

End InstanceFacts.

(** ** Searching the catalog by text *)

Module TextSearchFacts.
Import Cxx Types PluginTypes Runtime PluginManager PluginSearchEngine Spec Props.

Section WithPlatform.
Context {double : Type} `{!Platform double}.

Local Abbreviation Bridge := (Runtime.Bridge double).

Lemma catalog_values (catalog : gmap string (PluginInfo double)) (plugin : PluginInfo double) :
  In plugin (map snd (map_to_list catalog)) <-> exists uri, catalog !! uri = Some plugin.
Proof.
  rewrite in_map_iff. split.
  - intros ([uri p] & <- & Hin). exists uri. by apply elem_of_map_to_list, list_elem_of_In.
  - intros [uri Huri]. exists (uri, plugin). split; [done|].
    by apply list_elem_of_In, elem_of_map_to_list.
Qed.

Lemma filter_all {A} (f : A -> bool) (l : list A) :
  (forall a, f a = true) -> List.filter f l = l.
Proof.
  intros Hf. induction l as [|a l IH]; [done|]. cbn. by rewrite Hf, IH.
Qed.

(** X13: a search without criteria returns, of the catalog, exactly the
    plugins whose name, author name, comment and URI, joined by spaces and
    lower-cased, contain the lower-cased query; an empty query returns them
    all.  The process is left as it was. *)
Theorem text_search_finds_lowercase_substring :
  forall (text : string) (st : Bridge),
    search_engine_ st = true ->
    exists results,
      process_search_plugins (mk_search text None) st =
        (Return (SearchPluginsResponse results), st) /\
      forall plugin,
        In plugin results <->
        (exists uri, available_plugins_ st !! uri = Some plugin) /\
        (text = EmptyString \/ substring (toLower text) (searchable_text plugin)).
Proof.
  intros text st Hengine.
  unfold process_search_plugins, mbind, M_bind, bind, get. rewrite Hengine.
  cbn [negb criteria query]. unfold ret. eexists. split; [reflexivity|].
  intros plugin. unfold searchByText. destruct text as [|c text].
  - cbn [empty negb]. rewrite catalog_values. split; [|tauto]. intros Hcat. eauto.
  - cbn [empty negb]. rewrite filter_In, catalog_values.
    unfold matchesQuery. rewrite SearchFacts.contains_spec. unfold searchable_text.
    split; [intros [? ?]; eauto|]. intros [Hcat [Hempty|Hsub]]; done.
Qed.

(** X14: with criteria in the request the query text plays no part, and
    with the criteria a request leaves unset every plugin of the catalog is
    returned; without a search engine the request throws. *)
Theorem criteria_search_ignores_query :
  forall (text other : string) (c : PluginSearchCriteria) (st : Bridge),
    process_search_plugins (mk_search text (Some c)) st =
      process_search_plugins (mk_search other (Some c)) st /\
    (search_engine_ st = true ->
       process_search_plugins (mk_search text (Some default_criteria)) st =
       (Return (SearchPluginsResponse (map snd (map_to_list (available_plugins_ st)))),
        st)) /\
    (search_engine_ st = false ->
       process_search_plugins (mk_search text (Some c)) st =
       (Throw "Plugin search engine not initialized", st)).
Proof.
  intros text other c st. split; [reflexivity|].
  unfold process_search_plugins, mbind, M_bind, bind, get. split; intros ->; [|done].
  cbn [negb criteria]. unfold ret, filterPlugins. by rewrite filter_all.
Qed.

End WithPlatform.

(** The catalog holds "Foo" and "Bar"; the query "FOO" finds the first. *)
Lemma text_search_witness :
  let st := Samples.process {[ "urn:foo" := Samples.foo; "urn:bar" := Samples.bar ]}
              ∅ None [] in
  search_engine_ st = true /\
  exists results,
    process_search_plugins (mk_search "FOO" None) st =
      (Return (SearchPluginsResponse results), st) /\
    forall plugin,
      In plugin results <->
      (exists uri, available_plugins_ st !! uri = Some plugin) /\
      ("FOO" = EmptyString \/ substring (toLower "FOO") (searchable_text plugin)).
Proof.
  cbv zeta. split; [reflexivity|].
  exact (text_search_finds_lowercase_substring "FOO"
           (Samples.process {[ "urn:foo" := Samples.foo; "urn:bar" := Samples.bar ]}
              ∅ None []) eq_refl).
Defined.

End TextSearchFacts.

(** ** The feedback reader: records, chunks and reconnects *)

Module ReaderFacts.
Import Cxx Types PluginTypes Runtime Parser FeedbackReader ReaderLoop Spec Props.
Import CommandClientFacts.

Section WithPlatform.
Context {double : Type} `{!Platform double}.

Local Abbreviation Bridge := (Runtime.Bridge double).

Lemma set_line_buffer_same (st : Bridge) : set_line_buffer (line_buffer st) st = st.
Proof. by destruct st. Qed.

(** The bytes of a record go to the line buffer one by one. *)
Lemma process_received_line (u : Indeterminate double) (line : string) :
  forall (rest : string) (st : Bridge),
    no_nul line = true ->
    process_received u (line +:+ rest) st =
    process_received u rest (set_line_buffer (line_buffer st +:+ line) st).
Proof.
  induction line as [|c line IH]; intros rest st Hline.
  - by rewrite append_nil, append_empty, set_line_buffer_same.
  - cbn [no_nul] in Hline. apply andb_true_iff in Hline as [Hc Hline].
    apply negb_true_iff in Hc. rewrite append_cons. cbn [process_received].
    rewrite Hc. unfold mbind, M_bind, bind, modify. rewrite (IH rest _ Hline).
    cbn [line_buffer set_line_buffer].
    by rewrite append_assoc, append_cons, append_nil.
Qed.

(** The NUL that ends a record publishes what the buffer holds and empties
    it. *)
Lemma process_received_nul (u : Indeterminate double) (rest : string) (st : Bridge) :
  process_received u (String NUL rest) st =
  process_received u rest
    (set_line_buffer EmptyString
       (set_pub_wire (pub_wire st ++ record_documents u (line_buffer st)) st)).
Proof.
  cbn [process_received]. change (Ascii.eqb NUL NUL) with true. cbv iota.
  unfold mbind, M_bind, bind, get, modify, ret, publish_record, record_documents.
  destruct st as [? ? ? ? ? ? ? ? ? buffer ? ? ? ? ? ? ?]. cbn [line_buffer].
  destruct buffer as [|c buffer]; cbn [empty negb].
  - cbn. by rewrite app_nil_r.
  - destruct (parse_feedback_line u (String c buffer)) as [message|]; cbn;
      by rewrite ?app_nil_r.
Qed.

Lemma process_received_records (u : Indeterminate double) (lines : list string)
  (partial : string) :
  forall st : Bridge,
    Forall (fun line => no_nul line = true) lines ->
    no_nul partial = true ->
    line_buffer st = EmptyString ->
    process_received u (records lines +:+ partial) st =
    (Return tt,
     set_line_buffer partial
       (set_pub_wire (pub_wire st ++ flat_map (record_documents u) lines) st)).
Proof.
  induction lines as [|line lines IH]; intros st Hlines Hpartial Hb.
  - cbn [records flat_map]. rewrite append_nil, <- (append_empty partial) at 1.
    rewrite process_received_line by done. rewrite Hb, append_nil, app_nil_r.
    by destruct st.
  - apply Forall_cons in Hlines as [Hline Hlines].
    cbn [records flat_map]. rewrite append_assoc, append_cons.
    rewrite process_received_line by done. rewrite process_received_nul.
    cbn [line_buffer pub_wire set_line_buffer]. rewrite Hb, append_nil.
    rewrite IH by done. cbn [pub_wire set_line_buffer set_pub_wire].
    destruct st. cbn. by rewrite app_assoc.
Qed.

(** X15: fed to a reader with an empty line buffer, a stream of
    NUL-terminated records followed by the beginning of a further record
    publishes, in order, the document of every non-empty record, publishes
    nothing for an empty one, and keeps the unfinished record in the line
    buffer; nothing else of the process changes. *)
Theorem reader_publishes_each_record :
  forall (u : Indeterminate double) (lines : list string) (partial : string) (st : Bridge),
    Forall (fun line => no_nul line = true) lines ->
    no_nul partial = true ->
    line_buffer st = EmptyString ->
    process_received u (records lines +:+ partial) st =
    (Return tt,
     set_line_buffer partial
       (set_pub_wire (pub_wire st ++ flat_map (record_documents u) lines) st)).
Proof.
  intros u lines partial st Hlines Hpartial Hb.
  exact (process_received_records u lines partial st Hlines Hpartial Hb).
Qed.

Lemma process_received_append (u : Indeterminate double) (a b : string) :
  forall st : Bridge,
    process_received u (a +:+ b) st =
    process_received u b (snd (process_received u a st)).
Proof.
  induction a as [|c a IH]; intros st; [by rewrite append_nil|].
  rewrite append_cons. cbn [process_received].
  unfold mbind, M_bind, bind, get, modify, ret, publish_record.
  destruct (Ascii.eqb c NUL).
  - destruct (negb (empty (line_buffer st))).
    + destruct (parse_feedback_line u (line_buffer st)) as [message|];
        unfold modify, ret; apply IH.
    + apply IH.
  - apply IH.
Qed.

Lemma process_chunks_concat (u : Indeterminate double) (chunks : list string) :
  forall st : Bridge,
    process_chunks u chunks st = process_received u (concat_chunks chunks) st.
Proof.
  induction chunks as [|bytes chunks IH]; intros st; [reflexivity|].
  cbn [process_chunks concat_chunks]. unfold mbind, M_bind, bind.
  rewrite process_received_append.
  destruct (RegistryFacts.process_received_frame u bytes st) as [Hr _].
  destruct (process_received u bytes st) as [o st1]. cbn [fst snd] in *. subst o.
  apply IH.
Qed.

(** X16: how the engine's byte stream is cut into [recv] chunks does not
    matter: processing the chunks one after the other gives the result and
    the process that processing their concatenation in one piece gives, so a
    record may straddle chunks. *)
Theorem chunking_is_immaterial :
  forall (u : Indeterminate double) (chunks : list string) (st : Bridge),
    process_chunks u chunks st = process_received u (concat_chunks chunks) st.
Proof.
  intros u chunks st. revert st. exact (process_chunks_concat u chunks).
Qed.

(** *** The reconnect loop *)

Lemma feedback_down (now : Z) (h : HealthState) :
  let h' := fst (update_feedback_connection now false h) in
  feedback_connected h' = false /\
  status h' = if command_connected h' then Degraded else Unhealthy.
Proof.
  cbv zeta. unfold update_feedback_connection.
  rewrite HealthFacts.update_overall_status_table.
  match goal with |- context [update_overall_status ?n ?x] =>
    destruct (HealthFacts.update_overall_status_flags n x) as [-> ->] end.
  cbn. by destruct (command_connected h).
Qed.

Lemma mark_feedback_down (st : Bridge) :
  exists st1, mark_feedback_connection false st = (Return tt, st1) /\
              between_connections st1.
Proof.
  eexists. split; [reflexivity|]. apply feedback_down.
Qed.

Lemma connection_outcome (u : Indeterminate double) (chunks : list string) (st : Bridge) :
  exists st1, connection u chunks st = (Return tt, st1) /\ between_connections st1.
Proof.
  unfold connection, mbind, M_bind, bind.
  unfold mark_feedback_connection at 1. unfold modify at 1 2.
  match goal with |- context [process_chunks u chunks ?s] =>
    destruct (RegistryFacts.process_chunks_frame u chunks s) as [Hr _];
    destruct (process_chunks u chunks s) as [o st1]
  end.
  cbn [fst] in Hr. subst o. apply mark_feedback_down.
Qed.

Lemma reader_loop_cons (u : Indeterminate double) (attempt : Attempt)
  (later : list Attempt) (delay : Z) (st : Bridge) :
  exists st1,
    between_connections st1 /\
    reader_loop u (attempt :: later) delay st =
    let slept := match attempt with accepted _ => MIN_DELAY | refused => delay end in
    match reader_loop u later (next_delay slept) st1 with
    | (Return sleeps, st2) => (Return (slept :: sleeps), st2)
    | (Throw what, st2) => (Throw what, st2)
    end.
Proof.
  cbn [reader_loop]. unfold mbind, M_bind, bind. destruct attempt as [|chunks].
  - destruct (mark_feedback_down st) as (st1 & -> & Hdown). exists st1.
    split; [done|]. unfold ret. by destruct (reader_loop u later _ st1) as [[?|?] ?].
  - destruct (connection_outcome u chunks st) as (st1 & -> & Hdown). exists st1.
    split; [done|]. unfold ret. by destruct (reader_loop u later _ st1) as [[?|?] ?].
Qed.

(** X17: started with a delay between 100 ms and 5000 ms, the reconnect
    loop sleeps once after every attempt, connected or not, and never less
    than 100 ms or more than 5000 ms. *)
Theorem reader_sleeps_within_bounds :
  forall (u : Indeterminate double) (attempts : list Attempt) (delay : Z) (st : Bridge),
    MIN_DELAY <= delay <= MAX_DELAY ->
    exists sleeps,
      fst (reader_loop u attempts delay st) = Return sleeps /\
      length sleeps = length attempts /\
      Forall (fun slept => MIN_DELAY <= slept <= MAX_DELAY) sleeps.
Proof.
  intros u attempts. induction attempts as [|attempt later IH]; intros delay st Hdelay.
  - exists []. by repeat split.
  - destruct (reader_loop_cons u attempt later delay st) as (st1 & _ & ->). cbv zeta.
    set (slept := match attempt with accepted _ => MIN_DELAY | refused => delay end).
    assert (Hslept : MIN_DELAY <= slept <= MAX_DELAY).
    { subst slept. destruct attempt; [done|]. unfold MIN_DELAY, MAX_DELAY. lia. }
    destruct (IH (next_delay slept) st1) as (sleeps & Hr & Hlen & Hall).
    { unfold next_delay, MIN_DELAY, MAX_DELAY in *. lia. }
    destruct (reader_loop u later (next_delay slept) st1) as [[got|what] st2];
      cbn [fst] in Hr; [|discriminate].
    injection Hr as ->. exists (slept :: sleeps). cbn [fst length].
    split; [done|]. split; [by rewrite Hlen|]. by constructor.
Qed.

Lemma next_backoff_delay (i : nat) : next_delay (backoff_delay i) = backoff_delay (S i).
Proof.
  unfold next_delay, backoff_delay, MIN_DELAY, MAX_DELAY.
  rewrite Nat2Z.inj_succ, Z.pow_succ_r by lia.
  assert (0 < 2 ^ Z.of_nat i) by (apply Z.pow_pos_nonneg; lia). lia.
Qed.

Lemma refusals_back_off (u : Indeterminate double) (k : nat) :
  forall (i : nat) (st : Bridge),
    fst (reader_loop u (replicate k refused) (backoff_delay i) st) =
    Return (map backoff_delay (seq i k)).
Proof.
  induction k as [|k IH]; intros i st; [reflexivity|].
  cbn [replicate seq map].
  destruct (reader_loop_cons u refused (replicate k refused) (backoff_delay i) st)
    as (st1 & _ & ->). cbv zeta.
  rewrite next_backoff_delay. specialize (IH (S i) st1).
  destruct (reader_loop u (replicate k refused) (backoff_delay (S i)) st1)
    as [[got|what] st2]; cbn [fst] in *; [|discriminate].
  by injection IH as ->.
Qed.

(** X18: the sleeps of a run of failed attempts double from 100 ms up to
    the cap of 5000 ms, and a connection resets them: after whatever came
    before, the sleep that follows a connection is 100 ms and those after
    the [k] failures behind it are 200, 400, ... capped at 5000. *)
Theorem reader_backoff_doubles_and_resets :
  forall (u : Indeterminate double) (before : list Attempt) (chunks : list string)
         (k : nat) (delay : Z) (st : Bridge),
    fst (reader_loop u (replicate k refused) MIN_DELAY st) =
      Return (map backoff_delay (seq 0 k)) /\
    exists earlier,
      length earlier = length before /\
      fst (reader_loop u (before ++ accepted chunks :: replicate k refused) delay st) =
      Return (earlier ++ map backoff_delay (seq 0 (S k))).
Proof.
  intros u before chunks k delay st. split; [apply (refusals_back_off u k 0)|].
  revert delay st. induction before as [|attempt before IH]; intros delay st.
  - exists []. split; [done|]. cbn [app length seq map].
    destruct (reader_loop_cons u (accepted chunks) (replicate k refused) delay st)
      as (st1 & _ & ->). cbv zeta.
    change MIN_DELAY with (backoff_delay 0). rewrite next_backoff_delay.
    pose proof (refusals_back_off u k 1 st1) as Hk.
    destruct (reader_loop u (replicate k refused) (backoff_delay 1) st1)
      as [[got|what] st2]; cbn [fst] in *; [|discriminate].
    by injection Hk as ->.
  - rewrite <- app_comm_cons.
    destruct (reader_loop_cons u attempt
                (before ++ accepted chunks :: replicate k refused) delay st)
      as (st1 & _ & ->). cbv zeta.
    set (slept := match attempt with accepted _ => MIN_DELAY | refused => delay end).
    destruct (IH (next_delay slept) st1) as (earlier & Hlen & Hr).
    destruct (reader_loop u _ (next_delay slept) st1) as [[got|what] st2];
      cbn [fst] in *; [|discriminate].
    injection Hr as ->. exists (slept :: earlier).
    split; [cbn [length]; by rewrite Hlen|done].
Qed.

(** X19: whenever the reconnect loop has made at least one attempt and
    sleeps, the health state records the feedback connection as down and its
    status is the one the table gives for that: degraded with the command
    connection, unhealthy without, never healthy. *)
Theorem reader_sleeps_with_feedback_down :
  forall (u : Indeterminate double) (attempt : Attempt) (later : list Attempt)
         (delay : Z) (st : Bridge),
    let h := health_state_ (snd (reader_loop u (attempt :: later) delay st)) in
    feedback_connected h = false /\
    status h = (if command_connected h then Degraded else Unhealthy) /\
    status h <> Healthy.
Proof.
  intros u attempt later. revert attempt.
  assert (G : forall attempt delay st,
            between_connections (snd (reader_loop u (attempt :: later) delay st))).
  { induction later as [|next later IH]; intros attempt delay st.
    - destruct (reader_loop_cons u attempt [] delay st) as (st1 & Hdown & ->). done.
    - destruct (reader_loop_cons u attempt (next :: later) delay st) as (st1 & _ & ->).
      cbv zeta.
      match goal with |- context [reader_loop u (next :: later) ?d st1] =>
        specialize (IH next d st1);
        destruct (reader_loop u (next :: later) d st1) as [[got|what] st2]
      end; exact IH. }
  intros attempt delay st. cbv zeta. destruct (G attempt delay st) as [Hf Hs].
  split; [done|]. split; [done|]. rewrite Hs.
  by destruct (command_connected _).
Qed.

End WithPlatform.

(** Two records, an empty one between them, and the start of a third. *)
Lemma reader_publishes_witness :
  let st := Samples.process ∅ ∅ None [] in
  let lines := ["data_finish"; EmptyString; "cpu_load 1.5 2.5 3"] in
  Forall (fun line => no_nul line = true) lines /\
  no_nul "log 1 par" = true /\
  line_buffer st = EmptyString /\
  process_received Samples.zeros (records lines +:+ "log 1 par") st =
  (Return tt,
   set_line_buffer "log 1 par"
     (set_pub_wire (pub_wire st ++ flat_map (record_documents Samples.zeros) lines) st)).
Proof.
  cbv zeta.
  assert (Hlines : Forall (fun line => no_nul line = true)
                     ["data_finish"; EmptyString; "cpu_load 1.5 2.5 3"])
    by (repeat constructor).
  split; [exact Hlines|]. split; [reflexivity|]. split; [reflexivity|].
  exact (reader_publishes_each_record Samples.zeros _ "log 1 par"
           (Samples.process ∅ ∅ None []) Hlines eq_refl eq_refl).
Defined.

(** A refusal, a connection on which nothing arrives, and a refusal. *)
Lemma reader_sleeps_witness :
  let attempts := [refused; accepted []; refused] in
  let st := Samples.process ∅ ∅ None [] in
  MIN_DELAY <= MIN_DELAY <= MAX_DELAY /\
  exists sleeps,
    fst (reader_loop Samples.zeros attempts MIN_DELAY st) = Return sleeps /\
    length sleeps = length attempts /\
    Forall (fun slept => MIN_DELAY <= slept <= MAX_DELAY) sleeps.
Proof.
  cbv zeta.
  assert (Hd : MIN_DELAY <= MIN_DELAY <= MAX_DELAY) by (unfold MIN_DELAY, MAX_DELAY; lia).
  split; [exact Hd|].
  exact (reader_sleeps_within_bounds Samples.zeros [refused; accepted []; refused]
           MIN_DELAY (Samples.process ∅ ∅ None []) Hd).
Defined.

End ReaderFacts.

(** ** Waiting for the engine at startup *)

Module StartupFacts.
Import Types Runtime Startup Spec Props.

Section WithDouble.
Context {double : Type}.

Local Abbreviation Bridge := (Runtime.Bridge double).

Lemma command_marked (now : Z) (connected : bool) (h : HealthState) :
  let h' := fst (update_command_connection now connected h) in
  command_connected h' = connected /\
  feedback_connected h' = feedback_connected h /\
  status h' = status_table connected (feedback_connected h).
Proof.
  cbv zeta. unfold update_command_connection.
  rewrite HealthFacts.update_overall_status_table.
  match goal with |- context [update_overall_status ?n ?x] =>
    destruct (HealthFacts.update_overall_status_flags n x) as [-> ->] end.
  done.
Qed.

Lemma feedback_marked (now : Z) (connected : bool) (h : HealthState) :
  let h' := fst (update_feedback_connection now connected h) in
  command_connected h' = command_connected h /\
  feedback_connected h' = connected /\
  status h' = status_table (command_connected h) connected.
Proof.
  cbv zeta. unfold update_feedback_connection.
  rewrite HealthFacts.update_overall_status_table.
  match goal with |- context [update_overall_status ?n ?x] =>
    destruct (HealthFacts.update_overall_status_flags n x) as [-> ->] end.
  done.
Qed.

(** One round of the loop that did not find both ports. *)
Lemma wait_for_modhost_round (command_ok feedback_ok : bool)
  (later : list (bool * bool)) (st : Bridge) :
  command_ok && feedback_ok = false ->
  exists st1,
    wait_for_modhost ((command_ok, feedback_ok) :: later) st = wait_for_modhost later st1 /\
    between_connections st1.
Proof.
  intros Hboth. cbn [wait_for_modhost].
  unfold mbind, M_bind, bind, mark_command_connection, mark_feedback_connection, modify.
  destruct command_ok; [destruct feedback_ok; [discriminate|]|];
    cbn [health_state_ set_health steady_clock fst snd];
    (eexists; split; [reflexivity|]); unfold between_connections;
    cbn [health_state_ set_health];
    match goal with |- context [update_feedback_connection ?n false ?h] =>
      destruct (feedback_marked n false h) as (Hc & Hf & Hs)
    end; rewrite Hc, Hf, Hs;
    match goal with |- context [update_command_connection ?n ?c ?h] =>
      destruct (command_marked n c h) as (Hc' & _)
    end; rewrite Hc'; done.
Qed.

(** X20: [wait_for_modhost] returns [true] exactly when some round found
    both the command and the feedback port (else it ends with the shutdown
    request and [false]); when it returns [true] the health state holds both
    connections and is healthy, and after a wait of at least one round that
    returns [false] the feedback connection is recorded as down and the
    status is degraded or unhealthy. *)
Theorem wait_for_modhost_result :
  forall (probes : list (bool * bool)) (st : Bridge),
    let found := existsb (fun probe => fst probe && snd probe) probes in
    let h := health_state_ (snd (wait_for_modhost probes st)) in
    fst (wait_for_modhost probes st) = Return found /\
    (found = true ->
       command_connected h = true /\ feedback_connected h = true /\ status h = Healthy) /\
    (found = false -> probes <> [] ->
       between_connections (snd (wait_for_modhost probes st))).
Proof.
  intros probes. cbv zeta.
  induction probes as [|[command_ok feedback_ok] later IH]; intros st.
  - by repeat split.
  - cbn [existsb fst snd]. destruct (command_ok && feedback_ok) eqn:Hboth.
    + apply andb_true_iff in Hboth as [-> ->]. cbn [orb wait_for_modhost].
      unfold mbind, M_bind, bind, mark_command_connection, mark_feedback_connection,
        modify, ret.
      cbn [health_state_ set_health steady_clock fst snd].
      split; [done|]. split; [|done]. intros _.
      match goal with |- context [update_feedback_connection ?n true ?h] =>
        destruct (feedback_marked n true h) as (Hc & Hf & Hs)
      end. rewrite Hc, Hf, Hs.
      match goal with |- context [update_command_connection ?n true ?h] =>
        destruct (command_marked n true h) as (Hc' & _)
      end. by rewrite Hc'.
    + destruct (wait_for_modhost_round command_ok feedback_ok later st Hboth)
        as (st1 & -> & Hdown).
      cbn [orb]. destruct (IH st1) as (Hr & Htrue & Hfalse).
      split; [done|]. split; [done|]. intros Hnone _.
      destruct later as [|probe later]; [exact Hdown|]. by apply Hfalse.
Qed.

End WithDouble.
End StartupFacts.

(** ** The health monitor *)

Module MonitorFacts.
Import Cxx Types HealthSnapshot HealthMonitor Spec Props.

Lemma run_updates_table (h0 : HealthState) (first : HealthUpdate)
  (later : list HealthUpdate) :
  let h := run_updates h0 (first :: later) in
  status h = status_table (command_connected h) (feedback_connected h).
Proof.
  cbv zeta. generalize (first :: later) (@nil_cons _ first later).
  induction l as [|u us _] using rev_ind; [done|]. intros _.
  rewrite HealthFacts.run_updates_snoc. apply HealthFacts.apply_update_table.
Qed.

Section WithPlatform.
Context {double : Type} `{!Platform double}.

(** X21: once the health state has seen an update, the reply to a
    [{"action":"health"}] request carries the two connection flags, and the
    status and message that follow from them: "healthy" with both
    connections, "degraded" with the command connection alone, "unhealthy"
    without it. *)
Theorem health_reply_follows_flags :
  forall (created : Z) (first : HealthUpdate) (later : list HealthUpdate)
         (text : string) (members : gmap string (Json double)),
    Reader_parse text = Some (true, JObject members) ->
    members !! "action" = Some (JString "health") ->
    let h := run_updates (HealthState_new created) (first :: later) in
    let '(name, message) :=
      match command_connected h, feedback_connected h with
      | true, true => ("healthy", "Service is healthy, all connections established")
      | true, false =>
          ("degraded",
           "Service is degraded, command connection available but feedback connection lost")
      | false, _ => ("unhealthy", "Service is unhealthy, cannot connect to mod-host")
      end in
    monitor_message h text =
    JObject (<["feedback_connected" := JBool (feedback_connected h)]>
               (<["command_connected" := JBool (command_connected h)]>
                  (<["message" := JString message]>
                     {["status" := JString name]}))).
Proof.
  intros created first later text members Hparse Haction. cbv zeta.
  pose proof (run_updates_table (HealthState_new created) first later) as Htable.
  cbv zeta in Htable.
  unfold monitor_message. rewrite Hparse. cbn [isMember json_get].
  rewrite Haction, bool_decide_eq_true_2 by eauto. cbn [default asString fmap option_fmap option_map].
  change (String.eqb "health" "health") with true. cbv iota.
  unfold to_json_health, get_health_response.
  cbn [hr_status hr_message hr_command_connected hr_feedback_connected].
  rewrite Htable.
  by destruct (command_connected _), (feedback_connected _).
Qed.

(** X22: a message that is not valid JSON, or that is valid JSON but an
    array, string, number or boolean, is answered with "Invalid JSON
    format"; so is a request whose [action] is an array or an object; a null
    document, an object without [action], and an object whose [action] is
    null, a boolean or a string other than "health" are answered with
    "Invalid health request format". *)
Theorem health_monitor_error_replies :
  forall (h : HealthState) (text : string),
    let invalid_json : Json double := JObject {["error" := JString "Invalid JSON format"]} in
    let invalid_request : Json double :=
      JObject {["error" := JString "Invalid health request format"]} in
    (Reader_parse text = None \/ (exists root, Reader_parse text = Some (false, root)) ->
       monitor_message h text = invalid_json) /\
    (forall root,
       Reader_parse text = Some (true, root) ->
       match root with
       | JNull => monitor_message h text = invalid_request
       | JObject members =>
           match members !! "action" with
           | None => monitor_message h text = invalid_request
           | Some (JString action) =>
               action <> "health" -> monitor_message h text = invalid_request
           | Some JNull | Some (JBool _) => monitor_message h text = invalid_request
           | Some (JArray _) | Some (JObject _) => monitor_message h text = invalid_json
           | Some _ => True
           end
       | _ => monitor_message h text = invalid_json
       end).
Proof.
  intros h text. cbv zeta. unfold monitor_message. split.
  - intros [->|[root ->]]; reflexivity.
  - intros root ->. destruct root as [| | | | | | |members]; try reflexivity.
    cbn [isMember json_get].
    destruct (members !! "action") as [[|[]| | | |action| |]|] eqn:E; try exact I;
      try (rewrite bool_decide_eq_true_2 by eauto; reflexivity).
    + intros Hne. rewrite bool_decide_eq_true_2 by eauto.
      cbn [default asString fmap option_fmap option_map id].
      apply String.eqb_neq in Hne. by rewrite Hne.
    + rewrite bool_decide_eq_false_2 by (intros [? ?]; done). reflexivity.
Qed.

End WithPlatform.

(** A health state that saw the command port come up, asked on the sample
    platform whose reader knows the request. *)
Lemma health_reply_witness :
  let h := run_updates (HealthState_new 0) [mark_command 5 true] in
  @Reader_parse _ RequestReader.platform RequestReader.health_request =
    Some (true, JObject {[ "action" := JString "health" ]}) /\
  @monitor_message _ RequestReader.platform h RequestReader.health_request =
  JObject (<["feedback_connected" := JBool false]>
             (<["command_connected" := JBool true]>
                (<["message" :=
                     JString "Service is degraded, command connection available but feedback connection lost"]>
                   {["status" := JString "degraded"]}))).
Proof.
  cbv zeta. split; [reflexivity|].
  exact (@health_reply_follows_flags _ RequestReader.platform 0 (mark_command 5 true) []
           RequestReader.health_request {[ "action" := JString "health" ]}
           eq_refl eq_refl).
Defined.

End MonitorFacts.

(** ** The command service: one reply per message *)

Module ServiceFacts.
Import Cxx Types Runtime CommandService Props.

Section WithPlatform.
Context {double : Type} `{!Platform double}.
Variable process_plugin_command : Json double -> M double (Json double).

Local Abbreviation Bridge := (Runtime.Bridge double).
Local Abbreviation M := (Runtime.M double).

Lemma keeps_ret {A} (a : A) : keeps_rep_wire (ret a : M A).
Proof. by intros st. Qed.

Lemma keeps_throw {A} (what : string) : keeps_rep_wire (throw what : M A).
Proof. by intros st. Qed.

Lemma keeps_mbind {A B} (m : M A) (k : A -> M B) :
  keeps_rep_wire m -> (forall a, keeps_rep_wire (k a)) -> keeps_rep_wire (mbind k m).
Proof.
  intros Hm Hk st. unfold mbind, M_bind, bind. specialize (Hm st).
  destruct (m st) as [[a|what] st1]; cbn [snd] in *; [|done]. by rewrite Hk.
Qed.

Lemma keeps_isMember (key : string) (v : Json double) : keeps_rep_wire (isMember_ key v).
Proof. unfold isMember_. destruct (isMember key v); [apply keeps_ret|apply keeps_throw]. Qed.

Lemma keeps_asString (v : Json double) : keeps_rep_wire (asString_ v).
Proof. unfold asString_. destruct (asString v); [apply keeps_ret|apply keeps_throw]. Qed.

Lemma keeps_collect_args (items : list (Json double)) : keeps_rep_wire (collect_args items).
Proof.
  induction items as [|arg items IH]; [apply keeps_ret|]. cbn [collect_args].
  apply keeps_mbind; [apply keeps_asString|]. intros s.
  apply keeps_mbind; [exact IH|]. intros more. apply keeps_ret.
Qed.

Lemma keeps_process_command (request : CommandRequest) :
  keeps_rep_wire (process_command request : M (Json double)).
Proof. intros st. apply DispatcherFacts.process_command_rep_wire. Qed.

Hypothesis plugin_path_keeps : forall request, keeps_rep_wire (process_plugin_command request).

Lemma keeps_route_request (json_req : Json double) :
  keeps_rep_wire (route_request process_plugin_command json_req).
Proof.
  unfold route_request.
  repeat first
    [ apply keeps_ret | apply keeps_throw | apply keeps_isMember | apply keeps_asString
    | apply keeps_collect_args | apply keeps_process_command | apply plugin_path_keeps
    | apply keeps_mbind; [|intros ?]
    | match goal with |- keeps_rep_wire (if ?b then _ else _) => destruct b end ].
Qed.

Lemma answer_request_outcome (json_req : Json double) (st : Bridge) :
  match answer_request process_plugin_command json_req st with
  | (Return _, st1) => exists document, rep_wire st1 = rep_wire st ++ [document]
  | (Throw _, st1) => rep_wire st1 = rep_wire st
  end.
Proof.
  unfold answer_request, mbind, M_bind, bind.
  pose proof (keeps_route_request json_req st) as Hkeep.
  destruct (route_request process_plugin_command json_req st) as [[v|what] st1];
    cbn [snd] in Hkeep; [|done].
  unfold rep_send, modify. cbn [rep_wire set_rep_wire]. rewrite Hkeep. eauto.
Qed.

Lemma service_loop_message_replies_once (json_str : string) (st : Bridge) :
  fst (service_loop_message process_plugin_command json_str st) = Return tt /\
  exists document,
    rep_wire (snd (service_loop_message process_plugin_command json_str st)) =
    rep_wire st ++ [document].
Proof.
  unfold service_loop_message, try_catch, mbind, M_bind, bind.
  destruct (Reader_parse json_str) as [[[] root]|]; unfold ret, throw;
    try (split; [reflexivity|]; eexists; reflexivity).
  pose proof (answer_request_outcome root st) as Hout.
  destruct (answer_request process_plugin_command root st) as [[[]|what] st1].
  - done.
  - unfold rep_send, modify. cbn [fst snd rep_wire set_rep_wire]. rewrite Hout. eauto.
Qed.

End WithPlatform.

(** X23: whatever the message and whatever becomes of it, the service
    loop sends exactly one document on the REP socket for it and goes on,
    given that the plugin path itself sends nothing there. *)
Theorem service_replies_exactly_once :
  forall (double : Type) (P : Platform double)
         (process_plugin_command : Json double -> M double (Json double))
         (json_str : string) (st : Bridge double),
    (forall request, keeps_rep_wire (process_plugin_command request)) ->
    fst (service_loop_message process_plugin_command json_str st) = Return tt /\
    exists document,
      rep_wire (snd (service_loop_message process_plugin_command json_str st)) =
      rep_wire st ++ [document].
Proof.
  intros double P process_plugin_command json_str st Hkeep.
  by apply service_loop_message_replies_once.
Qed.

(** X24: a message that is not valid JSON, and a valid one that is neither
    a plugin request nor a legacy command (no [command], and not both [name]
    and [args]), is answered with [{"error":"Invalid request format"}]
    without anything being sent to the engine: the process is otherwise
    left as it was. *)
Theorem malformed_request_is_refused :
  forall (double : Type) (P : Platform double)
         (process_plugin_command : Json double -> M double (Json double))
         (json_str : string) (st : Bridge double),
    (Reader_parse json_str = None \/
     (exists root, Reader_parse json_str = Some (false, root)) \/
     (exists members,
        Reader_parse json_str = Some (true, JObject members) /\
        members !! "action" = None /\ members !! "command" = None /\
        (members !! "name" = None \/ members !! "args" = None))) ->
    service_loop_message process_plugin_command json_str st =
    (Return tt,
     set_rep_wire
       (rep_wire st ++ [JObject {["error" := JString "Invalid request format"]}]) st).
Proof.
  intros double P process_plugin_command json_str st Hbad.
  unfold service_loop_message, try_catch, mbind, M_bind, bind.
  destruct Hbad as [->|[[root ->]|(members & -> & Haction & Hcommand & Hrest)]];
    [reflexivity|reflexivity|].
  unfold ret, answer_request, route_request, mbind, M_bind, bind, isMember_, isMember.
  rewrite Haction, Hcommand.
  rewrite !bool_decide_eq_false_2 by (intros [? ?]; done). unfold ret.
  destruct Hrest as [Hname|Hargs].
  - rewrite Hname. rewrite bool_decide_eq_false_2 by (intros [? ?]; done). reflexivity.
  - rewrite Hargs. rewrite (bool_decide_eq_false_2 (is_Some None)) by (intros [? ?]; done).
    destruct (bool_decide (is_Some (members !! "name"))); reflexivity.
Qed.

(** The plugin path that answers null, on the sample platform. *)
Lemma service_replies_witness :
  let plugin_path : Json Samples.double -> M Samples.double (Json Samples.double) :=
    fun _ => ret JNull in
  let st := Samples.process ∅ ∅ None [] in
  (forall request, keeps_rep_wire (plugin_path request)) /\
  fst (service_loop_message plugin_path "null" st) = Return tt /\
  exists document,
    rep_wire (snd (service_loop_message plugin_path "null" st)) = rep_wire st ++ [document].
Proof.
  cbv zeta.
  assert (Hkeep : forall request : Json Samples.double,
            keeps_rep_wire ((fun _ => ret JNull) request
                            : M Samples.double (Json Samples.double)))
    by (intros request st; reflexivity).
  split; [exact Hkeep|].
  exact (service_replies_exactly_once Samples.double Decimal6.platform (fun _ => ret JNull)
           "null" (Samples.process ∅ ∅ None []) Hkeep).
Defined.

(** The text "add" is no JSON document for the sample reader. *)
Lemma malformed_request_witness :
  let plugin_path : Json Samples.double -> M Samples.double (Json Samples.double) :=
    fun _ => ret JNull in
  let st := Samples.process ∅ ∅ None [recv_data "resp 0"] in
  (exists root, Reader_parse "add" = Some (false, root : Json Samples.double)) /\
  service_loop_message plugin_path "add" st =
  (Return tt,
   set_rep_wire
     (rep_wire st ++ [JObject {["error" := JString "Invalid request format"]}]) st).
Proof.
  cbv zeta.
  assert (Hbad : exists root, Reader_parse "add" = Some (false, root : Json Samples.double))
    by (eexists; reflexivity).
  split; [exact Hbad|].
  exact (malformed_request_is_refused Samples.double Decimal6.platform (fun _ => ret JNull)
           "add" (Samples.process ∅ ∅ None [recv_data "resp 0"])
           (or_intror (or_introl Hbad))).
Defined.

End ServiceFacts.

(** ** What the parser makes of the leading keyword *)

Module KeywordFacts.
Import Cxx IStream Types Runtime Parser FeedbackReader Spec Props.

Section WithPlatform.
Context {double : Type} `{!Platform double}.

Lemma parse_total_typed (u : Indeterminate double) (line : string) :
  exists m,
    parse_feedback_line u line = Some m /\
    (type_of m = leading_token line \/ m = UnknownFeedback line).
Proof.
  unfold parse_feedback_line, leading_token.
  destruct (extract_string EmptyString (IStream.open line)) as [type iss].
  cbn [fst].
  repeat match goal with
         | |- context [String.eqb type ?kw] =>
             let E := fresh "E" in
             destruct (String.eqb type kw) eqn:E;
             [apply String.eqb_eq in E; subst type|]
         end;
  repeat match goal with
         | |- context [let '(_, _) := ?e in _] => destruct e
         end;
  try (eexists; split; [reflexivity|left; reflexivity]);
  try (eexists; split; [reflexivity|right; reflexivity]).
  destruct (Reader_parse _) as [[flag value]|];
    eexists; (split; [reflexivity|]); [left|right]; reflexivity.
Qed.

(** X25: the parser never gives up on a line: it always returns a
    message, and the message is either of the type its leading token names
    or [UnknownFeedback] carrying the whole line; the latter only when the
    token is none of the keywords, or is [patch_set] (whose JSON reader may
    throw). *)
Theorem parse_keeps_leading_keyword :
  forall (u : Indeterminate double) (line : string),
    exists m,
      parse_feedback_line u line = Some m /\
      (type_of m = leading_token line \/ m = UnknownFeedback line) /\
      (is_unknown m = true ->
         ~ In (leading_token line) recognized_types \/ leading_token line = "patch_set").
Proof.
  intros u line. destruct (parse_total_typed u line) as (m & Hm & Htype).
  exists m. split; [done|]. split; [done|]. intros Hunknown.
  destruct (decide (leading_token line = "patch_set")) as [|Hne]; [by right|]. left.
  intros Hin.
  destruct (ParserFacts.recognized_type_never_unknown u line Hin Hne) as (m' & Hm' & Hk).
  congruence.
Qed.

Lemma record_documents_typed (u : Indeterminate double) (lines : list string) :
  Forall2
    (fun line document =>
       json_get "type" document = JString (leading_token line) \/
       document = JObject (<["raw" := JString line]> {["type" := JString "unknown"]}))
    (List.filter (fun line => negb (empty line)) lines)
    (flat_map (record_documents u) lines).
Proof.
  induction lines as [|line lines IH]; [constructor|].
  cbn [List.filter flat_map]. unfold record_documents at 1.
  destruct (empty line); cbn [negb app]; [exact IH|].
  destruct (parse_total_typed u line) as (m & -> & [Htype| ->]); cbn [app];
    constructor; try exact IH.
  - left. by rewrite ParserFacts.to_json_feedback_type, Htype.
  - by right.
Qed.

(** X26: the reader drops no record: fed a stream of NUL-terminated
    records on an empty line buffer, it appends to what went out on the PUB
    socket exactly one document per non-empty record, in the order of the
    records; the [type] of each document is the leading token of its record,
    or the document is the [unknown] envelope carrying the whole record as
    [raw]. *)
Theorem every_record_is_published :
  forall (u : Indeterminate double) (lines : list string) (st : Runtime.Bridge double),
    Forall (fun line => no_nul line = true) lines ->
    line_buffer st = EmptyString ->
    exists documents,
      pub_wire (snd (process_received u (records lines) st)) = pub_wire st ++ documents /\
      Forall2
        (fun line document =>
           json_get "type" document = JString (leading_token line) \/
           document = JObject (<["raw" := JString line]> {["type" := JString "unknown"]}))
        (List.filter (fun line => negb (empty line)) lines)
        documents.
Proof.
  intros u lines st Hlines Hbuffer.
  exists (flat_map (record_documents u) lines). split; [|apply record_documents_typed].
  rewrite <- (CommandClientFacts.append_empty (records lines)).
  by rewrite (ReaderFacts.process_received_records u lines EmptyString st Hlines eq_refl
                Hbuffer).
Qed.

End WithPlatform.

(** A known record, an empty one and one with an unknown keyword. *)
Lemma every_record_witness :
  let st := Samples.process ∅ ∅ None [] in
  let lines := ["data_finish"; EmptyString; "bogus 1"] in
  Forall (fun line => no_nul line = true) lines /\
  line_buffer st = EmptyString /\
  exists documents : list (Json Samples.double),
    pub_wire (snd (process_received Samples.zeros (records lines) st)) =
      pub_wire st ++ documents /\
    Forall2
      (fun line document =>
         json_get "type" document = JString (leading_token line) \/
         document = JObject (<["raw" := JString line]> {["type" := JString "unknown"]}))
      (List.filter (fun line => negb (empty line)) lines)
      documents.
Proof.
  cbv zeta.
  assert (Hlines : Forall (fun line => no_nul line = true)
                     ["data_finish"; EmptyString; "bogus 1"])
    by (repeat constructor).
  split; [exact Hlines|]. split; [reflexivity|].
  exact (every_record_is_published Samples.zeros _ (Samples.process ∅ ∅ None [])
           Hlines eq_refl).
Defined.

End KeywordFacts.

(** ** Instance ids and the health effects of an exchange *)

Module ExchangeFacts.
Import Cxx Types PluginTypes Runtime PluginManager Props.

Lemma hex_digit_lower (d : Z) : 0 <= d < 16 -> is_lower_hex (hex_digit d) = true.
Proof.
  intros Hd.
  assert (d = 0 \/ d = 1 \/ d = 2 \/ d = 3 \/ d = 4 \/ d = 5 \/ d = 6 \/ d = 7 \/
          d = 8 \/ d = 9 \/ d = 10 \/ d = 11 \/ d = 12 \/ d = 13 \/ d = 14 \/ d = 15)
    as Hc by lia.
  repeat (destruct Hc as [->|Hc]; [by vm_compute|]). subst d. by vm_compute.
Qed.

Section WithPlatform.
Context {double : Type} `{!Platform double}.

Local Abbreviation Bridge := (Runtime.Bridge double).

Lemma draw_in_range (st : Bridge) :
  Forall (fun d => 0 <= d < 16) (random_device st) ->
  exists d rd,
    draw st = (Return d, set_random_device rd st) /\ 0 <= d < 16 /\
    Forall (fun d => 0 <= d < 16) rd.
Proof.
  intros Hall. unfold draw. unfold mbind, M_bind, bind, get, modify, ret.
  destruct (random_device st) as [|d ds] eqn:E.
  - exists 0, []. split; [|split; [lia|constructor]].
    by rewrite <- E, RegistryFacts.set_random_device_same.
  - apply Forall_cons in Hall as [Hd Hds]. eauto.
Qed.

Lemma draw_hex_format (n : nat) :
  forall st : Bridge,
    Forall (fun d => 0 <= d < 16) (random_device st) ->
    exists digits rd,
      draw_hex n st = (Return digits, set_random_device rd st) /\
      String.length digits = n /\ all_lower_hex digits = true.
Proof.
  induction n as [|n IH]; intros st Hall.
  - exists EmptyString, (random_device st). cbn. unfold ret.
    by rewrite RegistryFacts.set_random_device_same.
  - cbn [draw_hex]. unfold mbind, M_bind, bind.
    destruct (draw_in_range st Hall) as (d & rd & -> & Hd & Hrd).
    destruct (IH (set_random_device rd st) Hrd) as (digits & rd' & -> & Hlen & Hhex).
    unfold ret. exists (String (hex_digit d) digits), rd'.
    split; [reflexivity|]. cbn [String.length all_lower_hex].
    by rewrite Hlen, Hhex, hex_digit_lower.
Qed.

(** X27: an instance id is "plugin_", the number of instances the
    registry holds at that moment in decimal, "_", and eight lower-case
    hexadecimal digits; generating it changes nothing of the process but the
    state of the random generator. *)
Theorem instance_id_format :
  forall st : Bridge,
    Forall (fun d => 0 <= d < 16) (random_device st) ->
    exists suffix rd,
      generate_instance_id st =
        (Return ("plugin_" +:+ to_string (Z.of_nat (size (instances_ st))) +:+ "_" +:+
                 suffix),
         set_random_device rd st) /\
      String.length suffix = 8%nat /\ all_lower_hex suffix = true.
Proof.
  intros st Hall. unfold generate_instance_id, mbind, M_bind, bind, get.
  destruct (draw_hex_format 8 st Hall) as (digits & rd & -> & Hlen & Hhex).
  cbn. eauto.
Qed.

(** X28: an exchange with the engine marks the command connection up as
    soon as the connect succeeds, even when the send or the read then fails,
    marks it down when the connect fails, and leaves the health state alone
    when no socket could be made or the address did not resolve; the command
    is written exactly when the send succeeded; and the exchange changes
    nothing else of the process. *)
Theorem exchange_marks_command_connection :
  forall (command : string) (exchange : Exchange) (coming : list Exchange) (st : Bridge),
    engine st = exchange :: coming ->
    let st' := snd (send_to_modhost command st) in
    same_but_engine st st' /\
    match exchange with
    | socket_fails | address_fails =>
        health_state_ st' = health_state_ st /\ command_port st' = command_port st
    | connect_fails =>
        command_connected (health_state_ st') = false /\ command_port st' = command_port st
    | send_fails =>
        command_connected (health_state_ st') = true /\ command_port st' = command_port st
    | recv_data _ | recv_closed | recv_error =>
        command_connected (health_state_ st') = true /\
        command_port st' = command_port st ++ [command]
    end.
Proof.
  intros command exchange coming st Hengine. cbv zeta.
  split; [apply EngineFacts.send_to_modhost_same|].
  unfold send_to_modhost, bind, get, mark_command_connection, modify, ret.
  rewrite Hengine.
  destruct exchange;
    cbn -[update_command_connection append_c_str c_str bytes_at literal];
    try destruct (empty _);
    cbn -[update_command_connection append_c_str c_str bytes_at literal];
    rewrite ?CommandClientFacts.payload_is_command, ?CommandClientFacts.bytes_at_c_str;
    (split; [|done]); try done;
    match goal with |- context [update_command_connection ?n ?c ?h] =>
      by destruct (StartupFacts.command_marked n c h) as (Hc & _)
    end.
Qed.

End WithPlatform.

Lemma instance_id_witness :
  let st := Samples.process ∅ {[ "plugin_0_00000000" := Samples.loaded ]} None [] in
  Forall (fun d => 0 <= d < 16) (random_device st) /\
  exists suffix rd,
    generate_instance_id st =
      (Return ("plugin_" +:+ to_string (Z.of_nat (size (instances_ st))) +:+ "_" +:+ suffix),
       set_random_device rd st) /\
    String.length suffix = 8%nat /\ all_lower_hex suffix = true.
Proof.
  cbv zeta.
  assert (Hall : Forall (fun d => 0 <= d < 16)
                   (random_device
                      (Samples.process ∅ {[ "plugin_0_00000000" := Samples.loaded ]}
                         None []))) by constructor.
  split; [exact Hall|].
  exact (instance_id_format _ Hall).
Defined.

(** The engine accepts the connection and closes it without a reply. *)
Lemma exchange_witness :
  let st : Runtime.Bridge Samples.double := Samples.process ∅ ∅ None [recv_closed] in
  let st' := snd (send_to_modhost "cpu_load" st) in
  engine st = [recv_closed] /\
  same_but_engine st st' /\
  command_connected (health_state_ st') = true /\
  command_port st' = command_port st ++ ["cpu_load"].
Proof.
  cbv zeta. split; [reflexivity|].
  exact (exchange_marks_command_connection "cpu_load" recv_closed []
           (Samples.process ∅ ∅ None [recv_closed]) eq_refl).
Defined.

End ExchangeFacts.

(** ** Operations on the registry, one after the other *)

Module RoundTripFacts.
Import Cxx Types PluginTypes Runtime PluginManager PluginManagerOps Props.

Section WithPlatform.
Context {double : Type} `{!Platform double}.

Local Abbreviation Bridge := (Runtime.Bridge double).

Lemma get_plugin_info_known (id : string) (instance : PluginInstance double) (st : Bridge) :
  instances_ st !! id = Some instance ->
  process_get_plugin_info (mk_get_info id) st = (Return (GetPluginInfoResponse instance), st).
Proof.
  intros Hid. unfold process_get_plugin_info, mbind, M_bind, bind, get.
  cbn [gi_instance_id]. by rewrite Hid.
Qed.

(** X29: an instance a load has returned can be asked for by its id, and
    is among the listed instances, right after the load; once it has been
    unloaded its id is unknown again, while every other instance is still
    there. *)
Theorem loaded_instance_is_found_until_unloaded :
  forall (req : LoadPluginRequest double) (st : Bridge) (id : string)
         (instance : PluginInstance double) (freed_uri : string),
    fst (process_load_plugin req st) = Return (LoadPluginResponse id instance) ->
    let st1 := snd (process_load_plugin req st) in
    let st2 := snd (process_unload_plugin freed_uri (mk_unload id) st1) in
    process_get_plugin_info (mk_get_info id) st1 =
      (Return (GetPluginInfoResponse instance), st1) /\
    (exists listed,
       process_list_instances st1 = (Return (ListInstancesResponse listed), st1) /\
       listed !! id = Some instance) /\
    process_get_plugin_info (mk_get_info id) st2 =
      (Throw ("Plugin instance not found: " +:+ id), st2) /\
    (forall other, other <> id -> instances_ st2 !! other = instances_ st1 !! other).
Proof.
  intros req st id instance freed_uri Hload. cbv zeta.
  destruct (RegistryFacts.load_stores_request_parameters req st id instance Hload)
    as [Hstored _].
  set (st1 := snd (process_load_plugin req st)) in *.
  split; [by apply get_plugin_info_known|].
  split; [by exists (instances_ st1)|].
  destruct (InstanceFacts.unload_outcome freed_uri (mk_unload id) instance st1 Hstored)
    as (_ & Hdeleted & _).
  cbn [unload_instance_id] in Hdeleted. split.
  - unfold process_get_plugin_info, mbind, M_bind, bind, get. cbn [gi_instance_id].
    by rewrite Hdeleted, lookup_delete_eq.
  - intros other Hother. by rewrite Hdeleted, lookup_delete_ne.
Qed.

(** X30: after a [set_parameter] that the engine answered, reading the
    same parameter of the same instance gives the value that was set
    whenever the engine supplies no number of its own (no reply, or a reply
    that does not read as a number), and a parameter of another name reads
    as before the set. *)
Theorem set_then_get_returns_the_value :
  forall (stod : string -> option double) (req : SetParameterRequest double)
         (instance : PluginInstance double) (st : Bridge),
    instances_ st !! sp_instance_id req = Some instance ->
    is_Some (engine_answers st) ->
    let st1 := snd (process_set_parameter req st) in
    (engine_answers st1 = None \/
     exists reply, engine_answers st1 = Some reply /\ stod reply = None) ->
    fst (process_get_parameter stod
           (mk_get_parameter (sp_instance_id req) (sp_parameter req)) st1) =
      Return (GetParameterResponse (sp_parameter req) (sp_requested req)) /\
    forall other,
      other <> sp_parameter req ->
      fst (process_get_parameter stod (mk_get_parameter (sp_instance_id req) other) st1) =
      Return (GetParameterResponse other
                (default double_zero (parameters instance !! other))).
Proof.
  intros stod req instance st Hinst [body Hbody]. cbv zeta.
  pose proof (InstanceFacts.set_parameter_by_reply req instance st Hinst) as Hset.
  cbv zeta in Hset. rewrite Hbody in Hset. destruct Hset as (_ & Hstored & _).
  set (st1 := snd (process_set_parameter req st)) in *. intros Hnone.
  set (updated := set_parameter_value (sp_parameter req) (sp_requested req) instance).
  assert (Hid : instances_ st1 !! sp_instance_id req = Some updated)
    by (rewrite Hstored; apply lookup_insert_eq).
  assert (Hread : forall name,
            fst (process_get_parameter stod (mk_get_parameter (sp_instance_id req) name)
                   st1) =
            Return (GetParameterResponse name
                      (default double_zero (parameters updated !! name)))).
  { intros name.
    destruct (InstanceFacts.get_parameter_value stod
                (mk_get_parameter (sp_instance_id req) name) updated st1 Hid)
      as [_ ->].
    cbn [gp_parameter]. destruct Hnone as [->|(reply & -> & Hreply)]; [done|].
    by rewrite Hreply. }
  split.
  - rewrite Hread. subst updated. cbn [parameters set_parameter_value].
    by rewrite lookup_insert_eq.
  - intros other Hother. rewrite Hread. subst updated.
    cbn [parameters set_parameter_value]. by rewrite lookup_insert_ne.
Qed.

End WithPlatform.

(** The sample plugin loaded on an engine that answers "resp 0". *)
Lemma loaded_instance_witness :
  let st := Samples.process {[ "urn:foo" := Samples.foo ]} ∅ None [recv_data "resp 0"] in
  let req : LoadPluginRequest Samples.double := mk_load "urn:foo" 0 0 ∅ in
  let id := "plugin_0_00000000" in
  let instance :=
    mk_instance "urn:foo" id "Foo" EmptyString "1.0" ∅ Samples.mono_ports 0 0 true
      EmptyString 0 (Some 0) in
  let st1 := snd (process_load_plugin req st) in
  fst (process_load_plugin req st) = Return (LoadPluginResponse id instance) /\
  process_get_plugin_info (mk_get_info id) st1 =
    (Return (GetPluginInfoResponse instance), st1).
Proof.
  cbv zeta.
  assert (Hload : fst (process_load_plugin (mk_load "urn:foo" 0 0 ∅)
                         (Samples.process {[ "urn:foo" := Samples.foo ]} ∅ None
                            [recv_data "resp 0"])) =
                  Return (LoadPluginResponse "plugin_0_00000000"
                            (mk_instance "urn:foo" "plugin_0_00000000" "Foo" EmptyString
                               "1.0" ∅ Samples.mono_ports (0 : Samples.double) 0 true
                               EmptyString 0 (Some 0))))
    by (vm_compute; reflexivity).
  split; [exact Hload|].
  exact (proj1 (loaded_instance_is_found_until_unloaded _ _ _ _ "urn:foo" Hload)).
Defined.

(** Gain set to 0.75 on the loaded sample instance; the engine answers the
    set and is gone for the read. *)
Lemma set_then_get_witness :
  let st := Samples.process {[ "urn:foo" := Samples.foo ]}
              {[ "plugin_0_00000000" := Samples.loaded ]} None [recv_data "resp 0"] in
  let req : SetParameterRequest Samples.double :=
    mk_set_parameter "plugin_0_00000000" "gain" 750000 in
  let stod : string -> option Samples.double := fun _ => None in
  let st1 := snd (process_set_parameter req st) in
  instances_ st !! sp_instance_id req = Some Samples.loaded /\
  is_Some (engine_answers st) /\
  engine_answers st1 = None /\
  fst (process_get_parameter stod (mk_get_parameter "plugin_0_00000000" "gain") st1) =
    Return (GetParameterResponse "gain" (750000 : Samples.double)).
Proof.
  cbv zeta.
  assert (Hans : is_Some (engine_answers
                   (Samples.process {[ "urn:foo" := Samples.foo ]}
                      {[ "plugin_0_00000000" := Samples.loaded ]} None
                      [recv_data "resp 0"]))) by (eexists; reflexivity).
  split; [reflexivity|]. split; [exact Hans|]. split; [reflexivity|].
  exact (proj1 (set_then_get_returns_the_value (fun _ => None)
                  (mk_set_parameter "plugin_0_00000000" "gain" 750000) Samples.loaded
                  (Samples.process {[ "urn:foo" := Samples.foo ]}
                     {[ "plugin_0_00000000" := Samples.loaded ]} None
                     [recv_data "resp 0"])
                  eq_refl Hans (or_introl eq_refl))).
Defined.

End RoundTripFacts.

(** ** What changes the parameters an instance stores *)

Module StoredParameterFacts.
Import Cxx Types PluginTypes Runtime PluginManager PluginManagerOps Spec Props.

Section WithPlatform.
Context {double : Type} `{!Platform double}.

Local Abbreviation Bridge := (Runtime.Bridge double).

(** A load changes the instance map at the id it returns and nowhere else. *)
Lemma load_outcome (req : LoadPluginRequest double) (st : Bridge) :
  match fst (process_load_plugin req st) with
  | Return (LoadPluginResponse id instance) =>
      parameters instance = load_parameters req /\
      instances_ (snd (process_load_plugin req st)) = <[id := instance]> (instances_ st)
  | Return _ => False
  | Throw _ => instances_ (snd (process_load_plugin req st)) = instances_ st
  end.
Proof.
  unfold process_load_plugin, mbind, M_bind, bind, get.
  destruct (available_plugins_ st !! load_uri req) as [info|]; [|done].
  destruct (RegistryFacts.generate_instance_id_spec st) as (id & rd & ->).
  unfold get_next_numeric_instance, mbind, M_bind, bind, get, modify, ret.
  cbn [next_instance set_random_device].
  match goal with |- context [send_to_modhost ?c ?s] =>
    destruct (RegistryFacts.send_to_modhost_returns c s) as [result Hres];
    pose proof (RegistryFacts.send_to_modhost_frame c s) as (Hi & _);
    destruct (send_to_modhost c s) as [o st3]
  end.
  cbn [fst snd instances_ set_next_instance set_random_device] in Hres, Hi. subst o.
  destruct result as [reply|]; [|done].
  unfold lift. destruct (parse_returned_instance reply) as [n|what]; [|done].
  match goal with |- context [send_initial_parameters ?i ?ps st3] =>
    destruct (RegistryFacts.send_initial_parameters_frame i ps st3) as [Hr Hf];
    destruct (send_initial_parameters i ps st3) as [o st4]
  end.
  cbn [fst snd] in Hr, Hf. subst o.
  rewrite LoadFacts.publish_event_outcome.
  cbn [fst snd instances_ set_pub_wire set_instances parameters].
  by rewrite Hf, Hi.
Qed.

Lemma stored_elsewhere (st st' : Bridge) (id parameter : string) (value : double) :
  instances_ st' = alter (set_parameter_value parameter value) id (instances_ st) ->
  forall id' parameter',
    (id', parameter') <> (id, parameter) ->
    stored_parameter st' id' parameter' = stored_parameter st id' parameter'.
Proof.
  unfold stored_parameter. intros -> id' parameter' Hne.
  destruct (decide (id' = id)) as [->|Hid].
  - rewrite lookup_alter_eq. destruct (instances_ st !! id) as [instance|]; [|done].
    cbn. apply lookup_insert_ne. congruence.
  - by rewrite lookup_alter_ne.
Qed.

Lemma get_parameter_frame (stod : string -> option double) (req : GetParameterRequest)
  (st : Bridge) :
  instances_ (snd (process_get_parameter stod req st)) = instances_ st.
Proof.
  unfold process_get_parameter, mbind, M_bind, bind, get.
  destruct (instances_ st !! gp_instance_id req) as [instance|]; [|done].
  match goal with |- context [send_to_modhost ?c st] =>
    destruct (RegistryFacts.send_to_modhost_returns c st) as [result Hres];
    pose proof (RegistryFacts.send_to_modhost_frame c st) as (Hi & _);
    destruct (send_to_modhost c st) as [o st1]
  end.
  cbn [fst snd] in *. by subst o.
Qed.

Lemma rescan_frame (st : Bridge) :
  instances_ (snd (rescan_plugins st)) = instances_ st.
Proof.
  destruct (plugin_scanner_ st) as [scanner|] eqn:Hs.
  - pose proof (RegistryFacts.rescan_plugins_outcome st scanner Hs) as H.
    destruct (rescan_pipeline _ _); [by destruct H as (_ & _ & ? & _)|by rewrite H].
  - unfold rescan_plugins, mbind, M_bind, bind, get. by rewrite Hs.
Qed.

Lemma unload_removes (freed_uri : string) (req : UnloadPluginRequest) (st : Bridge) :
  instances_ (snd (process_unload_plugin freed_uri req st)) =
  delete (unload_instance_id req) (instances_ st).
Proof.
  destruct (instances_ st !! unload_instance_id req) as [instance|] eqn:Hid.
  - by destruct (InstanceFacts.unload_outcome freed_uri req instance st Hid) as (_ & ? & _).
  - unfold process_unload_plugin, mbind, M_bind, bind, get. rewrite Hid.
    cbn [snd throw]. symmetry. by apply delete_id.
Qed.

Lemma clear_all_removes (freed : string -> string) (st : Bridge) :
  instances_ (snd (process_clear_all freed st)) = ∅.
Proof.
  unfold process_clear_all, mbind, M_bind, bind, get.
  destruct (InstanceFacts.unload_each_outcome freed
              (collect_instance_ids (instances_ st)) st) as (Hr & Hi & _).
  { rewrite InstanceFacts.collect_instance_ids_perm. apply NoDup_fst_map_to_list. }
  { intros id Hid. by apply InstanceFacts.collect_instance_ids_spec. }
  destruct (unload_each freed _ st) as [o st1]. cbn [fst snd] in *. subst o.
  unfold ret. cbn [snd]. apply map_eq. intros k. rewrite Hi, lookup_empty.
  destruct (decide (k ∈ collect_instance_ids (instances_ st))) as [Hin|Hnin]; [done|].
  destruct (instances_ st !! k) as [instance|] eqn:Hk; [|done].
  exfalso. apply Hnin. apply InstanceFacts.collect_instance_ids_spec. eauto.
Qed.

(** What a connection of the feedback reader puts on the bus. *)
Lemma connection_publishes (u : Parser.Indeterminate double) (chunks lines : list string)
  (partial : string) (st : Bridge) :
  concat_chunks chunks = records lines +:+ partial ->
  Forall (fun line => no_nul line = true) lines ->
  no_nul partial = true ->
  pub_wire (snd (FeedbackReader.connection u chunks st)) =
  pub_wire st ++ flat_map (record_documents u) lines.
Proof.
  intros Hstream Hlines Hpartial.
  unfold FeedbackReader.connection, mbind, M_bind, bind, mark_feedback_connection, modify.
  rewrite ReaderFacts.process_chunks_concat, Hstream.
  by rewrite ReaderFacts.process_received_records.
Qed.

End WithPlatform.

(** C3 (amended): the parameter map an instance stores starts as the map of
    the load request, whether or not the initial [param_set] commands reached
    the engine, and a load changes the instance map at the id it returns and
    nowhere else.  A [set_parameter] that returns has received an answer
    from the engine and has recorded the requested value, leaving every other
    stored value of every instance as it was; one that throws leaves the
    instance map as it was.  Reading a parameter, asking for an instance,
    listing, searching, rescanning and a raw engine command leave the
    instance map as it was; unloading removes the named instance and
    [clear_all] removes them all, neither changes an instance that stays.
    Feedback records are published on the bus, the document of each non-empty
    record in order, and nothing the feedback reader receives changes the
    instance map. *)
Theorem C3_stored_parameters_follow_requests_only :
  forall (double : Type) (P : Platform double),
    (forall (req : LoadPluginRequest double) (st : Runtime.Bridge double),
       match fst (process_load_plugin req st) with
       | Return (LoadPluginResponse id instance) =>
           parameters instance = load_parameters req /\
           instances_ (snd (process_load_plugin req st)) =
           <[id := instance]> (instances_ st)
       | Return _ => False
       | Throw _ => instances_ (snd (process_load_plugin req st)) = instances_ st
       end) /\
    (forall (req : SetParameterRequest double) (st : Runtime.Bridge double)
            (response : PluginResponse double),
       fst (process_set_parameter req st) = Return response ->
       (exists bytes coming, engine st = recv_data bytes :: coming) /\
       instances_ (snd (process_set_parameter req st)) =
       alter (set_parameter_value (sp_parameter req) (sp_requested req))
         (sp_instance_id req) (instances_ st) /\
       stored_parameter (snd (process_set_parameter req st))
         (sp_instance_id req) (sp_parameter req) = Some (sp_requested req) /\
       (forall id parameter,
          (id, parameter) <> (sp_instance_id req, sp_parameter req) ->
          stored_parameter (snd (process_set_parameter req st)) id parameter =
          stored_parameter st id parameter)) /\
    (forall (req : SetParameterRequest double) (st : Runtime.Bridge double)
            (what : string),
       fst (process_set_parameter req st) = Throw what ->
       instances_ (snd (process_set_parameter req st)) = instances_ st) /\
    (forall st : Runtime.Bridge double,
       (forall stod req,
          instances_ (snd (process_get_parameter stod req st)) = instances_ st) /\
       (forall req, instances_ (snd (process_get_plugin_info req st)) = instances_ st) /\
       instances_ (snd (process_list_instances st)) = instances_ st /\
       (forall req, instances_ (snd (process_search_plugins req st)) = instances_ st) /\
       instances_ (snd (rescan_plugins st)) = instances_ st /\
       instances_ (snd (process_rescan_plugins st)) = instances_ st /\
       (forall command, instances_ (snd (send_to_modhost command st)) = instances_ st)) /\
    (forall st : Runtime.Bridge double,
       (forall freed_uri req,
          instances_ (snd (process_unload_plugin freed_uri req st)) =
          delete (unload_instance_id req) (instances_ st)) /\
       (forall freed, instances_ (snd (process_clear_all freed st)) = ∅)) /\
    (forall (u : Parser.Indeterminate double) (chunks : list string)
            (st : Runtime.Bridge double),
       instances_ (snd (FeedbackReader.connection u chunks st)) = instances_ st /\
       forall (lines : list string) (partial : string),
         concat_chunks chunks = records lines +:+ partial ->
         Forall (fun line => no_nul line = true) lines ->
         no_nul partial = true ->
         pub_wire (snd (FeedbackReader.connection u chunks st)) =
         pub_wire st ++ flat_map (record_documents u) lines).
Proof.
  intros double P. split; [|split; [|split; [|split; [|split]]]].
  - intros req st. apply load_outcome.
  - intros req st response Hret.
    pose proof (RegistryFacts.set_parameter_outcome req st) as Hout. rewrite Hret in Hout.
    destruct Hout as (_ & Hsome & Hdata & Halter).
    split; [done|]. split; [done|].
    split; [by eapply RegistryFacts.stored_after_alter|by eapply stored_elsewhere].
  - intros req st what Hthrow.
    pose proof (RegistryFacts.set_parameter_outcome req st) as Hout.
    rewrite Hthrow in Hout. by destruct Hout.
  - intros st. split; [intros stod req; apply get_parameter_frame|].
    split.
    { intros req. unfold process_get_plugin_info, mbind, M_bind, bind, get.
      by destruct (instances_ st !! gi_instance_id req). }
    split; [reflexivity|]. split.
    { intros req. unfold process_search_plugins, mbind, M_bind, bind, get.
      by destruct (search_engine_ st). }
    split; [apply rescan_frame|]. split.
    { rewrite RegistryFacts.process_rescan_plugins_counts. apply rescan_frame. }
    intros command. apply RegistryFacts.send_to_modhost_frame.
  - intros st. split; [intros freed_uri req; apply unload_removes|].
    intros freed. apply clear_all_removes.
  - intros u chunks st. split; [apply RegistryFacts.connection_frame|].
    intros lines partial. apply connection_publishes.
Qed.

(** Setting gain to 0.75 on the loaded sample instance, with an engine that
    answers. *)
Lemma C3_witness :
  let st := Samples.process {[ "urn:foo" := Samples.foo ]}
              {[ "plugin_0_00000000" := Samples.loaded ]} None [recv_data "resp 0"] in
  let req := mk_set_parameter "plugin_0_00000000" "gain" 750000 in
  fst (process_set_parameter req st) = Return (SetParameterResponse "ok" 750000) /\
  stored_parameter (snd (process_set_parameter req st)) "plugin_0_00000000" "gain" =
  Some 750000.
Proof.
  cbv zeta.
  assert (Hret : fst (process_set_parameter
                        (mk_set_parameter "plugin_0_00000000" "gain" 750000)
                        (Samples.process {[ "urn:foo" := Samples.foo ]}
                           {[ "plugin_0_00000000" := Samples.loaded ]} None
                           [recv_data "resp 0"])) =
                 Return (SetParameterResponse "ok" (750000 : Samples.double)))
    by (vm_compute; reflexivity).
  split; [exact Hret|].
  exact (proj1 (proj2 (proj2 (proj1 (proj2
           (C3_stored_parameters_follow_requests_only Samples.double Decimal6.platform))
           _ _ _ Hret)))).
Defined.

End StoredParameterFacts.
